(** * Block-sparse attention masks: a model of [torch/nn/attention/_flex_attention.py]

    The development embeds the [BlockMask] class and the functions that build
    it from a dense mask, and proves properties of the shape, sparsity,
    dense-reconstruction, compression, indexing and drawing code.

    Tensors are contiguous row-major arrays: a dtype, a shape and the flat
    list of elements.  Python exceptions are values of [exn], carried by the
    [Result] monad. *)

From Stdlib Require Import ZArith QArith Lia Lqa.
From stdpp Require Import base list strings pretty.

Local Open Scope Z_scope.

(** ** Exceptions and the result monad *)

Inductive exn : Type :=
| AssertionError      (* a failed [assert] *)
| RuntimeError        (* raised by the module itself or by a torch operator *)
| ValueError          (* tuple unpacking of a shape of the wrong length *)
| IndexError          (* [shape[-1]] of a 0-dim tensor, index out of range *)
| TypeError           (* a call that does not bind its arguments *)
| ZeroDivisionError   (* [%], [//] or [/] by zero *)
| Unmodelled.         (* tensor layouts outside the ones this model covers *)

Inductive Result (A : Type) : Type :=
| Ok (a : A)
| Err (e : exn).
Arguments Ok {A} a.
Arguments Err {A} e.

#[global] Instance Result_ret : MRet Result := fun _ a => Ok a.
#[global] Instance Result_bind : MBind Result := fun _ _ f m =>
  match m with
  | Ok a => f a
  | Err e => Err e
  end.

Definition py_assert (b : bool) : Result unit :=
  if b then Ok tt else Err AssertionError.

Definition is_ok {A} (r : Result A) : bool :=
  match r with Ok _ => true | Err _ => false end.

(** ** Tensors *)

(** Float tensors only occur as the rejected result of a user function; their
    elements are not represented. *)
Inductive dtype : Type := Bool | Int8 | Int32 | Int64 | Float32.

#[global] Instance dtype_eq_dec : EqDecision dtype.
Proof. solve_decision. Defined.

Record Tensor : Type := mkTensor {
  tdtype : dtype;
  tshape : list nat;
  tdata : list Z
}.

Definition prod_list (l : list nat) : nat := foldr Nat.mul 1%nat l.
Definition zsum (l : list Z) : Z := foldr Z.add 0 l.
Definition zprod (l : list Z) : Z := foldr Z.mul 1 l.

(** [t.dim()] *)
Definition dim (t : Tensor) : nat := length (tshape t).

(** Two's-complement wrap-around of a [w]-bit signed integer. *)
Definition wrap (w : Z) (z : Z) : Z :=
  (z + 2 ^ (w - 1)) mod 2 ^ w - 2 ^ (w - 1).

(** Conversion of one element to a dtype, as [Tensor.to(dtype=...)] does. *)
Definition cast (d : dtype) (z : Z) : Z :=
  match d with
  | Bool => if z =? 0 then 0 else 1
  | Int8 => wrap 8 z
  | Int32 => wrap 32 z
  | Int64 => wrap 64 z
  | Float32 => z
  end.

(** [t.to(dtype=d)] *)
Definition to (d : dtype) (t : Tensor) : Tensor :=
  mkTensor d (tshape t) (cast d <$> tdata t).

(** [torch.zeros(shape, dtype=d)] and [torch.ones(shape, dtype=d)] *)
Definition zeros (s : list nat) (d : dtype) : Tensor :=
  mkTensor d s (replicate (prod_list s) 0).
Definition ones (s : list nat) (d : dtype) : Tensor :=
  mkTensor d s (replicate (prod_list s) 1).

(** [t.shape[-1]]: raises [IndexError] on a 0-dim tensor. *)
Definition last_dim (t : Tensor) : Result nat :=
  match last (tshape t) with
  | Some n => Ok n
  | None => Err IndexError
  end.

(** The flat data cut into [k] consecutive pieces of [n] elements. *)
Fixpoint chunks {A} (k n : nat) (l : list A) : list (list A) :=
  match k with
  | O => []
  | S k' => take n l :: chunks k' n (drop n l)
  end.

(** Rows and columns exchanged; [nc] is the number of columns of [rows]. *)
Definition transpose {A} (d : A) (nc : nat) (rows : list (list A)) : list (list A) :=
  (fun c => (fun row => nth c row d) <$> rows) <$> seq 0 nc.

(** [t[i]] for an integer [i]: the [i]-th entry along the first dimension; a
    negative [i] counts from the end.  A 0-dim tensor cannot be indexed and
    an index outside the first dimension raises. *)
Definition select (t : Tensor) (i : Z) : Result Tensor :=
  match tshape t with
  | [] => Err IndexError
  | n :: s =>
      let i := if i <? 0 then i + Z.of_nat n else i in
      if (0 <=? i) && (i <? Z.of_nat n) then
        Ok (mkTensor (tdtype t) s
              (take (prod_list s) (drop (Z.to_nat i * prod_list s) (tdata t))))
      else Err IndexError
  end.

(** *** Broadcasting *)

(** The shape padded with leading 1s up to rank [r]. *)
Definition pad_shape (r : nat) (s : list nat) : list nat :=
  replicate (r - length s) 1%nat ++ s.

(** Broadcast of two shapes of equal rank: sizes agree or one of them is 1. *)
Fixpoint broadcast_shapes (s1 s2 : list nat) : option (list nat) :=
  match s1, s2 with
  | [], [] => Some []
  | n1 :: r1, n2 :: r2 =>
      r ← broadcast_shapes r1 r2;
      if decide (n1 = n2) then Some (n1 :: r)
      else if decide (n1 = 1%nat) then Some (n2 :: r)
      else if decide (n2 = 1%nat) then Some (n1 :: r)
      else None
  | _, _ => None
  end.

(** Data of shape [src] expanded to the broadcast shape [tgt]. *)
Fixpoint expand_to (src tgt : list nat) (d : list Z) : list Z :=
  match src, tgt with
  | n :: src', m :: tgt' =>
      let blocks := chunks n (prod_list src') d in
      let blocks' :=
        if decide (n = m) then blocks else replicate m (hd [] blocks) in
      concat (expand_to src' tgt' <$> blocks')
  | _, _ => d
  end.

(** [a + b] on two integer tensors of dtype [d], with broadcasting. *)
Definition tensor_add (d : dtype) (a b : Tensor) : Result Tensor :=
  let r := Nat.max (dim a) (dim b) in
  let sa := pad_shape r (tshape a) in
  let sb := pad_shape r (tshape b) in
  match broadcast_shapes sa sb with
  | Some s =>
      Ok (mkTensor d s
            (zip_with (fun x y => cast d (x + y))
               (expand_to sa s (tdata a)) (expand_to sb s (tdata b))))
  | None => Err RuntimeError
  end.

(** *** Reductions and sorting *)

(** [t.sum()]: the sum of all elements. *)
Definition sum_all (t : Tensor) : Z := zsum (tdata t).

(** Insertion of a (value, position) pair into a list sorted by descending
    value; the new pair comes from an earlier position than every pair of the
    list, so it goes before the pairs of equal value. *)
Fixpoint insert_desc (x : Z * Z) (l : list (Z * Z)) : list (Z * Z) :=
  match l with
  | [] => [x]
  | y :: l' => if x.1 <? y.1 then y :: insert_desc x l' else x :: y :: l'
  end.

(** [torch.argsort(row, descending=True, stable=True)] on one row: the
    positions of the row ordered by descending value, equal values keeping
    their original order. *)
Definition indexed (row : list Z) : list (Z * Z) :=
  zip row (Z.of_nat <$> seq 0 (length row)).

Definition argsort_row (row : list Z) : list Z :=
  snd <$> foldr insert_desc [] (indexed row).

(** The operators on a 4-D tensor [(B, H, R, C)] used by the compressor.
    Below rank 4 the dimension does not exist ([IndexError]); above rank 4
    they are not modelled. *)
Definition rank4 {A} (t : Tensor) (k : nat -> nat -> nat -> nat -> A) : Result A :=
  match tshape t with
  | [B; H; R; C] => Ok (k B H R C)
  | s => Err (if (length s <? 4)%nat then IndexError else Unmodelled)
  end.

(** The [B * H] matrices of a 4-D tensor, each as its [R] rows of [C] elements. *)
Definition matrices (B H R C : nat) (data : list Z) : list (list (list Z)) :=
  chunks R C <$> chunks (B * H) (R * C) data.

Definition flatten2 (m : list (list Z)) : list Z := concat m.

(** [t.sum(dim=3)] *)
Definition sum_dim3 (t : Tensor) : Result Tensor :=
  rank4 t (fun B H R C =>
    mkTensor Int64 [B; H; R]
      ((fun row => cast Int64 (zsum row)) <$> chunks (B * H * R) C (tdata t))).

(** [t.sum(dim=2)] *)
Definition sum_dim2 (t : Tensor) : Result Tensor :=
  rank4 t (fun B H R C =>
    mkTensor Int64 [B; H; C]
      (concat ((fun m => (fun col => cast Int64 (zsum col)) <$> transpose 0 C m)
                 <$> matrices B H R C (tdata t)))).

(** [torch.argsort(t, dim=3, descending=True, stable=True)] *)
Definition argsort_dim3 (t : Tensor) : Result Tensor :=
  rank4 t (fun B H R C =>
    mkTensor Int64 [B; H; R; C]
      (concat (argsort_row <$> chunks (B * H * R) C (tdata t)))).

(** [torch.argsort(t, dim=2, descending=True, stable=True)]: every column
    is sorted on its own, the result keeps the shape of [t]. *)
Definition argsort_dim2 (t : Tensor) : Result Tensor :=
  rank4 t (fun B H R C =>
    mkTensor Int64 [B; H; R; C]
      (concat ((fun m => flatten2 (transpose 0 R (argsort_row <$> transpose 0 C m)))
                 <$> matrices B H R C (tdata t)))).

(** [t.permute(0, 1, 3, 2)] *)
Definition permute_0132 (t : Tensor) : Result Tensor :=
  rank4 t (fun B H R C =>
    mkTensor (tdtype t) [B; H; C; R]
      (concat ((fun m => flatten2 (transpose 0 C m)) <$> matrices B H R C (tdata t)))).

(** [t.view(sizes)]: same data under a new shape.  A negative size is rejected;
    [-1] (an inferred size) never resolves at the one call site of this
    module, where it can only come from a negative block size. *)
Definition view (s : list Z) (t : Tensor) : Result Tensor :=
  if forallb (fun n => 0 <=? n) s then
    let s' := Z.to_nat <$> s in
    if decide (prod_list s' = prod_list (tshape t))
    then Ok (mkTensor (tdtype t) s' (tdata t))
    else Err RuntimeError
  else Err RuntimeError.

(** [t.permute(0, 1, 2, 4, 3, 5)] on a 6-D tensor [(B, H, R, Qb, C, KVb)]:
    inside each of the [B * H * R] bands the [Qb x C] grid of pieces of
    [KVb] elements is transposed. *)
Definition permute_012435 (t : Tensor) : Result Tensor :=
  match tshape t with
  | [B; H; R; Qb; C; KVb] =>
      Ok (mkTensor (tdtype t) [B; H; R; C; Qb; KVb]
            (concat ((fun band =>
                        concat (@concat _ <$>
                          transpose [] C (chunks C KVb <$> chunks Qb (C * KVb) band)))
                       <$> chunks (B * H * R) (Qb * C * KVb) (tdata t))))
  | _ => Err RuntimeError
  end.

(** [t.sum(dim=[-2, -1])] *)
Definition sum_last2 (t : Tensor) : Result Tensor :=
  match reverse (tshape t) with
  | y :: x :: rest =>
      let outer := reverse rest in
      Ok (mkTensor Int64 outer
            ((fun c => cast Int64 (zsum c)) <$> chunks (prod_list outer) (x * y) (tdata t)))
  | _ => Err IndexError
  end.

(** Element-wise test of an integer tensor, giving a bool tensor. *)
Definition tensor_test (p : Z -> bool) (t : Tensor) : Tensor :=
  mkTensor Bool (tshape t) ((fun z => if p z then 1 else 0) <$> tdata t).

(** [a & b] on two bool tensors of one shape. *)
Definition tensor_and (a b : Tensor) : Tensor :=
  mkTensor Bool (tshape a) (zip_with Z.land (tdata a) (tdata b)).

(** ** User functions *)

(** A tensor scalar returned by a user function: a boolean, or a float of
    which only [isneginf] is observed. *)
Inductive Scalar : Type :=
| SBool (b : bool)
| SFloat (neginf : bool).

Inductive param_kind : Type :=
| POSITIONAL_ONLY | POSITIONAL_OR_KEYWORD | VAR_POSITIONAL | KEYWORD_ONLY | VAR_KEYWORD.

#[global] Instance param_kind_eq_dec : EqDecision param_kind.
Proof. solve_decision. Defined.

Record Param : Type := mkParam {
  kind : param_kind;
  has_default : bool
}.

(** [param.default == inspect.Parameter.empty]; [*args] and [**kwargs]
    never carry a default. *)
Definition default_is_empty (p : Param) : bool :=
  match kind p with
  | VAR_POSITIONAL | VAR_KEYWORD => true
  | _ => negb (has_default p)
  end.

(** A Python callable: its signature and what its body computes from the
    positional arguments it is called with. *)
Record PyFn : Type := mkPyFn {
  parameters : list Param;
  body : list Z -> Scalar
}.

Definition is_positional (p : Param) : bool :=
  match kind p with
  | POSITIONAL_ONLY | POSITIONAL_OR_KEYWORD => true
  | _ => false
  end.

Definition is_kind (k : param_kind) (p : Param) : bool :=
  bool_decide (kind p = k).

(** Python's argument binding for a call with [n] positional arguments and
    no keyword argument. *)
Definition binds (fn : PyFn) (n : nat) : bool :=
  let ps := parameters fn in
  let pos := List.filter is_positional ps in
  let required := List.filter default_is_empty pos in
  (length required <=? n)%nat
  && ((n <=? length pos)%nat || existsb (is_kind VAR_POSITIONAL) ps)
  && forallb (fun p => negb (is_kind KEYWORD_ONLY p) || has_default p) ps.

(** [fn] under nested [torch.vmap]s, called with [n] positional arguments:
    one evaluation of the body per argument tuple, or the [TypeError] of a
    call that does not bind.  Of an empty list of argument tuples the body
    is not evaluated, whereas [torch.vmap] traces the function even then:
    what is proved of an arbitrary function is stated for index grids of
    non-zero extents. *)
Definition vmap_call (fn : PyFn) (n : nat) (args : list (list Z)) : Result (list Scalar) :=
  if binds fn n then Ok (body fn <$> args) else Err TypeError.

(** The number of parameters without a default, as [create_block_mask]
    counts them through [inspect.signature]. *)
Definition required_parameters (fn : PyFn) : nat :=
  length (List.filter default_is_empty (parameters fn)).

Fixpoint mapR {A B} (f : A -> Result B) (l : list A) : Result (list B) :=
  match l with
  | [] => Ok []
  | x :: l' => y ← f x; ys ← mapR f l'; Ok (y :: ys)
  end.

Fixpoint foldR {A B} (f : A -> B -> Result A) (a : A) (l : list B) : Result A :=
  match l with
  | [] => Ok a
  | x :: l' => a' ← f a x; foldR f a' l'
  end.

(** ** The BlockMask class *)

Definition _DEFAULT_SPARSE_BLOCK_SIZE : Z := 128.

Module BlockMask.

Record t : Type := mk {
  full_kv_num_blocks : Tensor;
  full_kv_indices : Tensor;
  full_q_num_blocks : Tensor;
  full_q_indices : Tensor;
  partial_kv_num_blocks : Tensor;
  partial_kv_indices : Tensor;
  partial_q_num_blocks : Tensor;
  partial_q_indices : Tensor;
  KV_BLOCK_SIZE : Z;
  Q_BLOCK_SIZE : Z;
  mask_fn : option PyFn
}.

(** [BlockMask.__init__] *)
Definition init (full_kv_num_blocks full_kv_indices full_q_num_blocks full_q_indices
    partial_kv_num_blocks partial_kv_indices partial_q_num_blocks partial_q_indices : Tensor)
    (KV_BLOCK_SIZE Q_BLOCK_SIZE : Z) (mask_fn : option PyFn) : Result t :=
  if (dim full_kv_indices <? 2)%nat || (dim partial_kv_indices <? 2)%nat
  then Err RuntimeError
  else Ok (mk full_kv_num_blocks full_kv_indices full_q_num_blocks full_q_indices
              partial_kv_num_blocks partial_kv_indices partial_q_num_blocks
              partial_q_indices KV_BLOCK_SIZE Q_BLOCK_SIZE mask_fn).

(** The eight tensors of [as_tuple()], which are followed there by the two
    block sizes and the predicate. *)
Definition as_tuple_tensors (bm : t) : list Tensor :=
  [full_kv_num_blocks bm; full_kv_indices bm; full_q_num_blocks bm; full_q_indices bm;
   partial_kv_num_blocks bm; partial_kv_indices bm; partial_q_num_blocks bm;
   partial_q_indices bm].

(** [x[index]] for an index that is an integer or a tuple of integers, here
    the list of its components. *)
Definition tensor_getitem (index : list Z) (x : Tensor) : Result Tensor :=
  foldR select x index.

(** [__getitem__], for an index that is an integer or a tuple of integers.
    With a predicate all eight tensors are indexed, without one the four
    full ones only. *)
Definition getitem (bm : t) (index : list Z) : Result t :=
  match mask_fn bm with
  | Some _ =>
      tensors ← mapR (tensor_getitem index) (as_tuple_tensors bm);
      match tensors with
      | [t0; t1; t2; t3; t4; t5; t6; t7] =>
          init t0 t1 t2 t3 t4 t5 t6 t7 (KV_BLOCK_SIZE bm) (Q_BLOCK_SIZE bm) (mask_fn bm)
      | _ => Err IndexError
      end
  | None =>
      tensors ← mapR (tensor_getitem index) (take 4 (as_tuple_tensors bm));
      match tensors with
      | [t0; t1; t2; t3] =>
          init t0 t1 t2 t3
            (partial_kv_num_blocks bm) (partial_kv_indices bm)
            (partial_q_num_blocks bm) (partial_q_indices bm)
            (KV_BLOCK_SIZE bm) (Q_BLOCK_SIZE bm) (mask_fn bm)
      | _ => Err IndexError
      end
  end.

(** The [shape] property. *)
Definition shape (bm : t) : Result (list Z) :=
  match reverse (tshape (full_kv_indices bm)) with
  | _ :: _ :: batch_rev =>
      let batch_dims := Z.of_nat <$> reverse batch_rev in
      rows ← last_dim (full_kv_num_blocks bm);
      let q_length := Z.of_nat rows * KV_BLOCK_SIZE bm in
      cols ← last_dim (full_q_num_blocks bm);
      let kv_length := Z.of_nat cols * Q_BLOCK_SIZE bm in
      Ok (batch_dims ++ [q_length; kv_length])
  | _ => Err ValueError
  end.

(** [numel]: the product of the shape. *)
Definition numel (bm : t) : Result Z :=
  shape ← shape bm;
  Ok (zprod shape).

(** [sparsity], over exact rationals where Python computes in floats: the
    two integers of the quotient are those of the source, and the value is
    Python's where Python's is exact (as for 0 and 25). *)
Definition sparsity (bm : t) : Result Q :=
  total_size ← numel bm;
  let computed_size :=
    (sum_all (full_kv_num_blocks bm) + sum_all (partial_kv_num_blocks bm))
    * KV_BLOCK_SIZE bm * Q_BLOCK_SIZE bm in
  if total_size =? 0 then Err ZeroDivisionError
  else
    let dense_ratio := (inject_Z computed_size / inject_Z total_size)%Q in
    Ok (100 * (1 - dense_ratio))%Q.

(** [dense_mask[row, idx] = 1] for one index of one row; a negative index
    counts from the end, an index outside the row raises. *)
Definition index_put (row : list Z) (idx : Z) : Result (list Z) :=
  let n := Z.of_nat (length row) in
  if (0 <=? idx) && (idx <? n) then Ok (<[Z.to_nat idx := 1]> row)
  else if (- n <=? idx) && (idx <? 0) then Ok (<[Z.to_nat (idx + n) := 1]> row)
  else Err IndexError.

(** One row of [create_dense_one]: the entries of the row's index sequence
    below its count are scattered, the others go to the extra column
    [num_cols], which is dropped at the end. *)
Definition create_dense_row (num_cols : nat) (count : Z) (indices : list Z)
    : Result (list Z) :=
  let valid_indices :=
    imap (fun c idx => if Z.of_nat c <? count then idx else Z.of_nat num_cols) indices in
  row ← foldR index_put (replicate (num_cols + 1) 0) valid_indices;
  Ok (take num_cols row).

(** [create_dense_one] on the [num_rows] counts and index rows of one
    batch entry. *)
Definition create_dense_one (num_rows num_cols : nat)
    (kv_num_blocks : list Z) (kv_indices : list Z) : Result (list Z) :=
  rows ← mapR (fun ci => create_dense_row num_cols ci.1 ci.2)
               (zip kv_num_blocks (chunks num_rows num_cols kv_indices));
  Ok (concat rows).

(** [to_dense].  [torch.vmap] over every batch dimension runs
    [create_dense_one] on each batch entry.  Modelled for the layout
    [batch_dims + (num_rows,)] of the counts and
    [batch_dims + (num_rows, num_cols)] of the indices. *)
Definition to_dense (bm : t) : Result Tensor :=
  num_rows ← last_dim (full_kv_num_blocks bm);
  num_cols ← last_dim (full_q_num_blocks bm);
  let batch_dims := reverse (tail (reverse (tshape (full_kv_num_blocks bm)))) in
  kv_num_blocks ← tensor_add Int32 (full_kv_num_blocks bm) (partial_kv_num_blocks bm);
  let kv_indices := full_kv_indices bm in
  if decide (tshape kv_num_blocks = batch_dims ++ [num_rows]
             ∧ tshape kv_indices = batch_dims ++ [num_rows; num_cols]) then
    let nb := prod_list batch_dims in
    out ← mapR (fun ci => create_dense_one num_rows num_cols ci.1 ci.2)
               (zip (chunks nb num_rows (tdata kv_num_blocks))
                    (chunks nb (num_rows * num_cols) (tdata kv_indices)));
    Ok (mkTensor Int32 (batch_dims ++ [num_rows; num_cols]) (concat out))
  else Err Unmodelled.

(** *** Drawing *)

(** The [grid_size] argument of [to_string]: an integer or a pair of
    integers. *)
Inductive GridSize : Type :=
| GridInt (n : Z)
| GridPair (max_rows max_cols : Z).

Definition newline : string := String (Ascii.ascii_of_nat 10) EmptyString.

(** [(a + (b - 1)) // b] *)
Definition cdiv (a b : Z) : Result Z :=
  if b =? 0 then Err ZeroDivisionError else Ok ((a + (b - 1)) / b).

(** [range(0, stop, step)] for a positive [step]. *)
Definition py_range (stop step : nat) : list nat :=
  (fun k => k * step)%nat <$> seq 0 ((stop + step - 1) / step).

(** [section.float().mean().item()] compared with 1 and 0.  The mean is
    taken exactly; float32 agrees with it on the sections of at most [2^24]
    tiles.  The mean of an empty section is [nan], which is neither. *)
Definition summarize_section (section : list Z) : string :=
  match section with
  | [] => "░"
  | _ =>
      let percentage :=
        (inject_Z (zsum section) / inject_Z (Z.of_nat (length section)))%Q in
      if Qeq_bool percentage 1 then "█"
      else if Qeq_bool percentage 0 then " "
      else "░"
  end.

(** [cur_mask[r : r + row_step, c : c + col_step]], as the list of its
    elements. *)
Definition section_at (cur_mask : list (list Z)) (r row_step c col_step : nat) : list Z :=
  concat ((fun row => take col_step (drop c row)) <$> take row_step (drop r cur_mask)).

(** [f"{batch_idx}"]: the text of a tuple of integers. *)
Definition tuple_text (batch_idx : list nat) : string :=
  match batch_idx with
  | [i] => "(" +:+ pretty i +:+ ",)"
  | _ => "(" +:+ String.concat ", " (pretty <$> batch_idx) +:+ ")"
  end.

(** The characters of the picture of one batch entry: one per section of
    [row_step x col_step] tiles. *)
Definition block_cells (cur_mask : list (list Z)) (num_rows num_cols row_step col_step : nat)
    : list (list string) :=
  (fun r => (fun c => summarize_section (section_at cur_mask r row_step c col_step))
              <$> py_range num_cols col_step)
    <$> py_range num_rows row_step.

(** The text built from a header and the characters: every character is
    written twice and every row ends in a newline. *)
Definition block_text (header : string) (cells : list (list string)) : string :=
  header +:+ newline
  +:+ String.concat EmptyString
        ((fun row => String.concat EmptyString ((fun char => char +:+ char) <$> row)
                     +:+ newline) <$> cells).

(** [create_block_vis] inside [to_string], called on the indices of one
    batch entry. *)
Definition create_block_vis (dense_mask : Tensor) (num_rows num_cols : nat)
    (max_rows max_cols : Z) (batch_idx : list nat) : Result string :=
  rows ← cdiv (Z.of_nat num_rows) max_rows;
  let row_step := Z.to_nat (Z.max 1 rows) in
  cols ← cdiv (Z.of_nat num_cols) max_cols;
  let col_step := Z.to_nat (Z.max 1 cols) in
  cur_mask ← foldR select dense_mask (Z.of_nat <$> batch_idx);
  Ok (block_text (tuple_text batch_idx)
        (block_cells (chunks num_rows num_cols (tdata cur_mask))
           num_rows num_cols row_step col_step)).

(** [itertools.product] of the ranges of the batch dimensions: the index
    tuples of the batch entries in row-major order. *)
Fixpoint product (batch_dims : list nat) : list (list nat) :=
  match batch_dims with
  | [] => [[]]
  | d :: ds => i ← seq 0 d; t ← product ds; [i :: t]
  end.

Definition limit_message : list string :=
  ["..."; "To print out more, set BlockMask.to_string(limit=N)";
   "You can also index (BlockMask[batch, head]) to choose a specific batch or head"].

(** The loop over the enumerated batch entries, from entry number [idx]. *)
Fixpoint total_vis (vis : list nat → Result string) (limit idx : Z)
    (batches : list (list nat)) : Result (list string) :=
  match batches with
  | [] => Ok []
  | batch_idx :: rest =>
      if idx =? limit then Ok limit_message
      else
        block_vis ← vis batch_idx;
        later ← total_vis vis limit (idx + 1) rest;
        Ok (block_vis :: later)
  end.

(** [to_string(grid_size, limit)].  An integer [grid_size] is taken by the
    first branch, so the branch for [grid_size == -1] is never reached. *)
Definition to_string (bm : t) (grid_size : GridSize) (limit : Z) : Result string :=
  dense_mask ← to_dense bm;
  match reverse (tshape dense_mask) with
  | num_cols :: num_rows :: batch_rev =>
      let batch_dims := reverse batch_rev in
      let '(max_rows, max_cols) :=
        match grid_size with
        | GridInt n => (n, n)
        | GridPair max_rows max_cols => (max_rows, max_cols)
        end in
      lines ← total_vis (create_block_vis dense_mask num_rows num_cols max_rows max_cols)
                 limit 0 (product batch_dims);
      Ok (String.concat newline lines)
  | _ => Err ValueError
  end.

End BlockMask.

(** ** From a dense mask to tile grids *)

(** Python's [a % b] and [a // b] on integers. *)
Definition py_mod (a b : Z) : Result Z :=
  if b =? 0 then Err ZeroDivisionError else Ok (a mod b).
Definition py_floordiv (a b : Z) : Result Z :=
  if b =? 0 then Err ZeroDivisionError else Ok (a / b).

(** [while x.dim() < dim: x = x.unsqueeze(0)] *)
Definition _broadcast_to_dim (x : Tensor) (d : nat) : Tensor :=
  mkTensor (tdtype x) (pad_shape d (tshape x)) (tdata x).

(** The number of [true] elements of every tile: the view of the mask as
    [(B, H, Q // Qb, Qb, KV // KVb, KVb)], permuted and summed over the two
    within-tile axes. *)
Definition mask_block_sum (mask : Tensor) (B H Q KV : nat)
    (KV_BLOCK_SIZE Q_BLOCK_SIZE : Z) : Result Tensor :=
  q_blocks ← py_floordiv (Z.of_nat Q) Q_BLOCK_SIZE;
  kv_blocks ← py_floordiv (Z.of_nat KV) KV_BLOCK_SIZE;
  mask ← view [Z.of_nat B; Z.of_nat H; q_blocks; Q_BLOCK_SIZE; kv_blocks; KV_BLOCK_SIZE] mask;
  mask ← permute_012435 mask;
  sum_last2 mask.

Definition _convert_mask_to_block_mask (mask : Tensor)
    (KV_BLOCK_SIZE Q_BLOCK_SIZE : Z) (mask_fn : option PyFn)
    : Result (Tensor * option Tensor) :=
  _ ← py_assert (bool_decide (tdtype mask = Bool));
  let mask := _broadcast_to_dim mask 4 in
  match tshape mask with
  | [B; H; Q; KV] =>
      q_rem ← py_mod (Z.of_nat Q) Q_BLOCK_SIZE;
      _ ← py_assert (q_rem =? 0);
      kv_rem ← py_mod (Z.of_nat KV) KV_BLOCK_SIZE;
      _ ← py_assert (kv_rem =? 0);
      mask_block_sum ← mask_block_sum mask B H Q KV KV_BLOCK_SIZE Q_BLOCK_SIZE;
      let '(full_blocks, partial_blocks) :=
        match mask_fn with
        | Some _ =>
            let full_block_sum := Q_BLOCK_SIZE * KV_BLOCK_SIZE in
            (tensor_test (fun s => s =? full_block_sum) mask_block_sum,
             Some (tensor_and (tensor_test (fun s => 0 <? s) mask_block_sum)
                              (tensor_test (fun s => s <? full_block_sum) mask_block_sum)))
        | None => (tensor_test (fun s => 0 <? s) mask_block_sum, None)
        end in
      Ok (to Int8 full_blocks, to Int8 <$> partial_blocks)
  | _ => Err ValueError
  end.

(** ** From a tile grid back to a dense mask *)

(** [t.expand(a, b, *t.shape)]: two new leading dimensions, over which the
    tensor is repeated.  A negative size is rejected. *)
Definition expand_front (a b : Z) (t : Tensor) : Result Tensor :=
  if (0 <=? a) && (0 <=? b) then
    Ok (mkTensor (tdtype t) (Z.to_nat a :: Z.to_nat b :: tshape t)
          (concat (replicate (Z.to_nat a * Z.to_nat b) (tdata t))))
  else Err RuntimeError.

(** [t.permute(2, 3, 4, 0, 5, 1)] on a 6-D tensor [(Qb, KVb, B, H, Q, KV)]:
    the element at [(b, h, q, i, kv, j)] of the result is the element at
    [(i, j, b, h, q, kv)] of [t]. *)
Definition permute_234051 (t : Tensor) : Result Tensor :=
  match tshape t with
  | [Qb; KVb; B; H; Q; KV] =>
      Ok (mkTensor (tdtype t) [B; H; Q; Qb; KV; KVb]
            (b ← seq 0 B; h ← seq 0 H; q ← seq 0 Q;
             i ← seq 0 Qb; kv ← seq 0 KV; j ← seq 0 KVb;
             [nth (((((i * KVb + j) * B + b) * H + h) * Q + q) * KV + kv)%nat
                  (tdata t) 0]))
  | _ => Err RuntimeError
  end.

(** [t.reshape(sizes)]: the elements in their logical order under a new
    shape. *)
Definition reshape (s : list Z) (t : Tensor) : Result Tensor := view s t.

Definition _convert_block_mask_to_mask (block_mask : Tensor)
    (KV_BLOCK_SIZE Q_BLOCK_SIZE : Z) : Result Tensor :=
  _ ← py_assert (bool_decide (dim block_mask = 4%nat));
  match tshape block_mask with
  | [B; H; Q; KV] =>
      block_mask ← expand_front Q_BLOCK_SIZE KV_BLOCK_SIZE block_mask;
      block_mask ← permute_234051 block_mask;
      reshape [Z.of_nat B; Z.of_nat H; Z.of_nat Q * Q_BLOCK_SIZE;
               Z.of_nat KV * KV_BLOCK_SIZE] block_mask
  | _ => Err ValueError
  end.

(** ** From tile grids to the compressed form *)

Definition create_sparse_block_from_block_mask_inner (block_mask : Tensor)
    : Result (Tensor * Tensor * Tensor * Tensor) :=
  let block_mask := to Int32 block_mask in
  kv_num_blocks ← sum_dim3 block_mask;
  kv_indices ← argsort_dim3 block_mask;
  q_num_blocks ← sum_dim2 block_mask;
  q_sorted ← argsort_dim2 block_mask;
  q_indices ← permute_0132 q_sorted;
  Ok (to Int32 kv_num_blocks, to Int32 kv_indices,
      to Int32 q_num_blocks, to Int32 q_indices).

Definition _create_sparse_block_from_block_mask
    (block_mask : Tensor * option Tensor) (mask_fn : option PyFn)
    (KV_BLOCK_SIZE Q_BLOCK_SIZE : Z) : Result BlockMask.t :=
  let '(full_blocks, partial_blocks) := block_mask in
  full_bm ← create_sparse_block_from_block_mask_inner full_blocks;
  partial_bm ←
    match partial_blocks with
    | Some partial_blocks => create_sparse_block_from_block_mask_inner partial_blocks
    | None =>
        Ok (zeros [1; 1; 1]%nat Int32, zeros [1; 1; 1; 1]%nat Int32,
            zeros [1; 1; 1]%nat Int32, zeros [1; 1; 1; 1]%nat Int32)
    end;
  let '(f0, f1, f2, f3) := full_bm in
  let '(p0, p1, p2, p3) := partial_bm in
  BlockMask.init f0 f1 f2 f3 p0 p1 p2 p3 KV_BLOCK_SIZE Q_BLOCK_SIZE mask_fn.

(** ** Evaluating the user function over the coordinate grid *)

(** The index tuples [(b, h, m, n)] in row-major order. *)
Definition coordinates (B H M N : nat) : list (list Z) :=
  b ← seq 0 B; h ← seq 0 H; m ← seq 0 M; n ← seq 0 N;
  [[Z.of_nat b; Z.of_nat h; Z.of_nat m; Z.of_nat n]].

Definition is_bool (v : Scalar) : bool :=
  match v with SBool _ => true | SFloat _ => false end.

Definition isneginf (v : Scalar) : bool :=
  match v with SBool _ => false | SFloat neginf => neginf end.

Definition scalar_data (v : Scalar) : Z :=
  match v with SBool true => 1 | _ => 0 end.

(** The four nested [torch.vmap]s call [score_mod] once per index tuple,
    on the score [0]; the mask is [False] where the result is [-inf]. *)
Definition _create_mask_from_score_mod (score_mod : PyFn) (B H M N : nat)
    : Result Tensor :=
  out ← vmap_call score_mod 5 (cons 0 <$> coordinates B H M N);
  Ok (mkTensor Bool [B; H; M; N] ((fun v => if isneginf v then 0 else 1) <$> out)).

(** The four nested [torch.vmap]s call [mask_fn] once per index tuple; the
    result is a bool tensor when the function returns booleans. *)
Definition _create_mask_from_mask_fn (mask_fn : PyFn) (B H M N : nat)
    : Result Tensor :=
  out ← vmap_call mask_fn 4 (coordinates B H M N);
  Ok (mkTensor (if forallb is_bool out then Bool else Float32) [B; H; M; N]
        (scalar_data <$> out)).

Definition _create_block_mask_inner (fn : PyFn) (B H M N : nat)
    (KV_BLOCK_SIZE Q_BLOCK_SIZE : Z) (is_score_mod : bool) : Result BlockMask.t :=
  '(mask_fn, mask_tensor) ←
    (if is_score_mod then
       mask_tensor ← _create_mask_from_score_mod fn B H M N;
       Ok (None, mask_tensor)
     else
       mask_tensor ← _create_mask_from_mask_fn fn B H M N;
       Ok (Some fn, mask_tensor));
  block_masks ← _convert_mask_to_block_mask mask_tensor KV_BLOCK_SIZE Q_BLOCK_SIZE mask_fn;
  _create_sparse_block_from_block_mask block_masks mask_fn
    _DEFAULT_SPARSE_BLOCK_SIZE _DEFAULT_SPARSE_BLOCK_SIZE.

Definition create_block_mask (fn : PyFn) (B H M N : nat)
    (KV_BLOCK_SIZE Q_BLOCK_SIZE : Z) : Result BlockMask.t :=
  let is_score_mod := (required_parameters fn =? 5)%nat in
  _create_block_mask_inner fn B H M N KV_BLOCK_SIZE Q_BLOCK_SIZE is_score_mod.

(** [x.size()[-2]] *)
Definition size_m2 (x : Tensor) : Result nat :=
  match reverse (tshape x) with
  | _ :: n :: _ => Ok n
  | _ => Err IndexError
  end.

Definition _create_empty_block_mask (query key value : Tensor) : Result BlockMask.t :=
  kv_len ← size_m2 key;
  q_len ← size_m2 query;
  BlockMask.init
    (ones [1; 1; 1]%nat Int32) (zeros [1; 1; 1; 1]%nat Int32)
    (ones [1; 1; 1]%nat Int32) (zeros [1; 1; 1; 1]%nat Int32)
    (zeros [1; 1; 1]%nat Int32) (zeros [1; 1; 1; 1]%nat Int32)
    (zeros [1; 1; 1]%nat Int32) (zeros [1; 1; 1; 1]%nat Int32)
    (Z.of_nat kv_len) (Z.of_nat q_len) None.

(** ** The results of the compressor and of the classification, in closed form *)

(** The four arrays computed from a grid of shape [(B, H, R, C)] whose data,
    converted to int32, is [d]. *)
Definition kv_num_blocks_of (B H R C : nat) (d : list Z) : Tensor :=
  mkTensor Int32 [B; H; R]
    (cast Int32 <$> ((fun row => cast Int64 (zsum row)) <$> chunks (B * H * R) C d)).

Definition kv_indices_of (B H R C : nat) (d : list Z) : Tensor :=
  mkTensor Int32 [B; H; R; C]
    (cast Int32 <$> concat (argsort_row <$> chunks (B * H * R) C d)).

Definition q_num_blocks_of (B H R C : nat) (d : list Z) : Tensor :=
  mkTensor Int32 [B; H; C]
    (cast Int32 <$>
       concat ((fun m => (fun col => cast Int64 (zsum col)) <$> transpose 0 C m)
                 <$> matrices B H R C d)).

Definition q_indices_of (B H R C : nat) (d : list Z) : Tensor :=
  mkTensor Int32 [B; H; C; R]
    (cast Int32 <$>
       concat ((fun m => flatten2 (transpose 0 C m))
                 <$> matrices B H R C
                       (concat ((fun m => flatten2 (transpose 0 R (argsort_row <$> transpose 0 C m)))
                                  <$> matrices B H R C d)))).

(** The two tile grids computed from the per-tile counts. *)
Definition classify (mask_fn : option PyFn) (KV_BLOCK_SIZE Q_BLOCK_SIZE : Z)
    (sums : Tensor) : Tensor * option Tensor :=
  match mask_fn with
  | Some _ =>
      (to Int8 (tensor_test (fun s => s =? Q_BLOCK_SIZE * KV_BLOCK_SIZE) sums),
       Some (to Int8 (tensor_and (tensor_test (fun s => 0 <? s) sums)
                        (tensor_test (fun s => s <? Q_BLOCK_SIZE * KV_BLOCK_SIZE) sums))))
  | None => (to Int8 (tensor_test (fun s => 0 <? s) sums), None)
  end.

(** ** Rows and columns of a tile grid *)

(** The positions of a row of tiles that are set, and those that are not,
    each in ascending order. *)
Definition set_tiles (row : list Z) : list Z :=
  snd <$> filter (fun p => p.1 = 1) (indexed row).
Definition unset_tiles (row : list Z) : list Z :=
  snd <$> filter (fun p => p.1 ≠ 1) (indexed row).

(** The rows of a grid [(B, H, R, C)], batch entry after batch entry, and its
    columns in the same order. *)
Definition grid_rows (B H R C : nat) (data : list Z) : list (list Z) :=
  chunks (B * H * R) C data.
Definition grid_columns (B H R C : nat) (data : list Z) : list (list Z) :=
  concat (transpose 0 C <$> matrices B H R C data).

Definition is_bit (z : Z) : Prop := z = 0 ∨ z = 1.

(** Rows of [n] bits each. *)
Definition bit_rows (n : nat) (rs : list (list Z)) : Prop :=
  Forall (fun r => length r = n ∧ Forall is_bit r) rs.

(** No tile of the classification is empty: every tile is in the full grid
    or, when there is one, in the partial grid. *)
Definition no_empty_tile (blocks : Tensor * option Tensor) : Prop :=
  match blocks.2 with
  | Some partial_blocks =>
      Forall2 (fun f p => f = 1 ∨ p = 1) (tdata blocks.1) (tdata partial_blocks)
  | None => Forall (fun f => f = 1) (tdata blocks.1)
  end.

(** The tile of column [c] in a band of rows: from every row the [KVb]
    elements that start at position [c * KVb]. *)
Definition tile_of (KVb : nat) (band_rows : list (list Z)) (c : nat) : list (list Z) :=
  (fun row => take KVb (drop (c * KVb) row)) <$> band_rows.

(** The number of [true] elements of every tile of a mask
    [(B, H, R * Qb, C * KVb)], band after band and tile after tile. *)
Definition tile_counts (B H R C Qb KVb : nat) (data : list Z) : list Z :=
  concat ((fun band =>
             (fun c => zsum (concat (tile_of KVb (chunks Qb (C * KVb) band) c)))
               <$> seq 0 C)
            <$> chunks (B * H * R) (Qb * (C * KVb)) data).

(** The tiles of a mask [(B, H, R * Qb, C * KVb)], band after band and tile
    after tile, each as the list of its [Qb * KVb] elements. *)
Definition mask_tiles (B H R C Qb KVb : nat) (data : list Z) : list (list Z) :=
  concat ((fun band =>
             (fun c => concat (tile_of KVb (chunks Qb (C * KVb) band) c)) <$> seq 0 C)
            <$> chunks (B * H * R) (Qb * (C * KVb)) data).

(** A tile all of whose elements are [true], and one with none. *)
Definition all_true (tile : list Z) : Prop := Forall (fun x => x = 1) tile.
Definition all_false (tile : list Z) : Prop := Forall (fun x => x = 0) tile.

(** The dense mask that [create_block_mask] evaluates, and the predicate it
    retains. *)
Definition retained_predicate (fn : PyFn) : option PyFn :=
  if (required_parameters fn =? 5)%nat then None else Some fn.

Definition evaluated_mask (fn : PyFn) (B H M N : nat) : Result Tensor :=
  if (required_parameters fn =? 5)%nat
  then _create_mask_from_score_mod fn B H M N
  else _create_mask_from_mask_fn fn B H M N.

(** ** Concrete inputs used in the examples below *)

Definition positional : Param := mkParam POSITIONAL_OR_KEYWORD false.

(** [def causal(b, h, q_idx, kv_idx): return q_idx >= kv_idx] *)
Definition causal : PyFn :=
  mkPyFn [positional; positional; positional; positional]
    (fun args => match args with
                 | [b; h; q_idx; kv_idx] => SBool (kv_idx <=? q_idx)
                 | _ => SBool false
                 end).

(** A function that takes its four indices as one star parameter:
    [lambda *idx: idx[2] >= idx[3]]. *)
Definition causal_star : PyFn :=
  mkPyFn [mkParam VAR_POSITIONAL false]
    (fun args => match args with
                 | [b; h; q_idx; kv_idx] => SBool (kv_idx <=? q_idx)
                 | _ => SBool false
                 end).

(** [def third_key(b, h, q_idx, kv_idx): return kv_idx == 2] *)
Definition third_key : PyFn :=
  mkPyFn [positional; positional; positional; positional]
    (fun args => match args with
                 | [b; h; q_idx; kv_idx] => SBool (kv_idx =? 2)
                 | _ => SBool false
                 end).

(** The number of tiles set in a tile grid. *)
Definition count_tiles (grid : Tensor) : Z := zsum (tdata grid).

(** A predicate with four parameters and a keyword catch-all:
    [lambda b, h, q_idx, kv_idx, **kwargs: q_idx >= kv_idx]. *)
Definition causal_kwargs : PyFn :=
  mkPyFn [positional; positional; positional; positional; mkParam VAR_KEYWORD false]
    (fun args => match args with
                 | [b; h; q_idx; kv_idx] => SBool (kv_idx <=? q_idx)
                 | _ => SBool false
                 end).

(** A four-parameter function that returns a float:
    [lambda b, h, q_idx, kv_idx: (q_idx - kv_idx).float()]. *)
Definition distance : PyFn :=
  mkPyFn [positional; positional; positional; positional]
    (fun _ => SFloat false).

(** The elements of a grid [(B, H, R, C)] repeated over tiles of
    [Qb x KVb]: every row of the grid gives [Qb] equal rows of the mask, in
    which every element of the grid row stands [KVb] times. *)
Definition expanded (B H R C Qb KVb : nat) (data : list Z) : list Z :=
  concat ((fun row => concat (replicate Qb (concat (replicate KVb <$> row))))
            <$> chunks (B * H * R) C data).

(** The index tuples [(b, h, q, kv)] of the elements of the tile at
    position [(b, h, r, c)] of a grid of tiles of [Qb x KVb], in row-major
    order. *)
Definition tile_elements (Qb KVb : nat) (idx : list Z) : list (list Z) :=
  match idx with
  | [b; h; r; c] =>
      i ← seq 0 Qb; j ← seq 0 KVb;
      [[b; h; r * Z.of_nat Qb + Z.of_nat i; c * Z.of_nat KVb + Z.of_nat j]]
  | _ => []
  end.

(** The index triples [(b, h, r)] of the bands of a mask, in row-major
    order. *)
Definition bands (B H R : nat) : list (nat * nat * nat) :=
  b ← seq 0 B; h ← seq 0 H; r ← seq 0 R; [(b, h, r)].

(** ** Functions of the module *)

Definition score_mod_parameters : list Param :=
  [positional; positional; positional; positional; positional].

(** [_identity(score, batch, head, token_q, token_kv)] returns [score], which
    is finite where the module calls it. *)
Definition _identity : PyFn :=
  mkPyFn score_mod_parameters (fun _ => SFloat false).

(** [_no_mask(batch, head, token_q, token_kv)] returns [True]. *)
Definition _no_mask : PyFn :=
  mkPyFn [positional; positional; positional; positional] (fun _ => SBool true).

(** [_causal(score, batch, head, token_q, token_kv)] returns
    [torch.where(token_q >= token_kv, score, float("-inf"))]. *)
Definition _causal : PyFn :=
  mkPyFn score_mod_parameters
    (fun args => match args with
                 | [score; batch; head; token_q; token_kv] =>
                     SFloat (negb (token_kv <=? token_q))
                 | _ => SFloat false
                 end).

(** The layout of the arrays of a BlockMask with batch dimensions [batch],
    [R] rows and [C] columns of tiles; the partial arrays follow it when
    there is a predicate, and have at least the two dimensions that the
    constructor asks for. *)
Definition layout (bm : BlockMask.t) (batch : list nat) (R C : nat) : Prop :=
  tshape (BlockMask.full_kv_num_blocks bm) = batch ++ [R]
  ∧ tshape (BlockMask.full_kv_indices bm) = batch ++ [R; C]
  ∧ tshape (BlockMask.full_q_num_blocks bm) = batch ++ [C]
  ∧ tshape (BlockMask.full_q_indices bm) = batch ++ [C; R]
  ∧ (2 ≤ dim (BlockMask.partial_kv_indices bm))%nat
  ∧ (is_Some (BlockMask.mask_fn bm) →
     tshape (BlockMask.partial_kv_num_blocks bm) = batch ++ [R]
     ∧ tshape (BlockMask.partial_kv_indices bm) = batch ++ [R; C]
     ∧ tshape (BlockMask.partial_q_num_blocks bm) = batch ++ [C]
     ∧ tshape (BlockMask.partial_q_indices bm) = batch ++ [C; R]).

(** The grid of [_causal] for tiles of [Qb x KVb]: the tile at [(r, c)] is
    set when its first key position is not beyond its last query position. *)
Definition causal_tile (Qb KVb : nat) (idx : list Z) : Z :=
  match idx with
  | [b; h; r; c] => if c * Z.of_nat KVb <? (r + 1) * Z.of_nat Qb then 1 else 0
  | _ => 0
  end.
(** * Properties *)

(** ** Reasoning about the result monad *)

Lemma bind_Ok {A B} (m : Result A) (f : A → Result B) (b : B) :
  m ≫= f = Ok b → ∃ a, m = Ok a ∧ f a = Ok b.
Proof. destruct m as [a|e]; [eauto | discriminate]. Qed.

Lemma py_assert_Ok (b : bool) (u : unit) : py_assert b = Ok u → b = true.
Proof. by destruct b. Qed.

(** Decomposes a hypothesis [H : (x ← m; k) = Ok b] into its steps. *)
Tactic Notation "inv_bind" hyp(H) "as" ident(a) ident(Ha) :=
  apply bind_Ok in H as (a & Ha & H).

Lemma rank4_Ok {A} (t : Tensor) (k : nat → nat → nat → nat → A) (a : A) :
  rank4 t k = Ok a → ∃ B H R C, tshape t = [B; H; R; C] ∧ a = k B H R C.
Proof.
  unfold rank4. intros Hk.
  destruct (tshape t) as [|B [|H [|R [|C [|]]]]]; try discriminate.
  injection Hk as <-. by exists B, H, R, C.
Qed.

Lemma rank4_shape {A} (t : Tensor) (k : nat → nat → nat → nat → A) B H R C :
  tshape t = [B; H; R; C] → rank4 t k = Ok (k B H R C).
Proof. unfold rank4. by intros ->. Qed.


(** ** The compressor on a 4-D grid *)

Lemma inner_eq (g : Tensor) (B H R C : nat) :
  tshape g = [B; H; R; C] →
  create_sparse_block_from_block_mask_inner g =
    let d := cast Int32 <$> tdata g in
    Ok (kv_num_blocks_of B H R C d, kv_indices_of B H R C d,
        q_num_blocks_of B H R C d, q_indices_of B H R C d).
Proof.
  intros Hs. unfold create_sparse_block_from_block_mask_inner,
    sum_dim3, argsort_dim3, sum_dim2, argsort_dim2, permute_0132.
  rewrite !(rank4_shape (to Int32 g) _ B H R C) by done.
  reflexivity.
Qed.

Lemma inner_Ok (g : Tensor) r :
  create_sparse_block_from_block_mask_inner g = Ok r →
  ∃ B H R C, tshape g = [B; H; R; C]
    ∧ r = (kv_num_blocks_of B H R C (cast Int32 <$> tdata g),
           kv_indices_of B H R C (cast Int32 <$> tdata g),
           q_num_blocks_of B H R C (cast Int32 <$> tdata g),
           q_indices_of B H R C (cast Int32 <$> tdata g)).
Proof.
  intros Hr. pose proof Hr as Hr'.
  unfold create_sparse_block_from_block_mask_inner in Hr'.
  inv_bind Hr' as kvn Ha. unfold sum_dim3 in Ha.
  apply rank4_Ok in Ha as (B & H & R & C & Hs & _).
  exists B, H, R, C. split; [done|].
  rewrite (inner_eq g B H R C Hs) in Hr. by injection Hr.
Qed.

(** ** The conversion of a dense mask *)

Lemma py_mod_Ok a b r : py_mod a b = Ok r → b ≠ 0 ∧ r = a mod b.
Proof.
  unfold py_mod. destruct (Z.eqb_spec b 0); [discriminate|].
  intros [= <-]. done.
Qed.

Lemma convert_Ok (mask : Tensor) (KVB QB : Z) (fn : option PyFn) blocks :
  _convert_mask_to_block_mask mask KVB QB fn = Ok blocks →
  ∃ B H Q KV sums,
    tdtype mask = Bool
    ∧ pad_shape 4 (tshape mask) = [B; H; Q; KV]
    ∧ QB ≠ 0 ∧ KVB ≠ 0
    ∧ Z.of_nat Q mod QB = 0 ∧ Z.of_nat KV mod KVB = 0
    ∧ mask_block_sum (_broadcast_to_dim mask 4) B H Q KV KVB QB = Ok sums
    ∧ blocks = classify fn KVB QB sums.
Proof.
  unfold _convert_mask_to_block_mask. intros Hc.
  inv_bind Hc as u Ha. apply py_assert_Ok, bool_decide_eq_true in Ha.
  cbn [tshape _broadcast_to_dim] in Hc.
  destruct (pad_shape 4 (tshape mask)) as [|B [|H [|Q [|KV [|]]]]] eqn:Hs;
    try discriminate.
  inv_bind Hc as qr Hqr. apply py_mod_Ok in Hqr as [HQB ->].
  inv_bind Hc as u1 Hq0. apply py_assert_Ok, Z.eqb_eq in Hq0.
  inv_bind Hc as kr Hkr. apply py_mod_Ok in Hkr as [HKVB ->].
  inv_bind Hc as u2 Hk0. apply py_assert_Ok, Z.eqb_eq in Hk0.
  inv_bind Hc as sums Hsums.
  exists B, H, Q, KV, sums. repeat split; try done.
  unfold classify. destruct fn; by injection Hc.
Qed.

Lemma py_floordiv_ne a b : b ≠ 0 → py_floordiv a b = Ok (a / b).
Proof. unfold py_floordiv. by destruct (Z.eqb_spec b 0). Qed.

Lemma view_Ok s t t' :
  view s t = Ok t' →
  Forall (fun n => 0 ≤ n) s
  ∧ prod_list (Z.to_nat <$> s) = prod_list (tshape t)
  ∧ t' = mkTensor (tdtype t) (Z.to_nat <$> s) (tdata t).
Proof.
  unfold view. destruct (forallb _ s) eqn:Hf; [|discriminate].
  case_decide; [|discriminate]. intros [= <-].
  split; [|done].
  apply Is_true_eq_left, forallb_True in Hf. eapply Forall_impl; [exact Hf|].
  intros n Hn. apply Is_true_eq_true in Hn. lia.
Qed.

Lemma length_chunks {A} (k n : nat) (l : list A) : length (chunks k n l) = k.
Proof. revert l. induction k; intros; simpl; [done|]. by rewrite IHk. Qed.

Lemma mask_block_sum_Ok (m : Tensor) (B H Q KV : nat) (KVB QB : Z) sums :
  QB ≠ 0 → KVB ≠ 0 →
  mask_block_sum m B H Q KV KVB QB = Ok sums →
  let R := Z.to_nat (Z.of_nat Q / QB) in
  let C := Z.to_nat (Z.of_nat KV / KVB) in
  0 < QB ∧ 0 < KVB
  ∧ (B * H * (R * Z.to_nat QB * (C * Z.to_nat KVB)))%nat = prod_list (tshape m)
  ∧ tshape sums = [B; H; R; C]
  ∧ length (tdata sums) = (B * H * R * C)%nat.
Proof.
  intros HQB HKVB. unfold mask_block_sum.
  rewrite (py_floordiv_ne _ _ HQB), (py_floordiv_ne _ _ HKVB). cbn [mbind Result_bind].
  intros Hm. inv_bind Hm as v Ha. apply view_Ok in Ha as (Hnn & Hprod & ->).
  inv_bind Hm as pm Ha. cbn in Ha. injection Ha as <-.
  cbn in Hm. injection Hm as <-. cbn.
  rewrite !Nat2Z.id in *.
  repeat (apply Forall_cons_1 in Hnn as [? Hnn]).
  split; [lia|]. split; [lia|].
  split.
  { rewrite <- Hprod. cbn. rewrite !Nat2Z.id. lia. }
  split; [done|].
  rewrite length_fmap, length_chunks. lia.
Qed.

(** ** Lists cut into pieces *)

Section chunks.
Context {A : Type}.
Implicit Types (l : list A) (rs : list (list A)).

Lemma chunks_concat (n : nat) rs :
  Forall (fun r => length r = n) rs → chunks (length rs) n (concat rs) = rs.
Proof.
  induction 1 as [|r rs Hr _ IH]; [done|]. cbn.
  rewrite take_app_length', drop_app_length' by done. by rewrite IH.
Qed.

Lemma chunks_concat' (k n : nat) rs :
  k = length rs → Forall (fun r => length r = n) rs → chunks k n (concat rs) = rs.
Proof. intros ->. apply chunks_concat. Qed.

Lemma concat_chunks (k n : nat) l :
  length l = (k * n)%nat → concat (chunks k n l) = l.
Proof.
  revert l. induction k as [|k IH]; intros l Hl; cbn.
  - by destruct l.
  - rewrite IH; [apply take_drop|]. rewrite length_drop. lia.
Qed.

Lemma chunks_lengths (k n : nat) l :
  (k * n ≤ length l)%nat → Forall (fun r => length r = n) (chunks k n l).
Proof.
  revert l. induction k as [|k IH]; intros l Hl; cbn; constructor.
  - rewrite length_take. lia.
  - apply IH. rewrite length_drop. lia.
Qed.

Lemma chunks_Forall (P : A → Prop) (k n : nat) l :
  Forall P l → Forall (Forall P) (chunks k n l).
Proof.
  revert l. induction k as [|k IH]; intros l Hl; cbn; constructor.
  - by apply Forall_take.
  - by apply IH, Forall_drop.
Qed.

Lemma length_concat_uniform (n : nat) rs :
  Forall (fun r => length r = n) rs → length (concat rs) = (length rs * n)%nat.
Proof.
  induction 1 as [|r rs Hr _ IH]; [done|]. cbn. rewrite length_app. lia.
Qed.
End chunks.

Lemma fmap_concat {A B} (f : A → B) (ls : list (list A)) :
  f <$> concat ls = concat ((fun l : list A => f <$> l) <$> ls).
Proof. induction ls as [|l ls IH]; [done|]. cbn. by rewrite fmap_app, IH. Qed.

Lemma concat_fmap_concat {A B} (f : A → list B) (ls : list (list A)) :
  concat (f <$> concat ls) = concat ((fun l : list A => concat (f <$> l)) <$> ls).
Proof.
  induction ls as [|l ls IH]; [done|]. cbn. by rewrite fmap_app, concat_app, IH.
Qed.

Lemma prod_list_cons (n : nat) (s : list nat) :
  prod_list (n :: s) = (n * prod_list s)%nat.
Proof. reflexivity. Qed.

Lemma prod_list_ones (k : nat) : prod_list (replicate k 1%nat) = 1%nat.
Proof.
  induction k as [|k IH]; [done|]. cbn [replicate]. rewrite prod_list_cons, IH. lia.
Qed.

Lemma concat_replicate {A} (m k : nat) (x : A) :
  concat (replicate m (replicate k x)) = replicate (m * k) x.
Proof.
  induction m as [|m IH]; [done|]. cbn. by rewrite IH, replicate_add.
Qed.

Lemma chunks_fmap {A B} (f : A → B) (k n : nat) (l : list A) :
  chunks k n (f <$> l) = (fun c : list A => f <$> c) <$> chunks k n l.
Proof.
  revert l. induction k as [|k IH]; intros l; [done|].
  cbn. by rewrite <- fmap_take, <- fmap_drop, IH.
Qed.

Lemma zip_fmap_same {A B C} (f : A → B) (g : A → C) (l : list A) :
  zip (f <$> l) (g <$> l) = (fun x => (f x, g x)) <$> l.
Proof. induction l as [|x l IH]; [done|]. cbn. by rewrite IH. Qed.

Lemma mapR_fmap_Ok {A B C} (f : B → Result C) (h : A → B) (g : A → C) (l : list A) :
  Forall (fun x => f (h x) = Ok (g x)) l → mapR f (h <$> l) = Ok (g <$> l).
Proof.
  induction 1 as [|x l Hx _ IH]; [done|]. cbn. by rewrite Hx, IH.
Qed.

Lemma concat_concat_fmap {A} (ls : list (list (list A))) :
  concat ((fun l : list (list A) => concat l) <$> ls) = concat (concat ls).
Proof.
  induction ls as [|l ls IH]; [done|]. cbn. by rewrite concat_app, IH.
Qed.

Lemma zsum_cons (x : Z) (l : list Z) : zsum (x :: l) = x + zsum l.
Proof. reflexivity. Qed.

Lemma zsum_app (l k : list Z) : zsum (l ++ k) = zsum l + zsum k.
Proof.
  induction l as [|x l IH]; [done|].
  rewrite <- app_comm_cons, !zsum_cons, IH. lia.
Qed.

Lemma zsum_concat (ls : list (list Z)) : zsum (concat ls) = zsum (zsum <$> ls).
Proof.
  induction ls as [|l ls IH]; [done|].
  cbn [concat fmap list_fmap]. by rewrite zsum_app, zsum_cons, IH.
Qed.

(** ** Transposition *)

Section transpose.
Context {A : Type} (d : A).
Implicit Types (rows : list (list A)).

Lemma length_transpose (nc : nat) rows : length (transpose d nc rows) = nc.
Proof. unfold transpose. by rewrite length_fmap, length_seq. Qed.

Lemma transpose_lengths (nc : nat) rows :
  Forall (fun col => length col = length rows) (transpose d nc rows).
Proof.
  unfold transpose. apply Forall_fmap, Forall_forall. intros c _. cbn.
  by rewrite length_fmap.
Qed.

Lemma tabulate_nth (l : list A) : (fun i => nth i l d) <$> seq 0 (length l) = l.
Proof.
  apply list_eq. intros i. rewrite list_lookup_fmap.
  destruct (decide (i < length l)%nat) as [Hi|Hi].
  - rewrite lookup_seq_lt by done. cbn.
    destruct (nth_lookup_or_length l i d) as [->|]; [done|lia].
  - rewrite lookup_seq_ge, lookup_ge_None_2 by lia. done.
Qed.

Lemma nth_transpose (nc : nat) rows (c : nat) :
  (c < nc)%nat → nth c (transpose d nc rows) [] = (fun row => nth c row d) <$> rows.
Proof.
  intros Hc. unfold transpose. apply nth_lookup_Some.
  rewrite list_lookup_fmap, lookup_seq_lt by done. done.
Qed.

Lemma transpose_involutive (nr nc : nat) rows :
  length rows = nr → Forall (fun r => length r = nc) rows →
  transpose d nr (transpose d nc rows) = rows.
Proof.
  intros Hnr Hnc. apply list_eq. intros i. unfold transpose at 1.
  rewrite list_lookup_fmap.
  destruct (decide (i < nr)%nat) as [Hi|Hi].
  2:{ rewrite lookup_seq_ge, lookup_ge_None_2 by lia. done. }
  rewrite lookup_seq_lt by done. cbn.
  destruct (lookup_lt_is_Some_2 rows i) as [r Hr]; [lia|]. rewrite Hr. f_equal.
  assert (length r = nc) as Hlen.
  { eapply Forall_lookup_1 in Hnc; [|exact Hr]. done. }
  rewrite <- (tabulate_nth r) at 1. rewrite Hlen. unfold transpose.
  rewrite <- list_fmap_compose. apply list_fmap_ext. intros j c Hc. cbn.
  apply lookup_seq in Hc as [-> Hc]. cbn.
  apply nth_lookup_Some. rewrite list_lookup_fmap, Hr. done.
Qed.
End transpose.

(** ** The stable descending sort of a row of bits *)

Lemma insert_desc_head (x : Z * Z) (l : list (Z * Z)) :
  Forall (fun y => y.1 ≤ x.1) l → insert_desc x l = x :: l.
Proof.
  destruct 1 as [|y l Hy _]; [done|]. cbn.
  destruct (Z.ltb_spec x.1 y.1); [lia | done].
Qed.

Lemma insert_desc_skip (x : Z * Z) (l1 l2 : list (Z * Z)) :
  Forall (fun y => x.1 < y.1) l1 →
  insert_desc x (l1 ++ l2) = l1 ++ insert_desc x l2.
Proof.
  induction 1 as [|y l1 Hy _ IH]; [done|]. cbn.
  destruct (Z.ltb_spec x.1 y.1); [by rewrite IH | lia].
Qed.

(** Sorting pairs whose keys are bits puts the pairs of key 1 first, then
    the others, each group in its original order. *)
Lemma sort_bits (ps : list (Z * Z)) :
  Forall (fun p => is_bit p.1) ps →
  foldr insert_desc [] ps
  = filter (fun p => p.1 = 1) ps ++ filter (fun p => p.1 ≠ 1) ps.
Proof.
  induction 1 as [|p ps Hp Hps IH]; [done|]. cbn [foldr]. rewrite IH.
  destruct Hp as [Hp|Hp].
  - rewrite (filter_cons_False (fun p => p.1 = 1)) by lia.
    rewrite (filter_cons_True (fun p => p.1 ≠ 1)) by lia.
    rewrite insert_desc_skip.
    + f_equal. apply insert_desc_head.
      apply Forall_forall. intros y [Hne Hy]%list_elem_of_filter.
      eapply Forall_forall in Hps; [|exact Hy]. destruct Hps; lia.
    + apply Forall_forall. intros y [Hy _]%list_elem_of_filter. lia.
  - rewrite (filter_cons_True (fun p => p.1 = 1)) by lia.
    rewrite (filter_cons_False (fun p => p.1 ≠ 1)) by lia.
    apply insert_desc_head.
    apply Forall_app. split; apply Forall_forall;
      intros y [_ Hy]%list_elem_of_filter;
      (eapply Forall_forall in Hps; [|exact Hy]); destruct Hps; lia.
Qed.

Lemma length_indexed (row : list Z) : length (indexed row) = length row.
Proof.
  unfold indexed. rewrite length_zip, length_fmap, length_seq. lia.
Qed.

Lemma indexed_fst (row : list Z) : (indexed row).*1 = row.
Proof. unfold indexed. apply fst_zip. rewrite length_fmap, length_seq. lia. Qed.

Lemma indexed_snd (row : list Z) : (indexed row).*2 = Z.of_nat <$> seq 0 (length row).
Proof. unfold indexed. apply snd_zip. rewrite length_fmap, length_seq. lia. Qed.

Lemma indexed_bits (row : list Z) :
  Forall is_bit row → Forall (fun p => is_bit p.1) (indexed row).
Proof.
  intros Hrow. rewrite <- (indexed_fst row) in Hrow.
  rewrite Forall_fmap in Hrow. exact Hrow.
Qed.

(** On a row of bits [argsort] lists the set positions in ascending order,
    then the others in ascending order. *)
Lemma argsort_row_bits (row : list Z) :
  Forall is_bit row → argsort_row row = set_tiles row ++ unset_tiles row.
Proof.
  intros Hrow. unfold argsort_row, set_tiles, unset_tiles.
  rewrite sort_bits by by apply indexed_bits. apply fmap_app.
Qed.

Lemma length_tiles (row : list Z) :
  length (set_tiles row ++ unset_tiles row) = length row.
Proof.
  unfold set_tiles, unset_tiles. rewrite <- fmap_app, length_fmap.
  rewrite (Permutation_length (filter_app_complement _ (indexed row))).
  apply length_indexed.
Qed.

Lemma tiles_range (row : list Z) :
  Forall (fun z => 0 ≤ z < Z.of_nat (length row)) (set_tiles row ++ unset_tiles row).
Proof.
  unfold set_tiles, unset_tiles. rewrite <- fmap_app.
  apply Forall_forall. intros z (p & -> & Hp)%list_elem_of_fmap.
  assert (p ∈ indexed row) as Hin.
  { rewrite <- (filter_app_complement (fun p => p.1 = 1) (indexed row)). done. }
  apply (list_elem_of_fmap_2 snd) in Hin. rewrite indexed_snd in Hin.
  apply list_elem_of_fmap in Hin as (c & -> & Hc). apply elem_of_seq in Hc. lia.
Qed.

Lemma zsum_bit_keys (ps : list (Z * Z)) :
  Forall (fun p => is_bit p.1) ps →
  zsum ps.*1 = Z.of_nat (length (filter (fun p => p.1 = 1) ps)).
Proof.
  induction 1 as [|p ps Hp _ IH]; [done|].
  cbn [fmap list_fmap]. rewrite zsum_cons, IH. destruct Hp as [Hp|Hp].
  - rewrite filter_cons_False by lia. lia.
  - rewrite filter_cons_True by lia. cbn [length]. lia.
Qed.

(** The sum of a row of bits is the number of its set positions. *)
Lemma zsum_bits (row : list Z) :
  Forall is_bit row → zsum row = Z.of_nat (length (set_tiles row)).
Proof.
  intros Hrow. unfold set_tiles. rewrite length_fmap.
  rewrite <- zsum_bit_keys by by apply indexed_bits. by rewrite indexed_fst.
Qed.

(** ** Conversions that change nothing *)

Lemma cast_Int32_small (z : Z) : - 2 ^ 31 ≤ z < 2 ^ 31 → cast Int32 z = z.
Proof.
  intros Hz. unfold cast, wrap.
  rewrite Z.mod_small; [lia|]. change (2 ^ (32 - 1)) with (2 ^ 31).
  change (2 ^ 32) with (2 * 2 ^ 31). lia.
Qed.

Lemma cast_Int64_small (z : Z) : - 2 ^ 63 ≤ z < 2 ^ 63 → cast Int64 z = z.
Proof.
  intros Hz. unfold cast, wrap.
  rewrite Z.mod_small; [lia|]. change (2 ^ (64 - 1)) with (2 ^ 63).
  change (2 ^ 64) with (2 * 2 ^ 63). lia.
Qed.

Lemma cast_bit (d : dtype) (z : Z) : is_bit z → cast d z = z.
Proof. by intros [-> | ->]; destruct d. Qed.

Lemma fmap_id_on {A} (f : A → A) (P : A → Prop) (l : list A) :
  (∀ x, P x → f x = x) → Forall P l → f <$> l = l.
Proof.
  intros Hf. induction 1 as [|x l Hx _ IH]; [done|].
  cbn. by rewrite Hf, IH.
Qed.

(** ** Well-formed grids *)

Lemma chunks_bit_rows (k n : nat) (l : list Z) :
  length l = (k * n)%nat → Forall is_bit l → bit_rows n (chunks k n l).
Proof.
  intros Hl Hb. apply Forall_and. split.
  - apply chunks_lengths. lia.
  - by apply chunks_Forall.
Qed.

Lemma transpose_bit_rows (nr nc : nat) (m : list (list Z)) :
  length m = nr → bit_rows nc m → bit_rows nr (transpose 0 nc m).
Proof.
  intros Hm Hrows. unfold transpose. apply Forall_fmap, Forall_forall.
  intros c _. cbn. split; [by rewrite length_fmap|].
  apply Forall_fmap. eapply Forall_impl; [exact Hrows|].
  intros row [_ Hrow]. cbn.
  destruct (nth_lookup_or_length row c 0) as [Hc|Hc].
  - eapply Forall_lookup_1; [exact Hrow | exact Hc].
  - rewrite nth_overflow by lia. by left.
Qed.

Lemma matrices_wf (B H R C : nat) (d : list Z) :
  length d = (B * H * R * C)%nat → Forall is_bit d →
  length (matrices B H R C d) = (B * H)%nat
  ∧ Forall (fun m => length m = R ∧ bit_rows C m) (matrices B H R C d).
Proof.
  intros Hd Hb. unfold matrices. rewrite length_fmap, length_chunks.
  split; [done|]. apply Forall_fmap.
  pose proof (chunks_bit_rows (B * H) (R * C) d ltac:(lia) Hb) as Hblocks.
  eapply Forall_impl; [exact Hblocks|]. intros block [Hlen Hbits]. cbn.
  split; [apply length_chunks|]. by apply chunks_bit_rows.
Qed.

Lemma grid_columns_wf (B H R C : nat) (d : list Z) :
  length d = (B * H * R * C)%nat → Forall is_bit d →
  length (grid_columns B H R C d) = (B * H * C)%nat
  ∧ bit_rows R (grid_columns B H R C d).
Proof.
  intros Hd Hb. destruct (matrices_wf B H R C d Hd Hb) as [Hlen Hms].
  unfold grid_columns. split.
  - rewrite (length_concat_uniform C).
    + by rewrite length_fmap, Hlen.
    + apply Forall_fmap, Forall_forall. intros m _. cbn. apply length_transpose.
  - apply Forall_concat, Forall_fmap. eapply Forall_impl; [exact Hms|].
    intros m [Hm Hrows]. cbn. by apply transpose_bit_rows.
Qed.

Lemma length_insert_desc (x : Z * Z) (l : list (Z * Z)) :
  length (insert_desc x l) = S (length l).
Proof.
  induction l as [|y l IH]; [done|]. cbn.
  destruct (x.1 <? y.1); cbn; by rewrite ?IH.
Qed.

Lemma length_argsort_row (row : list Z) : length (argsort_row row) = length row.
Proof.
  unfold argsort_row. rewrite length_fmap, <- length_indexed.
  induction (indexed row) as [|p ps IH]; [done|].
  cbn [foldr]. by rewrite length_insert_desc, IH.
Qed.

(** The count of a row of fewer than [2^31] bits, through the int64 sum and
    the conversion to int32. *)
Lemma count_of_bits (n : nat) (row : list Z) :
  Z.of_nat n < 2 ^ 31 → length row = n → Forall is_bit row →
  cast Int32 (cast Int64 (zsum row)) = Z.of_nat (length (set_tiles row)).
Proof.
  intros Hn Hlen Hb. rewrite (zsum_bits row Hb).
  pose proof (length_tiles row) as Ht. rewrite length_app in Ht.
  rewrite cast_Int64_small, cast_Int32_small; lia.
Qed.

(** The index row of a row of fewer than [2^31] bits. *)
Lemma indices_of_bits (n : nat) (row : list Z) :
  Z.of_nat n < 2 ^ 31 → length row = n → Forall is_bit row →
  cast Int32 <$> argsort_row row = set_tiles row ++ unset_tiles row.
Proof.
  intros Hn Hlen Hb. rewrite (argsort_row_bits row Hb).
  apply (fmap_id_on _ (fun z => 0 ≤ z < Z.of_nat (length row))); [|apply tiles_range].
  intros z Hz. apply cast_Int32_small. lia.
Qed.

(** ** The compressor on a grid of bits *)

Lemma fmap_bit_rows {A} (f g : list Z → A) (n : nat) (rs : list (list Z)) :
  (∀ r, length r = n → Forall is_bit r → f r = g r) →
  bit_rows n rs → f <$> rs = g <$> rs.
Proof.
  intros Hfg Hrs. apply Forall_fmap_ext_1. eapply Forall_impl; [exact Hrs|].
  intros r [Hlen Hb]. by apply Hfg.
Qed.

Lemma kv_num_blocks_bits (B H R C : nat) (d : list Z) :
  length d = (B * H * R * C)%nat → Forall is_bit d → Z.of_nat C < 2 ^ 31 →
  tdata (kv_num_blocks_of B H R C d)
  = (fun row => Z.of_nat (length (set_tiles row))) <$> grid_rows B H R C d.
Proof.
  intros Hd Hb HC. unfold kv_num_blocks_of, grid_rows. cbn [tdata].
  rewrite <- list_fmap_compose.
  apply (fmap_bit_rows _ _ C); [|by apply chunks_bit_rows].
  intros r Hlen Hr. cbn. by apply (count_of_bits C).
Qed.

Lemma kv_indices_bits (B H R C : nat) (d : list Z) :
  length d = (B * H * R * C)%nat → Forall is_bit d → Z.of_nat C < 2 ^ 31 →
  chunks (B * H * R) C (tdata (kv_indices_of B H R C d))
  = (fun row => set_tiles row ++ unset_tiles row) <$> grid_rows B H R C d.
Proof.
  intros Hd Hb HC. unfold kv_indices_of, grid_rows. cbn [tdata].
  pose proof (chunks_bit_rows (B * H * R) C d Hd Hb) as Hrows.
  rewrite fmap_concat, <- list_fmap_compose.
  rewrite (fmap_bit_rows _ (fun row => set_tiles row ++ unset_tiles row) C _); [|
    intros r Hlen Hr; cbn; by apply (indices_of_bits C) | done].
  apply chunks_concat'; [by rewrite length_fmap, length_chunks|].
  apply Forall_fmap. eapply Forall_impl; [exact Hrows|].
  intros r [Hlen _]. cbn. by rewrite length_tiles.
Qed.

Lemma q_num_blocks_bits (B H R C : nat) (d : list Z) :
  length d = (B * H * R * C)%nat → Forall is_bit d → Z.of_nat R < 2 ^ 31 →
  tdata (q_num_blocks_of B H R C d)
  = (fun col => Z.of_nat (length (set_tiles col))) <$> grid_columns B H R C d.
Proof.
  intros Hd Hb HR. unfold q_num_blocks_of, grid_columns. cbn [tdata].
  destruct (matrices_wf B H R C d Hd Hb) as [_ Hms].
  rewrite !fmap_concat, <- !list_fmap_compose. f_equal.
  apply Forall_fmap_ext_1. eapply Forall_impl; [exact Hms|].
  intros m [Hm Hrows]. cbn. rewrite <- list_fmap_compose.
  apply (fmap_bit_rows _ _ R); [|by apply transpose_bit_rows].
  intros col Hlen Hcol. cbn. by apply (count_of_bits R).
Qed.

(** The data of [argsort(dim=2)], cut into matrices again by
    [permute(0, 1, 3, 2)], is the transposed column-wise sort. *)
Lemma matrices_argsort_dim2 (B H R C : nat) (d : list Z) :
  matrices B H R C
    (concat ((fun m => flatten2 (transpose 0 R (argsort_row <$> transpose 0 C m)))
               <$> matrices B H R C d))
  = (fun m => transpose 0 R (argsort_row <$> transpose 0 C m)) <$> matrices B H R C d.
Proof.
  set (Ms := matrices B H R C d).
  assert (Hlen : length Ms = (B * H)%nat).
  { unfold Ms, matrices. by rewrite length_fmap, length_chunks. }
  assert (Hrows : ∀ m : list (list Z),
    Forall (fun r => length r = C)
      (transpose 0 R (argsort_row <$> transpose 0 C m))).
  { intros m. eapply Forall_impl; [apply transpose_lengths|].
    intros r Hr. cbn in Hr. by rewrite Hr, length_fmap, length_transpose. }
  unfold matrices at 1. rewrite chunks_concat'.
  - rewrite <- list_fmap_compose. apply list_fmap_ext. intros i m _. cbn.
    unfold flatten2. apply chunks_concat'; [by rewrite length_transpose | apply Hrows].
  - by rewrite length_fmap.
  - apply Forall_fmap, Forall_forall. intros m _. cbn. unfold flatten2.
    rewrite (length_concat_uniform C) by apply Hrows.
    by rewrite length_transpose.
Qed.

Lemma q_indices_bits (B H R C : nat) (d : list Z) :
  length d = (B * H * R * C)%nat → Forall is_bit d → Z.of_nat R < 2 ^ 31 →
  chunks (B * H * C) R (tdata (q_indices_of B H R C d))
  = (fun col => set_tiles col ++ unset_tiles col) <$> grid_columns B H R C d.
Proof.
  intros Hd Hb HR. unfold q_indices_of. cbn [tdata].
  rewrite matrices_argsort_dim2.
  destruct (matrices_wf B H R C d Hd Hb) as [_ Hms].
  destruct (grid_columns_wf B H R C d Hd Hb) as [Hlen Hcols].
  assert (Hdata :
    cast Int32 <$>
      concat ((fun m => flatten2 (transpose 0 C m)) <$>
                ((fun m => transpose 0 R (argsort_row <$> transpose 0 C m))
                   <$> matrices B H R C d))
    = concat ((fun col => set_tiles col ++ unset_tiles col) <$> grid_columns B H R C d)).
  { unfold grid_columns.
    rewrite concat_fmap_concat, fmap_concat, <- !list_fmap_compose. f_equal.
    apply Forall_fmap_ext_1. eapply Forall_impl; [exact Hms|].
    intros m [Hm Hrows]. cbn. unfold flatten2.
    pose proof (transpose_bit_rows R C m Hm Hrows) as Hcolumns.
    rewrite transpose_involutive.
    - rewrite fmap_concat, <- list_fmap_compose. f_equal.
      apply (fmap_bit_rows _ _ R); [|done].
      intros col Hlen' Hcol. cbn. by apply (indices_of_bits R).
    - by rewrite length_fmap, length_transpose.
    - apply Forall_fmap. eapply Forall_impl; [exact Hcolumns|].
      intros col [Hlen' _]. cbn. by rewrite length_argsort_row. }
  rewrite Hdata. apply chunks_concat'; [by rewrite length_fmap|].
  apply Forall_fmap. eapply Forall_impl; [exact Hcols|].
  intros col [Hlen' _]. cbn. by rewrite length_tiles.
Qed.

(** The compressor on a grid of bits, array by array. *)
Lemma inner_bits (g : Tensor) (B H R C : nat) :
  tshape g = [B; H; R; C] →
  length (tdata g) = (B * H * R * C)%nat →
  Forall is_bit (tdata g) →
  Z.of_nat R < 2 ^ 31 → Z.of_nat C < 2 ^ 31 →
  ∃ kvn kvi qn qi,
    create_sparse_block_from_block_mask_inner g = Ok (kvn, kvi, qn, qi)
    ∧ (tdtype kvn = Int32 ∧ tdtype kvi = Int32 ∧ tdtype qn = Int32 ∧ tdtype qi = Int32)
    ∧ (tshape kvn = [B; H; R] ∧ tshape kvi = [B; H; R; C]
       ∧ tshape qn = [B; H; C] ∧ tshape qi = [B; H; C; R])
    ∧ tdata kvn
      = (fun row => Z.of_nat (length (set_tiles row))) <$> grid_rows B H R C (tdata g)
    ∧ chunks (B * H * R) C (tdata kvi)
      = (fun row => set_tiles row ++ unset_tiles row) <$> grid_rows B H R C (tdata g)
    ∧ tdata qn
      = (fun col => Z.of_nat (length (set_tiles col))) <$> grid_columns B H R C (tdata g)
    ∧ chunks (B * H * C) R (tdata qi)
      = (fun col => set_tiles col ++ unset_tiles col) <$> grid_columns B H R C (tdata g).
Proof.
  intros Hs Hd Hb HR HC.
  assert (Hcast : cast Int32 <$> tdata g = tdata g).
  { apply (fmap_id_on _ is_bit); [apply cast_bit | done]. }
  do 4 eexists. rewrite (inner_eq g B H R C Hs). cbn zeta. rewrite Hcast.
  split; [reflexivity|]. split; [done|]. split; [done|].
  split; [by apply kv_num_blocks_bits|].
  split; [by apply kv_indices_bits|].
  split; [by apply q_num_blocks_bits|].
  by apply q_indices_bits.
Qed.

(** ** The constructor *)

(** C10: the constructor raises exactly when [full_kv_indices] or
    [partial_kv_indices] has fewer than two dimensions; the ranks of
    [full_q_indices] and [partial_q_indices] (and of the four count arrays)
    play no part, so a BlockMask whose transposed-view index arrays have rank
    below 2 is accepted. *)
Theorem init_checks_forward_indices_only
    (fkn fki fqn fqi pkn pki pqn pqi : Tensor) (KVB QB : Z) (fn : option PyFn) :
  BlockMask.init fkn fki fqn fqi pkn pki pqn pqi KVB QB fn =
    (if decide (dim fki < 2 ∨ dim pki < 2)%nat
     then Err RuntimeError
     else Ok (BlockMask.mk fkn fki fqn fqi pkn pki pqn pqi KVB QB fn))
  ∧ (∀ fqi' pqi' : Tensor,
       is_ok (BlockMask.init fkn fki fqn fqi' pkn pki pqn pqi' KVB QB fn)
       = is_ok (BlockMask.init fkn fki fqn fqi pkn pki pqn pqi KVB QB fn)).
Proof.
  split.
  - unfold BlockMask.init.
    destruct (dim fki <? 2)%nat eqn:E1; destruct (dim pki <? 2)%nat eqn:E2;
      simpl; case_decide as Hd; try reflexivity;
      apply Nat.ltb_lt in E1 || apply Nat.ltb_ge in E1;
      apply Nat.ltb_lt in E2 || apply Nat.ltb_ge in E2;
      solve [exfalso; apply Hd; auto | exfalso; lia].
  - intros fqi' pqi'. unfold BlockMask.init.
    destruct ((dim fki <? 2)%nat || (dim pki <? 2)%nat); reflexivity.
Qed.

(** A BlockMask whose two transposed-view index arrays are 0-dim tensors is
    accepted, one whose [partial_kv_indices] is 1-dim is rejected. *)
Example init_accepts_scalar_q_indices :
  is_ok (BlockMask.init (ones [1; 1; 1]%nat Int32) (zeros [1; 1; 1; 1]%nat Int32)
           (ones [1; 1; 1]%nat Int32) (zeros [] Int32)
           (zeros [1; 1; 1]%nat Int32) (zeros [1; 1; 1; 1]%nat Int32)
           (zeros [1; 1; 1]%nat Int32) (zeros [] Int32) 128 128 None) = true
  ∧ BlockMask.init (ones [1; 1; 1]%nat Int32) (zeros [1; 1; 1; 1]%nat Int32)
           (ones [1; 1; 1]%nat Int32) (zeros [1; 1; 1; 1]%nat Int32)
           (zeros [1; 1; 1]%nat Int32) (zeros [1]%nat Int32)
           (zeros [1; 1; 1]%nat Int32) (zeros [1; 1; 1; 1]%nat Int32) 128 128 None
    = Err RuntimeError.
Proof. split; reflexivity. Qed.

(** ** The shape property *)

(** What [shape] computes: the batch dimensions of [full_kv_indices], then
    the tile-row count times [KV_BLOCK_SIZE] and the tile-column count times
    [Q_BLOCK_SIZE]. *)
Lemma shape_eq (bm : BlockMask.t) (batch : list nat) (r c rows cols : nat) :
  tshape (BlockMask.full_kv_indices bm) = batch ++ [r; c] →
  last_dim (BlockMask.full_kv_num_blocks bm) = Ok rows →
  last_dim (BlockMask.full_q_num_blocks bm) = Ok cols →
  BlockMask.shape bm
  = Ok ((Z.of_nat <$> batch)
        ++ [Z.of_nat rows * BlockMask.KV_BLOCK_SIZE bm;
            Z.of_nat cols * BlockMask.Q_BLOCK_SIZE bm]).
Proof.
  intros Hs Hr Hc. unfold BlockMask.shape.
  rewrite Hs, reverse_app. simpl. rewrite Hr, Hc. simpl.
  by rewrite reverse_involutive.
Qed.

(** C1: on the default mask of a call with 256 queries and 128 keys, a single
    tile with [Q_BLOCK_SIZE = 256] and [KV_BLOCK_SIZE = 128], [shape] is
    [(1, 1, 128, 256)]: the tile-row count is multiplied by [KV_BLOCK_SIZE]
    and the tile-column count by [Q_BLOCK_SIZE], where the claim has
    [(1, 1, 256, 128)].  The same happens on a BlockMask built from a dense
    mask of shape [(1, 1, 1, 4)] with 1 x 2 tiles: [shape] is [(1, 1, 2, 2)]. *)
Theorem shape_swaps_block_sizes :
  (∃ bm, _create_empty_block_mask (zeros [1; 1; 256; 64]%nat Int32)
           (zeros [1; 1; 128; 64]%nat Int32) (zeros [1; 1; 128; 64]%nat Int32) = Ok bm
         ∧ BlockMask.Q_BLOCK_SIZE bm = 256 ∧ BlockMask.KV_BLOCK_SIZE bm = 128
         ∧ last_dim (BlockMask.full_kv_num_blocks bm) = Ok 1%nat
         ∧ last_dim (BlockMask.full_q_num_blocks bm) = Ok 1%nat
         ∧ BlockMask.shape bm = Ok [1; 1; 128; 256])
  ∧ (∃ blocks bm,
         _convert_mask_to_block_mask (mkTensor Bool [1; 1; 1; 4]%nat [0; 0; 1; 0])
           2 1 (Some third_key) = Ok blocks
         ∧ _create_sparse_block_from_block_mask blocks (Some third_key) 2 1 = Ok bm
         ∧ BlockMask.shape bm = Ok [1; 1; 2; 2]).
Proof.
  split.
  - eexists. repeat split; reflexivity.
  - do 2 eexists. repeat split; reflexivity.
Qed.

(** ** Dispatch on the arity of the user function *)

(** The claim of C2 fails: a function with one default-less parameter
    ([*idx]) is neither of arity 4 nor 5, and [create_block_mask] succeeds on
    it, taking it for a mask predicate. *)
Lemma star_predicate_is_accepted :
  required_parameters causal_star = 1%nat
  ∧ ∃ bm, create_block_mask causal_star 1 1 2 2 1 1 = Ok bm
          ∧ BlockMask.mask_fn bm = Some causal_star.
Proof. split; [reflexivity | eexists; split; reflexivity]. Qed.

Lemma init_Ok fkn fki fqn fqi pkn pki pqn pqi KVB QB fn bm :
  BlockMask.init fkn fki fqn fqi pkn pki pqn pqi KVB QB fn = Ok bm →
  bm = BlockMask.mk fkn fki fqn fqi pkn pki pqn pqi KVB QB fn.
Proof.
  unfold BlockMask.init. destruct (_ || _); [discriminate|]. by intros [= <-].
Qed.

Lemma vmap_call_Ok fn n args out :
  vmap_call fn n args = Ok out → binds fn n = true ∧ out = body fn <$> args.
Proof. unfold vmap_call. destruct (binds fn n); [|discriminate]. by intros [= <-]. Qed.
(** ** The per-tile counts *)

Lemma nth_chunks {A} (k n c : nat) (l : list A) :
  (c < k)%nat → nth c (chunks k n l) [] = take n (drop (c * n) l).
Proof.
  revert c l. induction k as [|k IH]; intros c l Hc; [lia|].
  destruct c as [|c]; cbn [chunks nth].
  - done.
  - rewrite IH by lia. by rewrite drop_drop.
Qed.

Lemma length_tile_row (KVb C c : nat) (row : list Z) :
  length row = (C * KVb)%nat → (c < C)%nat →
  length (take KVb (drop (c * KVb) row)) = KVb.
Proof. intros Hrow Hc. rewrite length_take, length_drop. nia. Qed.

(** The permuted data of one band: its [C] tiles one after the other, each
    as its [Qb] rows of [KVb] elements. *)
Lemma permuted_band (Qb C KVb : nat) (band : list Z) :
  transpose [] C (chunks C KVb <$> chunks Qb (C * KVb) band)
  = tile_of KVb (chunks Qb (C * KVb) band) <$> seq 0 C.
Proof.
  unfold transpose, tile_of. apply list_fmap_ext. intros i c Hc. cbn.
  apply lookup_seq in Hc as [-> Hc]. cbn.
  rewrite <- list_fmap_compose. apply list_fmap_ext. intros j row _. cbn.
  by apply nth_chunks.
Qed.

Lemma mask_block_sum_tiles (m : Tensor) (B H R C Qb KVb : nat) :
  tshape m = [B; H; (R * Qb)%nat; (C * KVb)%nat] →
  length (tdata m) = (B * H * (R * Qb) * (C * KVb))%nat →
  (0 < Qb)%nat → (0 < KVb)%nat →
  mask_block_sum m B H (R * Qb) (C * KVb) (Z.of_nat KVb) (Z.of_nat Qb)
  = Ok (mkTensor Int64 [B; H; R; C]
          (cast Int64 <$> tile_counts B H R C Qb KVb (tdata m))).
Proof.
  intros Hs Hd HQb HKVb. unfold mask_block_sum.
  rewrite !py_floordiv_ne by lia. cbn [mbind Result_bind].
  rewrite !Nat2Z.inj_mul, !Z.div_mul by lia.
  unfold view. rewrite Hs.
  assert (Hnn : forallb (fun n => 0 <=? n)
            [Z.of_nat B; Z.of_nat H; Z.of_nat R; Z.of_nat Qb; Z.of_nat C; Z.of_nat KVb]
          = true).
  { cbn. repeat (apply andb_true_iff; split); try apply Z.leb_le; try lia; done. }
  rewrite Hnn. cbn [fmap list_fmap]. rewrite !Nat2Z.id.
  rewrite decide_True by (rewrite !prod_list_cons; cbn; lia).
  cbn [mbind Result_bind permute_012435 tshape tdata tdtype].
  unfold sum_last2. cbn [tshape tdata].
  change (reverse [B; H; R; C; Qb; KVb]) with [KVb; Qb; C; R; H; B].
  cbn [mbind Result_bind]. do 2 f_equal.
  set (bands := chunks (B * H * R) (Qb * C * KVb) (tdata m)).
  assert (Hbands : Forall (fun band => length band = (Qb * C * KVb)%nat) bands).
  { apply chunks_lengths. lia. }
  assert (Hperm :
    (fun band => concat (@concat _ <$>
        transpose [] C (chunks C KVb <$> chunks Qb (C * KVb) band))) <$> bands
    = (fun band => concat ((fun c => concat (tile_of KVb (chunks Qb (C * KVb) band) c))
                             <$> seq 0 C)) <$> bands).
  { apply list_fmap_ext. intros i band _. cbn.
    by rewrite permuted_band, <- list_fmap_compose. }
  rewrite Hperm.
  assert (Htiles : ∀ band c, length band = (Qb * C * KVb)%nat → (c < C)%nat →
    length (concat (tile_of KVb (chunks Qb (C * KVb) band) c)) = (Qb * KVb)%nat).
  { intros band c Hband Hc. rewrite (length_concat_uniform KVb).
    - unfold tile_of. by rewrite length_fmap, length_chunks.
    - unfold tile_of. apply Forall_fmap.
      eapply Forall_impl; [apply (chunks_lengths Qb (C * KVb)); lia|].
      intros row Hrow. cbn. by apply (length_tile_row KVb C). }
  set (G := fun band : list Z =>
              (fun c => concat (tile_of KVb (chunks Qb (C * KVb) band) c)) <$> seq 0 C).
  assert (Hflat : concat ((fun band => concat (G band)) <$> bands)
                  = concat (concat (G <$> bands))).
  { by rewrite <- concat_concat_fmap, <- list_fmap_compose. }
  change (concat ((fun band : list Z =>
            concat ((fun c => concat (tile_of KVb (chunks Qb (C * KVb) band) c))
                      <$> seq 0 C)) <$> bands))
    with (concat ((fun band => concat (G band)) <$> bands)).
  change (reverse [C; R; H; B]) with [B; H; R; C].
  rewrite Hflat, chunks_concat'.
  - unfold tile_counts. rewrite !fmap_concat, <- !list_fmap_compose.
    replace (Qb * (C * KVb))%nat with (Qb * C * KVb)%nat by lia. fold bands.
    f_equal. apply list_fmap_ext. intros i band _. unfold G, compose.
    by rewrite <- !list_fmap_compose.
  - rewrite (length_concat_uniform C).
    + rewrite length_fmap. unfold bands. rewrite length_chunks. cbn. lia.
    + apply Forall_fmap, Forall_forall. intros band _. unfold G, compose.
      by rewrite length_fmap, length_seq.
  - apply Forall_concat, Forall_fmap. eapply Forall_impl; [exact Hbands|].
    intros band Hband. unfold G, compose. apply Forall_fmap, Forall_forall.
    intros c Hc%elem_of_seq. cbn beta. apply Htiles; [done|lia].
Qed.

(** ** Failure on extents that the block sizes do not divide *)

Lemma py_mod_ne a b : b ≠ 0 → py_mod a b = Ok (a mod b).
Proof. unfold py_mod. by destruct (Z.eqb_spec b 0). Qed.

(** C4: with positive block sizes, a boolean dense mask whose query extent
    is not a multiple of [Q_BLOCK_SIZE], or whose key extent is not a
    multiple of [KV_BLOCK_SIZE], makes [_convert_mask_to_block_mask] fail on
    its divisibility [assert]; the error is the function's own result, not a
    deferred one. *)
Theorem convert_rejects_indivisible (mask : Tensor) (KVB QB : Z)
    (fn : option PyFn) (B H Q KV : nat) :
  tdtype mask = Bool →
  pad_shape 4 (tshape mask) = [B; H; Q; KV] →
  0 < QB → 0 < KVB →
  ¬ (QB | Z.of_nat Q) ∨ ¬ (KVB | Z.of_nat KV) →
  _convert_mask_to_block_mask mask KVB QB fn = Err AssertionError.
Proof.
  intros Hd Hs HQB HKVB Hdiv. unfold _convert_mask_to_block_mask.
  rewrite Hd, bool_decide_eq_true_2 by done. cbn [py_assert mbind Result_bind].
  cbn [tshape _broadcast_to_dim]. rewrite Hs.
  rewrite (py_mod_ne (Z.of_nat Q) QB), (py_mod_ne (Z.of_nat KV) KVB) by lia.
  cbn [mbind Result_bind].
  destruct (Z.eqb_spec (Z.of_nat Q mod QB) 0) as [Hq|Hq]; [|reflexivity].
  cbn [py_assert mbind Result_bind].
  destruct (Z.eqb_spec (Z.of_nat KV mod KVB) 0) as [Hk|Hk]; [|reflexivity].
  exfalso. destruct Hdiv as [Hn|Hn]; apply Hn.
  - apply Z.mod_divide; [lia | done].
  - apply Z.mod_divide; [lia | done].
Qed.

(** A dense mask with 200 queries and tiles of 128 rows. *)
Lemma convert_rejects_indivisible_200 :
  _convert_mask_to_block_mask (zeros [1; 1; 200; 128]%nat Bool) 128 128 None
  = Err AssertionError.
Proof.
  apply (convert_rejects_indivisible _ 128 128 None 1 1 200 128);
    [reflexivity | reflexivity | lia | lia |].
  left. intros [k Hk]. lia.
Defined.

(** ** Classification without a mask predicate *)

Lemma cast_Int8_bit (b : bool) : cast Int8 (if b then 1 else 0) = if b then 1 else 0.
Proof. by destruct b. Qed.
(** ** The causal mask *)

(** The claim of C5 fails on the number of partial tiles: the causal mask of
    256 x 256 elements in tiles of 128 x 128 has two partial tiles (the two
    on the diagonal), not one. *)
Lemma causal_256_has_two_partial_tiles :
  ∃ mask full partial,
    _create_mask_from_mask_fn causal 1 1 256 256 = Ok mask
    ∧ _convert_mask_to_block_mask mask 128 128 (Some causal) = Ok (full, Some partial)
    ∧ count_tiles partial = 2 ∧ count_tiles partial ≠ 1.
Proof.
  do 3 eexists. split; [reflexivity|].
  split; [vm_compute; reflexivity|]. split; [reflexivity | discriminate].
Qed.

(** C5 (amended): the causal mask of shape [(1, 1, 256, 256)] in tiles of
    128 x 128 has, among its 4 tiles, one full tile (below the diagonal),
    two partial tiles (on the diagonal) and one empty tile (above it); the
    sparsity of the BlockMask built from it is 25. *)
Theorem causal_256_tiles :
  ∃ mask full partial bm s,
    _create_mask_from_mask_fn causal 1 1 256 256 = Ok mask
    ∧ _convert_mask_to_block_mask mask 128 128 (Some causal) = Ok (full, Some partial)
    ∧ tshape full = [1; 1; 2; 2]%nat ∧ tshape partial = [1; 1; 2; 2]%nat
    ∧ tdata full = [0; 0; 1; 0] ∧ tdata partial = [1; 0; 0; 1]
    ∧ count_tiles full = 1 ∧ count_tiles partial = 2
    ∧ 4 - count_tiles full - count_tiles partial = 1
    ∧ create_block_mask causal 1 1 256 256 128 128 = Ok bm
    ∧ BlockMask.sparsity bm = Ok s ∧ (s == 25)%Q.
Proof.
  do 5 eexists. split; [reflexivity|].
  split; [vm_compute; reflexivity|].
  do 7 (split; [reflexivity|]).
  split; [vm_compute; reflexivity|].
  split; [vm_compute; reflexivity|]. reflexivity.
Qed.

(** ** Counts and index sequences of the compressed form *)

(** C8: on a grid of bits (fewer than [2^31] rows and columns) the compressor
    succeeds, and for every row of the forward view, and every row of the
    transposed view (a column of the grid), the count is the number of set
    tiles of that row, the leading [count] entries of its index sequence are
    exactly the positions of the set tiles, in ascending (that is, original)
    order, and the entries after them are the positions of the other tiles. *)
Theorem compressor_counts_and_prefixes (g : Tensor) (B H R C : nat) :
  tshape g = [B; H; R; C] →
  length (tdata g) = (B * H * R * C)%nat →
  Forall is_bit (tdata g) →
  Z.of_nat R < 2 ^ 31 → Z.of_nat C < 2 ^ 31 →
  ∃ kv_num_blocks kv_indices q_num_blocks q_indices,
    create_sparse_block_from_block_mask_inner g
    = Ok (kv_num_blocks, kv_indices, q_num_blocks, q_indices)
    ∧ (∀ i row, grid_rows B H R C (tdata g) !! i = Some row →
         ∃ count indices,
           tdata kv_num_blocks !! i = Some (Z.of_nat count)
           ∧ chunks (B * H * R) C (tdata kv_indices) !! i = Some indices
           ∧ count = length (set_tiles row)
           ∧ take count indices = set_tiles row
           ∧ drop count indices = unset_tiles row)
    ∧ (∀ j col, grid_columns B H R C (tdata g) !! j = Some col →
         ∃ count indices,
           tdata q_num_blocks !! j = Some (Z.of_nat count)
           ∧ chunks (B * H * C) R (tdata q_indices) !! j = Some indices
           ∧ count = length (set_tiles col)
           ∧ take count indices = set_tiles col
           ∧ drop count indices = unset_tiles col).
Proof.
  intros Hs Hd Hb HR HC.
  destruct (inner_bits g B H R C Hs Hd Hb HR HC)
    as (kvn & kvi & qn & qi & Hinner & _ & _ & Hkvn & Hkvi & Hqn & Hqi).
  exists kvn, kvi, qn, qi. split; [done|]. split.
  - intros i row Hrow. exists (length (set_tiles row)), (set_tiles row ++ unset_tiles row).
    rewrite Hkvn, Hkvi, !list_lookup_fmap, Hrow. cbn.
    by rewrite take_app_length, drop_app_length.
  - intros j col Hcol. exists (length (set_tiles col)), (set_tiles col ++ unset_tiles col).
    rewrite Hqn, Hqi, !list_lookup_fmap, Hcol. cbn.
    by rewrite take_app_length, drop_app_length.
Qed.

Ltac solve_bits := repeat (constructor; [by (left + right)|]); constructor.

(** The grid [[0, 1, 1], [1, 0, 0]]. *)
Lemma compressor_counts_and_prefixes_2x3 :
  ∃ kv_num_blocks kv_indices q_num_blocks q_indices,
    create_sparse_block_from_block_mask_inner
      (mkTensor Int8 [1; 1; 2; 3]%nat [0; 1; 1; 1; 0; 0])
    = Ok (kv_num_blocks, kv_indices, q_num_blocks, q_indices)
    ∧ (∀ i row, grid_rows 1 1 2 3 [0; 1; 1; 1; 0; 0] !! i = Some row →
         ∃ count indices,
           tdata kv_num_blocks !! i = Some (Z.of_nat count)
           ∧ chunks (1 * 1 * 2) 3 (tdata kv_indices) !! i = Some indices
           ∧ count = length (set_tiles row)
           ∧ take count indices = set_tiles row
           ∧ drop count indices = unset_tiles row)
    ∧ (∀ j col, grid_columns 1 1 2 3 [0; 1; 1; 1; 0; 0] !! j = Some col →
         ∃ count indices,
           tdata q_num_blocks !! j = Some (Z.of_nat count)
           ∧ chunks (1 * 1 * 3) 2 (tdata q_indices) !! j = Some indices
           ∧ count = length (set_tiles col)
           ∧ take count indices = set_tiles col
           ∧ drop count indices = unset_tiles col).
Proof.
  apply (compressor_counts_and_prefixes
           (mkTensor Int8 [1; 1; 2; 3]%nat [0; 1; 1; 1; 0; 0]) 1 1 2 3);
    [reflexivity | reflexivity | solve_bits | reflexivity | reflexivity].
Defined.

(** The four arrays of that grid. *)
Example compressor_2x3 :
  create_sparse_block_from_block_mask_inner
    (mkTensor Int8 [1; 1; 2; 3]%nat [0; 1; 1; 1; 0; 0])
  = Ok (mkTensor Int32 [1; 1; 2]%nat [2; 1],
        mkTensor Int32 [1; 1; 2; 3]%nat [1; 2; 0; 0; 1; 2],
        mkTensor Int32 [1; 1; 3]%nat [1; 1; 1],
        mkTensor Int32 [1; 1; 3; 2]%nat [1; 0; 0; 1; 0; 1]).
Proof. reflexivity. Qed.

(** ** Determinism *)

Lemma inner_ext (g1 g2 : Tensor) :
  tshape g1 = tshape g2 → tdata g1 = tdata g2 →
  create_sparse_block_from_block_mask_inner g1
  = create_sparse_block_from_block_mask_inner g2.
Proof.
  intros Hs Hd. unfold create_sparse_block_from_block_mask_inner.
  assert (to Int32 g1 = to Int32 g2) as -> by (unfold to; congruence). done.
Qed.

(** C9: the compressed form is a function of the shape and the entries of
    the tile grids and of the block sizes: two runs on grids that agree on
    these give equal BlockMasks, count arrays and index arrays alike, the
    entries beyond each row's count included. *)
Theorem compressor_deterministic (full1 full2 : Tensor) (partial1 partial2 : option Tensor)
    (mask_fn : option PyFn) (KVB QB : Z) :
  tshape full1 = tshape full2 → tdata full1 = tdata full2 →
  tshape <$> partial1 = tshape <$> partial2 →
  tdata <$> partial1 = tdata <$> partial2 →
  _create_sparse_block_from_block_mask (full1, partial1) mask_fn KVB QB
  = _create_sparse_block_from_block_mask (full2, partial2) mask_fn KVB QB.
Proof.
  intros Hs Hd Hps Hpd. unfold _create_sparse_block_from_block_mask.
  rewrite (inner_ext full1 full2 Hs Hd).
  destruct partial1 as [p1|], partial2 as [p2|]; try discriminate; [|done].
  injection Hps as Hps. injection Hpd as Hpd.
  by rewrite (inner_ext p1 p2 Hps Hpd).
Qed.

(** Two runs on the grid [[0, 1, 1], [1, 0, 0]], held once as int8 and once
    as bool. *)
Lemma compressor_deterministic_2x3 :
  _create_sparse_block_from_block_mask
    (mkTensor Int8 [1; 1; 2; 3]%nat [0; 1; 1; 1; 0; 0], None) None 128 128
  = _create_sparse_block_from_block_mask
    (mkTensor Bool [1; 1; 2; 3]%nat [0; 1; 1; 1; 0; 0], None) None 128 128.
Proof.
  apply compressor_deterministic; reflexivity.
Defined.

(** ** Sparsity of a built BlockMask *)

Section percentage.
  Local Open Scope Q_scope.

(** The percentage [100 * (1 - x / y)] for integers [0 <= x <= y], [0 < y]. *)
Lemma percentage_bounds (x y : Z) :
  (0 ≤ x ≤ y)%Z → (0 < y)%Z →
  let s := 100 * (1 - inject_Z x / inject_Z y) in
  0 <= s ∧ s <= 100 ∧ (s == 0 ↔ x = y).
Proof.
  intros Hx Hy s.
  assert (Hy' : 0 < inject_Z y) by (change (inject_Z 0 < inject_Z y); rewrite <- Zlt_Qlt; lia).
  assert (Hx0 : 0 <= inject_Z x / inject_Z y).
  { apply Qle_shift_div_l; [done|]. rewrite Qmult_0_l. change (inject_Z 0 <= inject_Z x). rewrite <- Zle_Qle. lia. }
  assert (Hx1 : inject_Z x / inject_Z y <= 1).
  { apply Qle_shift_div_r; [done|]. rewrite Qmult_1_l, <- Zle_Qle. lia. }
  subst s. split; [|split].
  - lra.
  - lra.
  - split.
    + intros Hs. assert (Heq : inject_Z x / inject_Z y == 1) by lra.
      apply (Qmult_inj_r _ _ (inject_Z y)) in Heq; [|lra].
      rewrite Qmult_1_l in Heq. unfold Qdiv in Heq.
      rewrite <- Qmult_assoc, (Qmult_comm (/ _)), Qmult_inv_r, Qmult_1_r in Heq by lra.
      by apply inject_Z_injective.
    + intros ->. unfold Qdiv. rewrite Qmult_inv_r by lra. lra.
Qed.
End percentage.

Lemma classify_wf (fn : option PyFn) (KVB QB : Z) (sums : Tensor) :
  let blocks := classify fn KVB QB sums in
  tshape blocks.1 = tshape sums
  ∧ length (tdata blocks.1) = length (tdata sums)
  ∧ Forall is_bit (tdata blocks.1)
  ∧ match blocks.2 with
    | Some p =>
        tshape p = tshape sums
        ∧ length (tdata p) = length (tdata sums)
        ∧ Forall is_bit (tdata p)
        ∧ Forall2 (fun f q => f + q ≤ 1) (tdata blocks.1) (tdata p)
    | None => True
    end.
Proof.
  unfold classify. destruct fn as [fn|]; cbn.
  - rewrite !length_fmap, length_zip_with, !length_fmap.
    split; [done|]. split; [done|]. split; [|split; [done|split; [lia|split]]].
    + apply Forall_fmap, Forall_fmap, Forall_forall. intros s _. cbn.
      destruct (s =? QB * KVB); by (left + right).
    + rewrite zip_with_fmap_l, zip_with_fmap_r, zip_with_diag.
      apply Forall_fmap, Forall_fmap, Forall_forall. intros s _. cbn.
      destruct (0 <? s), (s <? QB * KVB); by (left + right).
    + rewrite zip_with_fmap_l, zip_with_fmap_r, zip_with_diag.
      rewrite <- !list_fmap_compose. apply Forall2_fmap, Forall_Forall2_diag.
      apply Forall_forall. intros s _. cbn.
      destruct (Z.eqb_spec s (QB * KVB)), (Z.ltb_spec 0 s), (Z.ltb_spec s (QB * KVB));
        first [exfalso; lia | by vm_compute].
  - rewrite !length_fmap. split; [done|]. split; [done|]. split; [|done].
    apply Forall_fmap, Forall_fmap, Forall_forall. intros s _. cbn.
    destruct (0 <? s); by (left + right).
Qed.

(** The counts of a grid of bits add up to the number of its set tiles. *)
Lemma zsum_counts (k n : nat) (d : list Z) :
  length d = (k * n)%nat → Forall is_bit d →
  zsum ((fun row => Z.of_nat (length (set_tiles row))) <$> chunks k n d) = zsum d.
Proof.
  intros Hd Hb. rewrite <- (concat_chunks k n d Hd) at 2. rewrite zsum_concat.
  f_equal. apply (fmap_bit_rows _ _ n); [|by apply chunks_bit_rows].
  intros r _ Hr. by rewrite zsum_bits.
Qed.

Lemma zsum_disjoint_bits (fs ps : list Z) :
  Forall is_bit fs → Forall is_bit ps → Forall2 (fun f q => f + q ≤ 1) fs ps →
  0 ≤ zsum fs + zsum ps ≤ Z.of_nat (length fs)
  ∧ (zsum fs + zsum ps = Z.of_nat (length fs) ↔ Forall2 (fun f q => f = 1 ∨ q = 1) fs ps).
Proof.
  intros Hf Hp H2. induction H2 as [|f q fs ps Hfq H2 IH].
  - cbn. split; [lia|]. split; [constructor | done].
  - apply Forall_cons in Hf as [Hf Hfs]. apply Forall_cons in Hp as [Hq Hps].
    destruct (IH Hfs Hps) as [Hrange Hiff]. rewrite !zsum_cons. cbn [length].
    split; [destruct Hf, Hq; lia|]. split.
    + intros Heq. constructor; [destruct Hf, Hq; lia|].
      apply Hiff. destruct Hf, Hq; lia.
    + intros [Hone Hrest]%Forall2_cons. apply Hiff in Hrest.
      destruct Hf, Hq; lia.
Qed.

Lemma zsum_bits_full (fs : list Z) :
  Forall is_bit fs →
  0 ≤ zsum fs ≤ Z.of_nat (length fs)
  ∧ (zsum fs = Z.of_nat (length fs) ↔ Forall (fun f => f = 1) fs).
Proof.
  induction 1 as [|f fs Hf _ [Hrange Hiff]].
  - cbn. split; [lia|]. split; [constructor | done].
  - rewrite zsum_cons. cbn [length]. split; [destruct Hf; lia|]. split.
    + intros Heq. constructor; [destruct Hf; lia|]. apply Hiff. destruct Hf; lia.
    + intros [Hone Hrest]%Forall_cons. apply Hiff in Hrest. lia.
Qed.
Lemma init_ranks fkn fki fqn fqi pkn pki pqn pqi KVB QB fn :
  (2 ≤ dim fki)%nat → (2 ≤ dim pki)%nat →
  BlockMask.init fkn fki fqn fqi pkn pki pqn pqi KVB QB fn
  = Ok (BlockMask.mk fkn fki fqn fqi pkn pki pqn pqi KVB QB fn).
Proof.
  intros H1 H2. unfold BlockMask.init.
  destruct (Nat.ltb_spec (dim fki) 2), (Nat.ltb_spec (dim pki) 2); (done || lia).
Qed.

(** The BlockMask built from well-formed grids: its layout and the sums of
    its two forward count arrays. *)
Lemma create_sparse_wf (full : Tensor) (partial : option Tensor) (fn : option PyFn)
    (KVB QB : Z) (B H R C : nat) :
  tshape full = [B; H; R; C] →
  length (tdata full) = (B * H * R * C)%nat →
  Forall is_bit (tdata full) →
  match partial with
  | Some p => tshape p = [B; H; R; C] ∧ length (tdata p) = (B * H * R * C)%nat
              ∧ Forall is_bit (tdata p)
  | None => True
  end →
  Z.of_nat R < 2 ^ 31 → Z.of_nat C < 2 ^ 31 →
  ∃ bm,
    _create_sparse_block_from_block_mask (full, partial) fn KVB QB = Ok bm
    ∧ tshape (BlockMask.full_kv_indices bm) = [B; H; R; C]
    ∧ tshape (BlockMask.full_kv_num_blocks bm) = [B; H; R]
    ∧ tshape (BlockMask.full_q_num_blocks bm) = [B; H; C]
    ∧ sum_all (BlockMask.full_kv_num_blocks bm) = zsum (tdata full)
    ∧ sum_all (BlockMask.partial_kv_num_blocks bm)
      = match partial with Some p => zsum (tdata p) | None => 0 end
    ∧ BlockMask.KV_BLOCK_SIZE bm = KVB ∧ BlockMask.Q_BLOCK_SIZE bm = QB
    ∧ BlockMask.mask_fn bm = fn.
Proof.
  intros Hs Hd Hb Hp HR HC. unfold _create_sparse_block_from_block_mask.
  destruct (inner_bits full B H R C Hs Hd Hb HR HC)
    as (kvn & kvi & qn & qi & -> & _ & (Hs1 & Hs2 & Hs3 & Hs4) & Hkvn & _ & _ & _).
  cbn [mbind Result_bind].
  assert (Hsum : sum_all kvn = zsum (tdata full)).
  { unfold sum_all. rewrite Hkvn. by apply zsum_counts. }
  destruct partial as [p|].
  - destruct Hp as (Hps & Hpd & Hpb).
    destruct (inner_bits p B H R C Hps Hpd Hpb HR HC)
      as (pkvn & pkvi & pqn & pqi & -> & _ & (Hp1 & Hp2 & Hp3 & Hp4) & Hpkvn & _ & _ & _).
    cbn [mbind Result_bind].
    rewrite init_ranks by (unfold dim; rewrite ?Hs2, ?Hp2; cbn; lia).
    eexists. split; [reflexivity|]. cbn.
    repeat split; try done. unfold sum_all. rewrite Hpkvn. by apply zsum_counts.
  - cbn [mbind Result_bind].
    rewrite init_ranks by (unfold dim; rewrite ?Hs2; cbn; lia).
    eexists. split; [reflexivity|]. cbn. by repeat split.
Qed.

Lemma sparsity_eq (bm : BlockMask.t) (B H R C : nat) :
  tshape (BlockMask.full_kv_indices bm) = [B; H; R; C] →
  tshape (BlockMask.full_kv_num_blocks bm) = [B; H; R] →
  tshape (BlockMask.full_q_num_blocks bm) = [B; H; C] →
  let total :=
    Z.of_nat (B * H * R * C) * (BlockMask.KV_BLOCK_SIZE bm * BlockMask.Q_BLOCK_SIZE bm) in
  let computed :=
    (sum_all (BlockMask.full_kv_num_blocks bm)
     + sum_all (BlockMask.partial_kv_num_blocks bm))
    * (BlockMask.KV_BLOCK_SIZE bm * BlockMask.Q_BLOCK_SIZE bm) in
  total ≠ 0 →
  BlockMask.sparsity bm = Ok (100 * (1 - inject_Z computed / inject_Z total))%Q.
Proof.
  intros Hs1 Hs2 Hs3 total computed Htotal. unfold BlockMask.sparsity, BlockMask.numel.
  rewrite (shape_eq bm [B; H] R C R C) by (done || (unfold last_dim; by rewrite ?Hs2, ?Hs3)).
  cbn [mbind Result_bind fmap list_fmap app zprod foldr].
  assert (Ht : Z.of_nat B * (Z.of_nat H * (Z.of_nat R * BlockMask.KV_BLOCK_SIZE bm
              * (Z.of_nat C * BlockMask.Q_BLOCK_SIZE bm * 1))) = total)
    by (unfold total; lia).
  rewrite Ht. destruct (Z.eqb_spec total 0) as [|_]; [done|].
  do 4 f_equal. unfold computed. f_equal. lia.
Qed.
(** The claim of C6 fails twice.  The constructor accepts counts that exceed
    the number of tiles, and the sparsity of such a BlockMask is negative;
    and a BlockMask built from a mask with a partial tile and no empty tile
    has sparsity 0 although not every tile is full. *)
Lemma sparsity_outside_claim :
  (∃ bm s,
     BlockMask.init (mkTensor Int32 [1; 1; 1]%nat [2]) (zeros [1; 1; 1; 1]%nat Int32)
       (mkTensor Int32 [1; 1; 1]%nat [2]) (zeros [1; 1; 1; 1]%nat Int32)
       (zeros [1; 1; 1]%nat Int32) (zeros [1; 1; 1; 1]%nat Int32)
       (zeros [1; 1; 1]%nat Int32) (zeros [1; 1; 1; 1]%nat Int32) 128 128 None = Ok bm
     ∧ BlockMask.sparsity bm = Ok s ∧ (s == -100)%Q ∧ ¬ (0 <= s)%Q)
  ∧ (∃ full partial bm s,
       _convert_mask_to_block_mask (mkTensor Bool [1; 1; 1; 2]%nat [1; 0]) 2 1
         (Some third_key) = Ok (full, Some partial)
       ∧ tdata full = [0] ∧ tdata partial = [1]
       ∧ _create_sparse_block_from_block_mask (full, Some partial) (Some third_key) 2 1
         = Ok bm
       ∧ BlockMask.sparsity bm = Ok s ∧ (s == 0)%Q).
Proof.
  split.
  - do 2 eexists. split; [reflexivity|]. split; [reflexivity|].
    split; [reflexivity|]. intros Hle. by vm_compute in Hle.
  - do 4 eexists. repeat split; reflexivity.
Qed.

(** C6 (amended): for the BlockMask built, with positive block sizes, from the
    tile grids of a dense mask of non-zero extents (fewer than [2^31] queries
    and keys), [sparsity] is a number between 0 and 100, and it is 0 exactly
    when no tile is empty, that is when every tile is full or partial; an
    all-full mask is one such case, for any batch and head extents. *)
Theorem sparsity_of_built_mask (mask : Tensor) (fn : option PyFn)
    (KVB0 QB0 KVB QB : Z) (B H Q KV : nat) (blocks : Tensor * option Tensor) :
  pad_shape 4 (tshape mask) = [B; H; Q; KV] →
  (0 < B)%nat → (0 < H)%nat → (0 < Q)%nat → (0 < KV)%nat →
  Z.of_nat Q < 2 ^ 31 → Z.of_nat KV < 2 ^ 31 →
  _convert_mask_to_block_mask mask KVB0 QB0 fn = Ok blocks →
  0 < KVB → 0 < QB →
  ∃ bm s,
    _create_sparse_block_from_block_mask blocks fn KVB QB = Ok bm
    ∧ BlockMask.sparsity bm = Ok s
    ∧ (0 <= s)%Q ∧ (s <= 100)%Q
    ∧ ((s == 0)%Q ↔ no_empty_tile blocks).
Proof.
  intros Hs HB HH HQ HKV HQ31 HKV31 Hconv HKVB HQB.
  apply convert_Ok in Hconv
    as (B' & H' & Q' & KV' & sums & _ & Hs' & HQB0 & HKVB0 & Hqm & Hkm & Hsums & ->).
  rewrite Hs in Hs'. injection Hs' as <- <- <- <-.
  apply mask_block_sum_Ok in Hsums as (HQB0' & HKVB0' & _ & Hshape & Hlen); [|done..].
  set (R := Z.to_nat (Z.of_nat Q / QB0)) in *.
  set (C := Z.to_nat (Z.of_nat KV / KVB0)) in *.
  assert (HR : (0 < R)%nat ∧ Z.of_nat R < 2 ^ 31).
  { apply Z.mod_divide in Hqm as [k Hk]; [|lia].
    assert (Z.of_nat Q / QB0 = k) as Hdiv by (rewrite Hk; apply Z.div_mul; lia).
    unfold R. rewrite Hdiv. nia. }
  assert (HC : (0 < C)%nat ∧ Z.of_nat C < 2 ^ 31).
  { apply Z.mod_divide in Hkm as [k Hk]; [|lia].
    assert (Z.of_nat KV / KVB0 = k) as Hdiv by (rewrite Hk; apply Z.div_mul; lia).
    unfold C. rewrite Hdiv. nia. }
  destruct HR as [HR0 HR31], HC as [HC0 HC31].
  pose proof (classify_wf fn KVB0 QB0 sums) as Hwf. cbn zeta in Hwf.
  destruct (classify fn KVB0 QB0 sums) as [full partial] eqn:Hclass.
  cbn [fst snd] in Hwf. destruct Hwf as (Hfs & Hfl & Hfb & Hpartial).
  rewrite Hshape in Hfs. rewrite Hlen in Hfl.
  destruct (create_sparse_wf full partial fn KVB QB B H R C Hfs Hfl Hfb)
    as (bm & Hbm & Hs1 & Hs2 & Hs3 & Hsf & Hsp & HK & HQs & _); [|done..|].
  { destruct partial as [p|]; [|done].
    destruct Hpartial as (Hps & Hpl & Hpb & _). by rewrite Hps, Hpl, Hshape, Hlen. }
  exists bm. eexists. split; [exact Hbm|].
  assert (Hn : 0 < Z.of_nat (B * H * R * C)) by nia.
  assert (Hcount :
    0 ≤ sum_all (BlockMask.full_kv_num_blocks bm)
        + sum_all (BlockMask.partial_kv_num_blocks bm) ≤ Z.of_nat (B * H * R * C)
    ∧ (sum_all (BlockMask.full_kv_num_blocks bm)
       + sum_all (BlockMask.partial_kv_num_blocks bm) = Z.of_nat (B * H * R * C)
       ↔ no_empty_tile (full, partial))).
  { rewrite Hsf, Hsp, <- Hfl. unfold no_empty_tile. cbn [fst snd].
    destruct partial as [p|].
    - destruct Hpartial as (_ & _ & Hpb & Hdisj). by apply zsum_disjoint_bits.
    - rewrite Z.add_0_r. by apply zsum_bits_full. }
  destruct Hcount as [Hrange Hiff].
  rewrite (sparsity_eq bm B H R C Hs1 Hs2 Hs3) by (rewrite HK, HQs; nia).
  rewrite HK, HQs. split; [reflexivity|].
  set (n := Z.of_nat (B * H * R * C)) in *.
  set (c := sum_all (BlockMask.full_kv_num_blocks bm)
            + sum_all (BlockMask.partial_kv_num_blocks bm)) in *.
  destruct (percentage_bounds (c * (KVB * QB)) (n * (KVB * QB)))
    as (Hlo & Hhi & Hzero); [nia | nia |].
  split; [exact Hlo|]. split; [exact Hhi|].
  rewrite Hzero, <- Hiff. split; [nia | by intros ->].
Qed.

(** The all-true mask of shape [(2, 3, 2, 2)] in tiles of 1 x 2. *)
Lemma sparsity_of_built_mask_all_true :
  ∃ bm s,
    _create_sparse_block_from_block_mask
      (mkTensor Int8 [2; 3; 2; 1]%nat (replicate 12 1), None) None 128 128 = Ok bm
    ∧ BlockMask.sparsity bm = Ok s
    ∧ (0 <= s)%Q ∧ (s <= 100)%Q
    ∧ ((s == 0)%Q
       ↔ no_empty_tile (mkTensor Int8 [2; 3; 2; 1]%nat (replicate 12 1), None)).
Proof.
  apply (sparsity_of_built_mask (ones [2; 3; 2; 2]%nat Bool) None 2 1 128 128 2 3 2 2);
    [reflexivity | lia | lia | lia | lia | reflexivity | reflexivity | reflexivity
    | lia | lia].
Defined.
(** ** Broadcasting against a one-element tensor *)

Lemma broadcast_shapes_ones (s : list nat) :
  broadcast_shapes s (replicate (length s) 1%nat) = Some s.
Proof.
  induction s as [|n s IH]; [done|]. cbn. rewrite IH. cbn.
  repeat case_decide; congruence.
Qed.

Lemma expand_to_same (s : list nat) (d : list Z) :
  length d = prod_list s → expand_to s s d = d.
Proof.
  revert d. induction s as [|n s IH]; intros d Hd; [done|].
  rewrite prod_list_cons in Hd. cbn [expand_to]. rewrite decide_True by done.
  rewrite (fmap_id_on _ (fun c => length c = prod_list s)).
  - by apply concat_chunks.
  - exact IH.
  - apply chunks_lengths. lia.
Qed.

Lemma expand_to_ones (s : list nat) (z : Z) :
  expand_to (replicate (length s) 1%nat) s [z] = replicate (prod_list s) z.
Proof.
  induction s as [|m s IH]; [done|].
  cbn [length replicate expand_to]. rewrite prod_list_cons, prod_list_ones.
  cbn [chunks take drop hd].
  case_decide as Hm.
  - subst m. cbn. rewrite IH. by rewrite app_nil_r, Nat.add_0_r.
  - rewrite fmap_replicate, IH. apply concat_replicate.
Qed.

(** Adding the one-element zero placeholder to int32 counts. *)
Lemma tensor_add_zero_placeholder (a : Tensor) :
  length (tdata a) = prod_list (tshape a) →
  Forall (fun z => - 2 ^ 31 ≤ z < 2 ^ 31) (tdata a) →
  tensor_add Int32 a (zeros (replicate (dim a) 1%nat) Int32)
  = Ok (mkTensor Int32 (tshape a) (tdata a)).
Proof.
  intros Hlen Hrange. unfold tensor_add, zeros, dim. cbn [tshape tdata].
  rewrite length_replicate, Nat.max_id. unfold pad_shape.
  rewrite length_replicate, Nat.sub_diag. cbn [replicate app].
  rewrite broadcast_shapes_ones, expand_to_same by done.
  rewrite prod_list_ones. cbn [replicate]. rewrite expand_to_ones.
  do 2 f_equal. rewrite <- Hlen. clear Hlen.
  induction Hrange as [|x l Hx _ IH]; [done|].
  cbn [length replicate zip_with]. f_equal; [|exact IH].
  rewrite Z.add_0_r. by apply cast_Int32_small.
Qed.

(** ** Scattering the leading entries of an index row *)

Lemma set_tiles_lookup (row : list Z) (j : nat) :
  Z.of_nat j ∈ set_tiles row ↔ row !! j = Some 1.
Proof.
  unfold set_tiles, indexed. rewrite list_elem_of_fmap. split.
  - intros ([x i] & Hj & [Hx Hin]%list_elem_of_filter). cbn in Hj, Hx. subst.
    apply elem_of_lookup_zip_with in Hin as (k & y & z & [= <- <-] & Hy & Hz).
    rewrite list_lookup_fmap in Hz.
    destruct (seq 0 (length row) !! k) as [k'|] eqn:Hk; [|done].
    apply lookup_seq in Hk as [-> _]. cbn in Hz. injection Hz as Hz.
    apply Nat2Z.inj in Hz. by subst.
  - intros Hj. exists (1, Z.of_nat j). split; [done|].
    apply list_elem_of_filter. split; [done|].
    apply elem_of_lookup_zip_with. exists j, 1, (Z.of_nat j). split; [done|].
    split; [done|]. rewrite list_lookup_fmap, lookup_seq_lt; [done|].
    by eapply lookup_lt_Some.
Qed.

(** The indices that [create_dense_one] writes for a row: the leading
    [count] entries, then the extra column. *)
Lemma valid_indices_eq (extra : Z) (l1 l2 : list Z) :
  imap (fun c idx => if Z.of_nat c <? Z.of_nat (length l1) then idx else extra) (l1 ++ l2)
  = l1 ++ replicate (length l2) extra.
Proof.
  rewrite imap_app. f_equal.
  - rewrite <- (list_fmap_id l1) at 2. rewrite <- imap_const.
    apply imap_ext. intros i x Hi. cbn.
    apply lookup_lt_Some in Hi. destruct (Z.ltb_spec (Z.of_nat i) (Z.of_nat (length l1))); [done|lia].
  - induction l2 as [|x l2 IH] using rev_ind; [done|].
    rewrite imap_app, length_app, IH. cbn. rewrite replicate_add. cbn. f_equal. f_equal.
    destruct (Z.ltb_spec (Z.of_nat (length l1 + (length l2 + 0)))
                (Z.of_nat (length l1))); [lia|done].
Qed.

Lemma index_put_in_range (row : list Z) (i : Z) :
  0 ≤ i < Z.of_nat (length row) →
  BlockMask.index_put row i = Ok (<[Z.to_nat i := 1]> row).
Proof.
  intros Hi. unfold BlockMask.index_put.
  destruct (Z.leb_spec 0 i); [|lia].
  destruct (Z.ltb_spec i (Z.of_nat (length row))); [done|lia].
Qed.

Lemma foldR_index_put (acc : list Z) (idxs : list Z) :
  Forall (fun i => 0 ≤ i < Z.of_nat (length acc)) idxs →
  foldR BlockMask.index_put acc idxs
  = Ok (foldl (fun a i => <[Z.to_nat i := 1]> a) acc idxs).
Proof.
  intros Hidx. revert acc Hidx.
  induction idxs as [|i idxs IH]; intros acc Hidx; [done|].
  apply Forall_cons in Hidx as [Hi Hidx]. cbn [foldR foldl].
  rewrite index_put_in_range by done.
  cbn [mbind Result_bind]. apply IH.
  by rewrite length_insert.
Qed.

Lemma length_scatter (acc : list Z) (idxs : list Z) :
  length (foldl (fun a i => <[Z.to_nat i := 1]> a) acc idxs) = length acc.
Proof.
  revert acc. induction idxs as [|i idxs IH]; intros acc; [done|].
  cbn. by rewrite IH, length_insert.
Qed.

Lemma scatter_lookup (acc : list Z) (idxs : list Z) (j : nat) :
  Forall (fun i => 0 ≤ i) idxs → (j < length acc)%nat →
  foldl (fun a i => <[Z.to_nat i := 1]> a) acc idxs !! j
  = if decide (Z.of_nat j ∈ idxs) then Some 1 else acc !! j.
Proof.
  intros Hidx. revert acc.
  induction Hidx as [|i idxs Hi _ IH]; intros acc Hj.
  - cbn. case_decide as Hin; [|done]. by apply elem_of_nil in Hin.
  - cbn [foldl]. rewrite IH by by rewrite length_insert.
    destruct (decide (Z.of_nat j ∈ idxs)) as [Hin|Hin].
    + rewrite decide_True; [done|]. by apply elem_of_cons; right.
    + destruct (decide (Z.of_nat j = i)) as [Heq|Hne].
      * rewrite decide_True by (apply elem_of_cons; by left).
        subst i. rewrite Nat2Z.id. by apply list_lookup_insert_eq.
      * rewrite decide_False by (rewrite elem_of_cons; intros [?|?]; done).
        apply list_lookup_insert_ne. lia.
Qed.

(** One row of [to_dense] on the count and the index row of a row of bits
    gives the row back. *)
Lemma create_dense_row_bits (C : nat) (row : list Z) :
  length row = C → Forall is_bit row →
  BlockMask.create_dense_row C (Z.of_nat (length (set_tiles row)))
    (set_tiles row ++ unset_tiles row)
  = Ok row.
Proof.
  intros Hlen Hb. unfold BlockMask.create_dense_row.
  rewrite valid_indices_eq.
  assert (Hrange : Forall (fun i => 0 ≤ i ≤ Z.of_nat C)
            (set_tiles row ++ replicate (length (unset_tiles row)) (Z.of_nat C))).
  { apply Forall_app. split.
    - pose proof (tiles_range row) as Ht. apply Forall_app in Ht as [Ht _].
      eapply Forall_impl; [exact Ht|]. intros z Hz. cbn in Hz. lia.
    - apply Forall_forall. intros z Hz%elem_of_replicate_inv. lia. }
  rewrite foldR_index_put.
  2:{ eapply Forall_impl; [exact Hrange|]. intros z Hz. cbn beta in *.
      rewrite length_replicate. lia. }
  cbn [mbind Result_bind]. f_equal. apply list_eq. intros j.
  destruct (decide (j < C)%nat) as [Hj|Hj].
  2:{ rewrite lookup_take_ge, lookup_ge_None_2 by lia. done. }
  rewrite lookup_take_lt, scatter_lookup; [|
    eapply Forall_impl; [exact Hrange|]; intros z Hz; cbn in Hz; lia |
    rewrite length_replicate; lia | done].
  rewrite lookup_replicate_2 by lia.
  destruct (lookup_lt_is_Some_2 row j) as [x Hx]; [lia|].
  case_decide as Hin.
  - apply elem_of_app in Hin as [Hin|Hin].
    + apply set_tiles_lookup in Hin. congruence.
    + apply elem_of_replicate_inv in Hin. lia.
  - rewrite Hx. f_equal. eapply Forall_lookup_1 in Hb; [|exact Hx].
    destruct Hb as [->| ->]; [done|].
    exfalso. apply Hin, elem_of_app. left. by apply set_tiles_lookup.
Qed.

(** ** Dense reconstruction of a mask built without a predicate *)

Lemma kv_indices_data (B H R C : nat) (d : list Z) :
  length d = (B * H * R * C)%nat → Forall is_bit d → Z.of_nat C < 2 ^ 31 →
  tdata (kv_indices_of B H R C d)
  = concat ((fun row => set_tiles row ++ unset_tiles row) <$> grid_rows B H R C d).
Proof.
  intros Hd Hb HC. unfold kv_indices_of, grid_rows. cbn [tdata].
  rewrite fmap_concat, <- list_fmap_compose. f_equal.
  apply (fmap_bit_rows _ _ C); [|by apply chunks_bit_rows].
  intros r Hlen Hr. cbn. by apply (indices_of_bits C).
Qed.

(** [create_dense_one] on the counts and index rows of the [R] rows of one
    batch entry. *)
Lemma create_dense_one_bits (R C : nat) (rs : list (list Z)) :
  length rs = R → bit_rows C rs →
  BlockMask.create_dense_one R C
    ((fun row => Z.of_nat (length (set_tiles row))) <$> rs)
    (concat ((fun row => set_tiles row ++ unset_tiles row) <$> rs))
  = Ok (concat rs).
Proof.
  intros Hlen Hrs. unfold BlockMask.create_dense_one.
  rewrite chunks_concat'.
  - rewrite zip_fmap_same.
    rewrite (mapR_fmap_Ok _ _ id); [by rewrite list_fmap_id|].
    eapply Forall_impl; [exact Hrs|]. intros row [Hrow Hb]. cbn.
    by apply create_dense_row_bits.
  - by rewrite length_fmap.
  - apply Forall_fmap. eapply Forall_impl; [exact Hrs|].
    intros row [Hrow _]. cbn. by rewrite length_tiles.
Qed.

(** On a BlockMask built from a full grid alone (no predicate, hence no
    partial grid), [to_dense] gives the full grid back. *)
Lemma to_dense_without_predicate (full : Tensor) (fn : option PyFn) (KVB QB : Z)
    (B H R C : nat) :
  tshape full = [B; H; R; C] →
  length (tdata full) = (B * H * R * C)%nat →
  Forall is_bit (tdata full) →
  Z.of_nat R < 2 ^ 31 → Z.of_nat C < 2 ^ 31 →
  ∃ bm,
    _create_sparse_block_from_block_mask (full, None) fn KVB QB = Ok bm
    ∧ BlockMask.to_dense bm = Ok (mkTensor Int32 [B; H; R; C] (tdata full)).
Proof.
  intros Hs Hd Hb HR HC. unfold _create_sparse_block_from_block_mask.
  rewrite (inner_eq full B H R C Hs). cbn zeta.
  rewrite (fmap_id_on (cast Int32) is_bit) by (apply cast_bit || done).
  cbn [mbind Result_bind]. rewrite init_ranks by (cbn; lia).
  eexists. split; [reflexivity|].
  set (d := tdata full) in *.
  set (rows := grid_rows B H R C d).
  set (cnt := fun row : list Z => Z.of_nat (length (set_tiles row))).
  set (idx := fun row : list Z => set_tiles row ++ unset_tiles row).
  assert (Hrows : bit_rows C rows) by by apply chunks_bit_rows.
  assert (Hnrows : length rows = (B * H * R)%nat) by apply length_chunks.
  unfold BlockMask.to_dense. cbn [BlockMask.full_kv_num_blocks
    BlockMask.full_q_num_blocks BlockMask.partial_kv_num_blocks
    BlockMask.full_kv_indices].
  change (last_dim (kv_num_blocks_of B H R C d)) with (Ok (A:=nat) R).
  change (last_dim (q_num_blocks_of B H R C d)) with (Ok (A:=nat) C).
  cbn [mbind Result_bind].
  change (zeros [1; 1; 1]%nat Int32)
    with (zeros (replicate (dim (kv_num_blocks_of B H R C d)) 1%nat) Int32).
  assert (Hcounts : tdata (kv_num_blocks_of B H R C d) = cnt <$> rows)
    by by apply kv_num_blocks_bits.
  rewrite tensor_add_zero_placeholder.
  2:{ rewrite Hcounts, length_fmap, Hnrows. cbn. lia. }
  2:{ rewrite Hcounts. apply Forall_fmap. eapply Forall_impl; [exact Hrows|].
      intros row [Hrow _]. unfold cnt. cbn.
      pose proof (length_tiles row) as Ht. rewrite length_app in Ht. lia. }
  cbn [mbind Result_bind tshape tdata kv_num_blocks_of kv_indices_of].
  change (reverse (tail (reverse [B; H; R]))) with [B; H].
  rewrite decide_True by done.
  change (tdata (kv_num_blocks_of B H R C d)) with
    (cast Int32 <$> ((fun row => cast Int64 (zsum row)) <$> chunks (B * H * R) C d))
    in Hcounts.
  rewrite Hcounts.
  pose proof (kv_indices_data B H R C d Hd Hb HC) as Hidx.
  cbn [tdata kv_indices_of] in Hidx. rewrite Hidx. fold rows idx.
  replace (prod_list [B; H]) with (B * H)%nat by (cbn; lia).
  set (srows := chunks (B * H) R rows).
  assert (Hsrows : Forall (fun rs => length rs = R ∧ bit_rows C rs) srows).
  { apply Forall_and. split.
    - apply chunks_lengths. lia.
    - by apply chunks_Forall. }
  assert (Hconcat : concat srows = rows) by (apply concat_chunks; lia).
  rewrite chunks_fmap. fold srows.
  rewrite <- Hconcat at 1. rewrite concat_fmap_concat, chunks_concat'.
  - rewrite zip_fmap_same.
    rewrite (mapR_fmap_Ok _ _ (fun rs : list (list Z) => concat rs)).
    + cbn [mbind Result_bind]. do 2 f_equal.
      rewrite concat_concat_fmap, Hconcat. apply concat_chunks. lia.
    + eapply Forall_impl; [exact Hsrows|]. intros rs [Hlen Hrs]. cbn.
      by apply create_dense_one_bits.
  - rewrite length_fmap. unfold srows. by rewrite length_chunks.
  - apply Forall_fmap. eapply Forall_impl; [exact Hsrows|].
    intros rs [Hlen Hrs]. cbn. rewrite (length_concat_uniform C).
    + by rewrite length_fmap, Hlen.
    + apply Forall_fmap. eapply Forall_impl; [exact Hrs|].
      intros row [Hrow _]. unfold idx. cbn. by rewrite length_tiles.
Qed.

(** The mask [[F,F,T,F]] of the example above, built without a predicate:
    the second tile is then full and [to_dense] gives [0; 1]. *)
Example to_dense_two_tiles_without_predicate :
  ∃ blocks bm,
    _convert_mask_to_block_mask (mkTensor Bool [1; 1; 1; 4]%nat [0; 0; 1; 0]) 2 1 None
    = Ok blocks
    ∧ _create_sparse_block_from_block_mask blocks None 2 1 = Ok bm
    ∧ BlockMask.to_dense bm = Ok (mkTensor Int32 [1; 1; 1; 2]%nat [0; 1]).
Proof. do 2 eexists. repeat split; reflexivity. Qed.

(** ** Dense reconstruction of a mask built with a predicate *)

(** C3: on the mask of one row of two 1 x 2 tiles, the first empty and the
    second partial, built with the predicate [kv_idx == 2], the non-empty
    tiles are [0; 1] but [to_dense] returns [1; 0]: it takes the number of
    full and partial tiles of the row (1) and reads that many entries of the
    full-class index row, whose first entry is the empty tile 0. *)
Theorem to_dense_misplaces_partial_tile :
  ∃ mask full partial bm,
    _create_mask_from_mask_fn third_key 1 1 1 4 = Ok mask
    ∧ tdata mask = [0; 0; 1; 0]
    ∧ _convert_mask_to_block_mask mask 2 1 (Some third_key) = Ok (full, Some partial)
    ∧ tdata full = [0; 0] ∧ tdata partial = [0; 1]
    ∧ create_block_mask third_key 1 1 1 4 2 1 = Ok bm
    ∧ tdata (BlockMask.full_kv_indices bm) = [0; 1]
    ∧ tdata (BlockMask.full_kv_num_blocks bm) = [0]
    ∧ tdata (BlockMask.partial_kv_num_blocks bm) = [1]
    ∧ BlockMask.to_dense bm = Ok (mkTensor Int32 [1; 1; 1; 2]%nat [1; 0]).
Proof. do 4 eexists. repeat split; reflexivity. Qed.

(** ** Tiles and their classification *)

Lemma tile_counts_tiles (B H R C Qb KVb : nat) (d : list Z) :
  tile_counts B H R C Qb KVb d = zsum <$> mask_tiles B H R C Qb KVb d.
Proof.
  unfold tile_counts, mask_tiles. rewrite fmap_concat, <- list_fmap_compose.
  f_equal. apply list_fmap_ext. intros i band _. unfold compose.
  by rewrite <- list_fmap_compose.
Qed.

Lemma mask_tiles_wf (B H R C Qb KVb : nat) (d : list Z) :
  length d = (B * H * (R * Qb) * (C * KVb))%nat → Forall is_bit d →
  length (mask_tiles B H R C Qb KVb d) = (B * H * R * C)%nat
  ∧ bit_rows (Qb * KVb) (mask_tiles B H R C Qb KVb d).
Proof.
  intros Hd Hb. unfold mask_tiles.
  pose proof (chunks_bit_rows (B * H * R) (Qb * (C * KVb)) d ltac:(lia) Hb) as Hbands.
  split.
  - rewrite (length_concat_uniform C).
    + by rewrite length_fmap, length_chunks.
    + apply Forall_fmap, Forall_forall. intros band _. cbn.
      by rewrite length_fmap, length_seq.
  - apply Forall_concat, Forall_fmap. eapply Forall_impl; [exact Hbands|].
    intros band [Hlen Hbits]. cbn. apply Forall_fmap, Forall_forall.
    intros c Hc%elem_of_seq. cbn.
    pose proof (chunks_bit_rows Qb (C * KVb) band Hlen Hbits) as Hrows.
    split.
    + rewrite (length_concat_uniform KVb).
      * unfold tile_of. by rewrite length_fmap, length_chunks.
      * unfold tile_of. apply Forall_fmap. eapply Forall_impl; [exact Hrows|].
        intros row [Hrow _]. cbn. apply (length_tile_row KVb C); [done|lia].
    + apply Forall_concat. unfold tile_of. apply Forall_fmap.
      eapply Forall_impl; [exact Hrows|]. intros row [_ Hrow]. cbn.
      by apply Forall_take, Forall_drop.
Qed.

Lemma zsum_bits_zero (l : list Z) :
  Forall is_bit l → (zsum l = 0 ↔ all_false l).
Proof.
  unfold all_false. induction 1 as [|x l Hx Hl IH]; [done|].
  rewrite zsum_cons, Forall_cons.
  destruct (zsum_bits_full l Hl) as [Hrange _].
  destruct Hx as [-> | ->]; split.
  - intros Hs. split; [done|]. apply IH. lia.
  - intros [_ Hz]. apply IH in Hz. lia.
  - lia.
  - intros [? _]. lia.
Qed.

(** The two grids as functions of the tiles. *)
Lemma classify_tiles (fn : PyFn) (B H R C Qb KVb : nat) (m : Tensor) :
  tdtype m = Bool →
  tshape m = [B; H; (R * Qb)%nat; (C * KVb)%nat] →
  length (tdata m) = (B * H * (R * Qb) * (C * KVb))%nat →
  Forall is_bit (tdata m) →
  (0 < Qb)%nat → (0 < KVb)%nat → Z.of_nat (Qb * KVb) < 2 ^ 63 →
  _convert_mask_to_block_mask m (Z.of_nat KVb) (Z.of_nat Qb) (Some fn)
  = Ok (mkTensor Int8 [B; H; R; C]
          ((fun tile => if zsum tile =? Z.of_nat (Qb * KVb) then 1 else 0)
             <$> mask_tiles B H R C Qb KVb (tdata m)),
        Some (mkTensor Int8 [B; H; R; C]
          ((fun tile => if (0 <? zsum tile) && (zsum tile <? Z.of_nat (Qb * KVb))
                        then 1 else 0)
             <$> mask_tiles B H R C Qb KVb (tdata m)))).
Proof.
  intros Hdt Hs Hd Hb HQb HKVb H63. unfold _convert_mask_to_block_mask.
  rewrite Hdt, bool_decide_eq_true_2 by done. cbn [py_assert mbind Result_bind].
  cbn [tshape _broadcast_to_dim]. rewrite Hs. cbn [pad_shape length Nat.sub replicate app].
  rewrite (py_mod_ne (Z.of_nat (R * Qb)) (Z.of_nat Qb)),
    (py_mod_ne (Z.of_nat (C * KVb)) (Z.of_nat KVb)) by lia.
  rewrite !Nat2Z.inj_mul, !Z.mod_mul by lia.
  cbn [Z.eqb py_assert mbind Result_bind].
  rewrite <- !Nat2Z.inj_mul.
  rewrite (mask_block_sum_tiles _ B H R C Qb KVb);
    [| by cbn [tshape _broadcast_to_dim]; rewrite Hs | done..].
  cbn [mbind Result_bind tdata _broadcast_to_dim].
  destruct (mask_tiles_wf B H R C Qb KVb (tdata m) Hd Hb) as [_ Htiles].
  rewrite tile_counts_tiles.
  unfold to, tensor_test, tensor_and.
  cbn [tshape tdata fmap option_fmap option_map].
  rewrite zip_with_fmap_l, zip_with_fmap_r, zip_with_diag.
  rewrite <- !list_fmap_compose.
  f_equal. f_equal; [|f_equal]; f_equal.
  - apply (fmap_bit_rows _ _ (Qb * KVb)); [|done].
    intros tile Hlen Htile. unfold compose.
    destruct (zsum_bits_full tile Htile) as [Hrange _].
    rewrite cast_Int64_small by lia. rewrite Nat2Z.inj_mul. apply cast_Int8_bit.
  - apply (fmap_bit_rows _ _ (Qb * KVb)); [|done].
    intros tile Hlen Htile. unfold compose.
    destruct (zsum_bits_full tile Htile) as [Hrange _].
    rewrite cast_Int64_small by lia. rewrite Nat2Z.inj_mul.
    by destruct (0 <? zsum tile), (zsum tile <? Z.of_nat Qb * Z.of_nat KVb).
Qed.
Lemma classify_tiles_none (B H R C Qb KVb : nat) (m : Tensor) :
  tdtype m = Bool →
  tshape m = [B; H; (R * Qb)%nat; (C * KVb)%nat] →
  length (tdata m) = (B * H * (R * Qb) * (C * KVb))%nat →
  Forall is_bit (tdata m) →
  (0 < Qb)%nat → (0 < KVb)%nat → Z.of_nat (Qb * KVb) < 2 ^ 63 →
  _convert_mask_to_block_mask m (Z.of_nat KVb) (Z.of_nat Qb) None
  = Ok (mkTensor Int8 [B; H; R; C]
          ((fun tile => if 0 <? zsum tile then 1 else 0)
             <$> mask_tiles B H R C Qb KVb (tdata m)),
        None).
Proof.
  intros Hdt Hs Hd Hb HQb HKVb H63. unfold _convert_mask_to_block_mask.
  rewrite Hdt, bool_decide_eq_true_2 by done. cbn [py_assert mbind Result_bind].
  cbn [tshape _broadcast_to_dim]. rewrite Hs. cbn [pad_shape length Nat.sub replicate app].
  rewrite (py_mod_ne (Z.of_nat (R * Qb)) (Z.of_nat Qb)),
    (py_mod_ne (Z.of_nat (C * KVb)) (Z.of_nat KVb)) by lia.
  rewrite !Nat2Z.inj_mul, !Z.mod_mul by lia.
  cbn [Z.eqb py_assert mbind Result_bind].
  rewrite <- ?Nat2Z.inj_mul.
  rewrite (mask_block_sum_tiles _ B H R C Qb KVb);
    [| by cbn [tshape _broadcast_to_dim]; rewrite Hs | done..].
  cbn [mbind Result_bind tdata _broadcast_to_dim].
  destruct (mask_tiles_wf B H R C Qb KVb (tdata m) Hd Hb) as [_ Htiles].
  rewrite tile_counts_tiles.
  unfold to, tensor_test.
  cbn [tshape tdata fmap option_fmap option_map].
  rewrite <- !list_fmap_compose. do 3 f_equal.
  apply (fmap_bit_rows _ _ (Qb * KVb)); [|done].
  intros tile Hlen Htile. unfold compose.
  destruct (zsum_bits_full tile Htile) as [Hrange _].
  rewrite cast_Int64_small by lia. apply cast_Int8_bit.
Qed.

(** X1: with a mask predicate, every tile of a boolean mask is classified by
    its content: it is in the full grid exactly when all its elements are
    true, in the partial grid exactly when it has a true and a false element,
    and in neither exactly when all its elements are false.  (Masks written
    as [R x C] tiles of [Qb x KVb] elements, [Qb * KVb < 2^63].) *)
Theorem tiles_classified_by_content (fn : PyFn) (B H R C Qb KVb : nat) (m : Tensor) :
  tdtype m = Bool →
  tshape m = [B; H; (R * Qb)%nat; (C * KVb)%nat] →
  length (tdata m) = (B * H * (R * Qb) * (C * KVb))%nat →
  Forall is_bit (tdata m) →
  (0 < Qb)%nat → (0 < KVb)%nat → Z.of_nat (Qb * KVb) < 2 ^ 63 →
  ∃ full partial,
    _convert_mask_to_block_mask m (Z.of_nat KVb) (Z.of_nat Qb) (Some fn)
    = Ok (full, Some partial)
    ∧ tshape full = [B; H; R; C] ∧ tshape partial = [B; H; R; C]
    ∧ ∀ i tile, mask_tiles B H R C Qb KVb (tdata m) !! i = Some tile →
        ∃ f p, tdata full !! i = Some f ∧ tdata partial !! i = Some p
          ∧ (f = 1 ↔ all_true tile)
          ∧ (p = 1 ↔ ¬ all_true tile ∧ ¬ all_false tile)
          ∧ (f = 0 ∧ p = 0 ↔ all_false tile).
Proof.
  intros Hdt Hs Hd Hb HQb HKVb H63. do 2 eexists.
  split; [by apply classify_tiles|]. split; [done|]. split; [done|].
  intros i tile Htile. cbn [tdata]. rewrite !list_lookup_fmap, Htile. cbn.
  do 2 eexists. split; [done|]. split; [done|].
  destruct (mask_tiles_wf B H R C Qb KVb (tdata m) Hd Hb) as [_ Htiles].
  eapply Forall_lookup_1 in Htiles as [Hlen Hbits]; [|exact Htile].
  destruct (zsum_bits_full tile Hbits) as [Hrange Hall].
  pose proof (zsum_bits_zero tile Hbits) as Hnone.
  rewrite Hlen in Hrange, Hall. fold (all_true tile) in Hall.
  assert (Hpos : 0 < Z.of_nat (Qb * KVb)) by nia.
  assert (Htrue : all_true tile ↔ zsum tile = Z.of_nat (Qb * KVb)) by tauto.
  assert (Hfalse : all_false tile ↔ zsum tile = 0) by tauto.
  clear Hall Hnone.
  destruct (Z.eqb_spec (zsum tile) (Z.of_nat (Qb * KVb))) as [Heq|Hne];
    destruct (Z.ltb_spec 0 (zsum tile)) as [Hgt|Hle];
    destruct (Z.ltb_spec (zsum tile) (Z.of_nat (Qb * KVb))) as [Hlt|Hge];
    cbn [andb]; rewrite Htrue, Hfalse; split_and?; split; intros; destruct_and?;
    try lia; try done; split_and?; try lia.
Qed.

(** X2: without a mask predicate, a tile of a boolean mask is in the full
    grid exactly when at least one of its elements is true, and there is no
    partial grid. *)
Theorem tiles_without_predicate_by_content (B H R C Qb KVb : nat) (m : Tensor) :
  tdtype m = Bool →
  tshape m = [B; H; (R * Qb)%nat; (C * KVb)%nat] →
  length (tdata m) = (B * H * (R * Qb) * (C * KVb))%nat →
  Forall is_bit (tdata m) →
  (0 < Qb)%nat → (0 < KVb)%nat → Z.of_nat (Qb * KVb) < 2 ^ 63 →
  ∃ full,
    _convert_mask_to_block_mask m (Z.of_nat KVb) (Z.of_nat Qb) None = Ok (full, None)
    ∧ tshape full = [B; H; R; C]
    ∧ ∀ i tile, mask_tiles B H R C Qb KVb (tdata m) !! i = Some tile →
        ∃ f, tdata full !! i = Some f
          ∧ (f = 1 ↔ ¬ all_false tile) ∧ (f = 0 ↔ all_false tile).
Proof.
  intros Hdt Hs Hd Hb HQb HKVb H63. eexists.
  split; [by apply classify_tiles_none|]. split; [done|].
  intros i tile Htile. cbn [tdata]. rewrite !list_lookup_fmap, Htile. cbn.
  eexists. split; [done|].
  destruct (mask_tiles_wf B H R C Qb KVb (tdata m) Hd Hb) as [_ Htiles].
  eapply Forall_lookup_1 in Htiles as [Hlen Hbits]; [|exact Htile].
  destruct (zsum_bits_full tile Hbits) as [Hrange _].
  pose proof (zsum_bits_zero tile Hbits) as Hnone.
  assert (Hfalse : all_false tile ↔ zsum tile = 0) by tauto. clear Hnone.
  destruct (Z.ltb_spec 0 (zsum tile)) as [Hgt|Hle];
    rewrite Hfalse; split_and?; split; intros; try lia; try done.
Qed.

(** One row of four elements, [0 0 1 0], in tiles of 1 x 2, under the
    predicate [kv_idx == 2]. *)
Lemma tiles_classified_by_content_1x4 :
  ∃ full partial,
    _convert_mask_to_block_mask (mkTensor Bool [1; 1; 1; 4]%nat [0; 0; 1; 0])
      (Z.of_nat 2) (Z.of_nat 1) (Some third_key)
    = Ok (full, Some partial)
    ∧ tshape full = [1; 1; 1; 2]%nat ∧ tshape partial = [1; 1; 1; 2]%nat
    ∧ ∀ i tile, mask_tiles 1 1 1 2 1 2 [0; 0; 1; 0] !! i = Some tile →
        ∃ f p, tdata full !! i = Some f ∧ tdata partial !! i = Some p
          ∧ (f = 1 ↔ all_true tile)
          ∧ (p = 1 ↔ ¬ all_true tile ∧ ¬ all_false tile)
          ∧ (f = 0 ∧ p = 0 ↔ all_false tile).
Proof.
  apply (tiles_classified_by_content third_key 1 1 1 2 1 2
           (mkTensor Bool [1; 1; 1; 4]%nat [0; 0; 1; 0]));
    [reflexivity | reflexivity | reflexivity | solve_bits | lia | lia | by vm_compute].
Defined.

(** The same row without a predicate. *)
Lemma tiles_without_predicate_by_content_1x4 :
  ∃ full,
    _convert_mask_to_block_mask (mkTensor Bool [1; 1; 1; 4]%nat [0; 0; 1; 0])
      (Z.of_nat 2) (Z.of_nat 1) None = Ok (full, None)
    ∧ tshape full = [1; 1; 1; 2]%nat
    ∧ ∀ i tile, mask_tiles 1 1 1 2 1 2 [0; 0; 1; 0] !! i = Some tile →
        ∃ f, tdata full !! i = Some f
          ∧ (f = 1 ↔ ¬ all_false tile) ∧ (f = 0 ↔ all_false tile).
Proof.
  apply (tiles_without_predicate_by_content 1 1 1 2 1 2
           (mkTensor Bool [1; 1; 1; 4]%nat [0; 0; 1; 0]));
    [reflexivity | reflexivity | reflexivity | solve_bits | lia | lia | by vm_compute].
Defined.

(** X3: the two grids of a conversion with a predicate have one shape, hold
    only 0 and 1, and no tile is in both (whatever the elements of the mask
    tensor are). *)
Theorem full_and_partial_are_disjoint (mask : Tensor) (KVB QB : Z) (fn : option PyFn)
    (full partial : Tensor) :
  _convert_mask_to_block_mask mask KVB QB fn = Ok (full, Some partial) →
  tshape full = tshape partial
  ∧ length (tdata full) = length (tdata partial)
  ∧ Forall is_bit (tdata full) ∧ Forall is_bit (tdata partial)
  ∧ ∀ i f p, tdata full !! i = Some f → tdata partial !! i = Some p →
      ¬ (f = 1 ∧ p = 1).
Proof.
  intros Hconv.
  apply convert_Ok in Hconv as (B & H & Q & KV & sums & _ & _ & _ & _ & _ & _ & _ & Hc).
  pose proof (classify_wf fn KVB QB sums) as Hwf. cbn zeta in Hwf.
  rewrite <- Hc in Hwf. cbn [fst snd] in Hwf.
  destruct Hwf as (Hfs & Hfl & Hfb & Hps & Hpl & Hpb & Hdisj).
  split; [congruence|]. split; [congruence|]. split; [done|]. split; [done|].
  intros i f p Hf Hp [-> ->].
  eapply Forall2_lookup_lr in Hdisj; [|exact Hf|exact Hp]. cbn in Hdisj. lia.
Qed.

Lemma full_and_partial_are_disjoint_example :
  tshape (mkTensor Int8 [1; 1; 1; 2]%nat [0; 0]) = tshape (mkTensor Int8 [1; 1; 1; 2]%nat [0; 1])
  ∧ length [0; 0] = length [0; 1]
  ∧ Forall is_bit [0; 0] ∧ Forall is_bit [0; 1]
  ∧ ∀ i f p, [0; 0] !! i = Some f → [0; 1] !! i = Some p → ¬ (f = 1 ∧ p = 1).
Proof.
  apply (full_and_partial_are_disjoint
           (mkTensor Bool [1; 1; 1; 4]%nat [0; 0; 1; 0]) 2 1 (Some third_key)
           (mkTensor Int8 [1; 1; 1; 2]%nat [0; 0])
           (mkTensor Int8 [1; 1; 1; 2]%nat [0; 1])).
  reflexivity.
Defined.

(** The conversion on the extents it accepts. *)
Lemma convert_eq (mask : Tensor) (KVB QB : Z) (fn : option PyFn) (B H Q KV : nat) :
  tdtype mask = Bool →
  pad_shape 4 (tshape mask) = [B; H; Q; KV] →
  0 < QB → 0 < KVB →
  (QB | Z.of_nat Q) → (KVB | Z.of_nat KV) →
  ∃ sums,
    mask_block_sum (_broadcast_to_dim mask 4) B H Q KV KVB QB = Ok sums
    ∧ _convert_mask_to_block_mask mask KVB QB fn = Ok (classify fn KVB QB sums).
Proof.
  intros Hd Hs HQB HKVB [r Hr] [c Hc].
  assert (Hr0 : 0 ≤ r) by nia. assert (Hc0 : 0 ≤ c) by nia.
  assert (Hqd : Z.of_nat Q / QB = r) by (rewrite Hr; apply Z.div_mul; lia).
  assert (Hkd : Z.of_nat KV / KVB = c) by (rewrite Hc; apply Z.div_mul; lia).
  assert (Hsums : ∃ sums,
    mask_block_sum (_broadcast_to_dim mask 4) B H Q KV KVB QB = Ok sums).
  { unfold mask_block_sum. rewrite !py_floordiv_ne by lia. cbn [mbind Result_bind].
    rewrite Hqd, Hkd. unfold view.
    assert (Hnn : forallb (λ n, 0 <=? n)
              [Z.of_nat B; Z.of_nat H; r; QB; c; KVB] = true).
    { cbn. repeat (apply andb_true_iff; split); try apply Z.leb_le; try lia; done. }
    rewrite Hnn. cbn [tshape _broadcast_to_dim]. rewrite Hs.
    rewrite decide_True.
    2:{ cbn. rewrite !Nat2Z.id.
        assert (Q = (Z.to_nat r * Z.to_nat QB)%nat) as -> by nia.
        assert (KV = (Z.to_nat c * Z.to_nat KVB)%nat) as -> by nia. lia. }
    cbn. eexists. reflexivity. }
  destruct Hsums as (sums & Hsums). exists sums. split; [done|].
  unfold _convert_mask_to_block_mask.
  rewrite Hd, bool_decide_eq_true_2 by done. cbn [py_assert mbind Result_bind].
  cbn [tshape _broadcast_to_dim]. rewrite Hs.
  rewrite (py_mod_ne (Z.of_nat Q) QB), (py_mod_ne (Z.of_nat KV) KVB) by lia.
  assert (Z.of_nat Q mod QB = 0) as -> by (rewrite Hr; apply Z.mod_mul; lia).
  assert (Z.of_nat KV mod KVB = 0) as -> by (rewrite Hc; apply Z.mod_mul; lia).
  cbn [Z.eqb py_assert mbind Result_bind].
  rewrite Hsums. cbn [mbind Result_bind]. unfold classify. by destruct fn.
Qed.

(** X4: [_convert_mask_to_block_mask] succeeds exactly on a bool tensor of
    at most four dimensions with positive block sizes that divide the query
    and key extents; a zero or negative block size, a non-bool tensor, a
    fifth dimension or an indivisible extent each make it raise. *)
Theorem convert_succeeds_iff (mask : Tensor) (KVB QB : Z) (fn : option PyFn) :
  is_ok (_convert_mask_to_block_mask mask KVB QB fn) = true
  ↔ tdtype mask = Bool
    ∧ ∃ B H Q KV, pad_shape 4 (tshape mask) = [B; H; Q; KV]
        ∧ 0 < QB ∧ 0 < KVB ∧ (QB | Z.of_nat Q) ∧ (KVB | Z.of_nat KV).
Proof.
  split.
  - destruct (_convert_mask_to_block_mask mask KVB QB fn) as [blocks|] eqn:Hconv;
      [intros _ | discriminate].
    apply convert_Ok in Hconv
      as (B & H & Q & KV & sums & Hd & Hs & HQB & HKVB & Hq & Hk & Hsums & _).
    apply mask_block_sum_Ok in Hsums as (HQB' & HKVB' & _); [|done..].
    split; [done|]. exists B, H, Q, KV. split; [done|].
    split; [done|]. split; [done|].
    split; apply Z.mod_divide; done || lia.
  - intros (Hd & B & H & Q & KV & Hs & HQB & HKVB & Hq & Hk).
    destruct (convert_eq mask KVB QB fn B H Q KV Hd Hs HQB HKVB Hq Hk)
      as (sums & _ & ->). done.
Qed.

(** ** The builder, step by step *)

Lemma evaluated_mask_shape (fn : PyFn) (B H M N : nat) (mask : Tensor) :
  evaluated_mask fn B H M N = Ok mask → tshape mask = [B; H; M; N].
Proof.
  unfold evaluated_mask, _create_mask_from_score_mod, _create_mask_from_mask_fn.
  destruct (required_parameters fn =? 5)%nat; intros Hm;
    inv_bind Hm as out Hout; by injection Hm as <-.
Qed.

Lemma create_block_mask_eq (fn : PyFn) (B H M N : nat) (KVB QB : Z) :
  create_block_mask fn B H M N KVB QB
  = (mask ← evaluated_mask fn B H M N;
     blocks ← _convert_mask_to_block_mask mask KVB QB (retained_predicate fn);
     _create_sparse_block_from_block_mask blocks (retained_predicate fn) 128 128).
Proof.
  unfold create_block_mask, _create_block_mask_inner, evaluated_mask, retained_predicate.
  destruct (required_parameters fn =? 5)%nat.
  - by destruct (_create_mask_from_score_mod fn B H M N).
  - by destruct (_create_mask_from_mask_fn fn B H M N).
Qed.

Lemma create_sparse_Ok (full : Tensor) (partial : option Tensor) (fn : option PyFn)
    (KVB QB : Z) (bm : BlockMask.t) :
  _create_sparse_block_from_block_mask (full, partial) fn KVB QB = Ok bm →
  ∃ B H R C,
    tshape full = [B; H; R; C]
    ∧ tshape (BlockMask.full_kv_num_blocks bm) = [B; H; R]
    ∧ tshape (BlockMask.full_kv_indices bm) = [B; H; R; C]
    ∧ tshape (BlockMask.full_q_num_blocks bm) = [B; H; C]
    ∧ tshape (BlockMask.full_q_indices bm) = [B; H; C; R]
    ∧ BlockMask.KV_BLOCK_SIZE bm = KVB ∧ BlockMask.Q_BLOCK_SIZE bm = QB
    ∧ BlockMask.mask_fn bm = fn.
Proof.
  unfold _create_sparse_block_from_block_mask. intros Hc.
  inv_bind Hc as full_bm Hfull. inv_bind Hc as partial_bm Hpartial.
  apply inner_Ok in Hfull as (B & H & R & C & Hs & ->).
  destruct partial_bm as [[[p0 p1] p2] p3].
  apply init_Ok in Hc as ->. exists B, H, R, C. by repeat split.
Qed.

(** X5: the block sizes given to [create_block_mask] are used to cut the
    mask into tiles but are not passed on to the BlockMask, which always
    carries the default 128 for both; its shape is therefore the tile counts
    times 128, and it is the shape [(B, H, M, N)] of the mask when both block
    sizes are 128. *)
Theorem create_block_mask_block_sizes (fn : PyFn) (B H M N : nat) (KVB QB : Z)
    (bm : BlockMask.t) :
  create_block_mask fn B H M N KVB QB = Ok bm →
  BlockMask.KV_BLOCK_SIZE bm = 128 ∧ BlockMask.Q_BLOCK_SIZE bm = 128
  ∧ BlockMask.shape bm
    = Ok [Z.of_nat B; Z.of_nat H; Z.of_nat M / QB * 128; Z.of_nat N / KVB * 128]
  ∧ (QB = 128 → KVB = 128 →
     BlockMask.shape bm = Ok [Z.of_nat B; Z.of_nat H; Z.of_nat M; Z.of_nat N]
     ∧ BlockMask.numel bm = Ok (Z.of_nat (B * H * M * N))).
Proof.
  rewrite create_block_mask_eq. intros Hc.
  inv_bind Hc as mask Hmask. inv_bind Hc as blocks Hblocks.
  apply evaluated_mask_shape in Hmask.
  apply convert_Ok in Hblocks
    as (B' & H' & Q & KV & sums & _ & Hs & HQB & HKVB & Hq & Hk & Hsums & ->).
  rewrite Hmask in Hs. injection Hs as <- <- <- <-.
  apply mask_block_sum_Ok in Hsums as (HQB' & HKVB' & _ & Hshape & _); [|done..].
  pose proof (classify_wf (retained_predicate fn) KVB QB sums) as Hwf. cbn zeta in Hwf.
  destruct (classify (retained_predicate fn) KVB QB sums) as [full partial].
  cbn [fst snd] in Hwf. destruct Hwf as (Hfs & _).
  apply create_sparse_Ok in Hc
    as (B' & H' & R & C & Hfs' & Hs1 & Hs2 & Hs3 & _ & HK & HQs & _).
  rewrite Hfs, Hshape in Hfs'. injection Hfs' as <- <- <- <-.
  split; [done|]. split; [done|].
  assert (Hshape' : BlockMask.shape bm
    = Ok [Z.of_nat B; Z.of_nat H; Z.of_nat M / QB * 128; Z.of_nat N / KVB * 128]).
  { rewrite (shape_eq bm [B; H] (Z.to_nat (Z.of_nat M / QB)) (Z.to_nat (Z.of_nat N / KVB))
               (Z.to_nat (Z.of_nat M / QB)) (Z.to_nat (Z.of_nat N / KVB)));
      [| done | unfold last_dim; by rewrite Hs1 | unfold last_dim; by rewrite Hs3].
    rewrite HK, HQs. cbn [fmap list_fmap app].
    rewrite !Z2Nat.id by (apply Z.div_pos; lia). done. }
  split; [done|]. intros -> ->.
  assert (HM : Z.of_nat M / 128 * 128 = Z.of_nat M).
  { apply Z.mod_divide in Hq as [k ->]; [|lia]. by rewrite Z.div_mul. }
  assert (HN : Z.of_nat N / 128 * 128 = Z.of_nat N).
  { apply Z.mod_divide in Hk as [k ->]; [|lia]. by rewrite Z.div_mul. }
  rewrite HM, HN in Hshape'. split; [done|].
  unfold BlockMask.numel. rewrite Hshape'. cbn. f_equal. lia.
Qed.

(** The predicate [kv_idx == 2] over 1 x 4 elements, in tiles of 1 x 2. *)
Lemma create_block_mask_block_sizes_example :
  ∃ bm, create_block_mask third_key 1 1 1 4 2 1 = Ok bm
    ∧ BlockMask.KV_BLOCK_SIZE bm = 128 ∧ BlockMask.Q_BLOCK_SIZE bm = 128
    ∧ BlockMask.shape bm = Ok [1; 1; 128; 256].
Proof.
  eexists. split; [reflexivity|].
  destruct (create_block_mask_block_sizes third_key 1 1 1 4 2 1 _ eq_refl)
    as (HK & HQ & Hs & _).
  split; [exact HK|]. split; [exact HQ|]. exact Hs.
Defined.

(** X6: a function that cannot take the arguments it is called with makes
    [create_block_mask] raise [TypeError]: five arguments when it has exactly
    five default-less parameters, four otherwise.  A predicate with four
    parameters and a [**kwargs] counts five of them, is called as a score
    modifier and fails to bind. *)
Theorem create_block_mask_unbound (fn : PyFn) (B H M N : nat) (KVB QB : Z) :
  binds fn (if (required_parameters fn =? 5)%nat then 5 else 4)%nat = false →
  create_block_mask fn B H M N KVB QB = Err TypeError.
Proof.
  intros Hb. rewrite create_block_mask_eq.
  unfold evaluated_mask, _create_mask_from_score_mod, _create_mask_from_mask_fn,
    vmap_call.
  destruct (required_parameters fn =? 5)%nat; by rewrite Hb.
Qed.

Lemma create_block_mask_unbound_kwargs :
  required_parameters causal_kwargs = 5%nat
  ∧ create_block_mask causal_kwargs 1 1 128 128 128 128 = Err TypeError.
Proof.
  split; [reflexivity|].
  apply (create_block_mask_unbound causal_kwargs 1 1 128 128 128 128). reflexivity.
Defined.

(** X7: a function taken for a mask predicate (not exactly five default-less
    parameters) that returns something other than a boolean at some index
    gives a non-bool mask tensor, and [create_block_mask] fails on the dtype
    [assert] of the conversion. *)
Theorem create_block_mask_non_bool_predicate (fn : PyFn) (B H M N : nat) (KVB QB : Z)
    (idx : list Z) :
  required_parameters fn ≠ 5%nat →
  binds fn 4 = true →
  idx ∈ coordinates B H M N → is_bool (body fn idx) = false →
  create_block_mask fn B H M N KVB QB = Err AssertionError.
Proof.
  intros Hreq Hb Hidx Hnb. rewrite create_block_mask_eq.
  unfold evaluated_mask, retained_predicate.
  apply Nat.eqb_neq in Hreq. rewrite Hreq.
  unfold _create_mask_from_mask_fn, vmap_call. rewrite Hb.
  cbn [mbind Result_bind].
  assert (Hall : forallb is_bool (body fn <$> coordinates B H M N) = false).
  { apply not_true_is_false. intros Hall.
    apply Is_true_eq_left, forallb_True in Hall.
    rewrite Forall_fmap, Forall_forall in Hall.
    specialize (Hall idx Hidx). cbn in Hall. rewrite Hnb in Hall. done. }
  rewrite Hall. reflexivity.
Qed.

Lemma create_block_mask_non_bool_predicate_distance :
  create_block_mask distance 1 1 1 1 128 128 = Err AssertionError.
Proof.
  apply (create_block_mask_non_bool_predicate distance 1 1 1 1 128 128 [0; 0; 0; 0]);
    [discriminate | reflexivity | by apply list_elem_of_here | reflexivity].
Defined.

(** ** The default mask *)

Lemma sparsity_cases (bm : BlockMask.t) (B H R C : nat) :
  tshape (BlockMask.full_kv_indices bm) = [B; H; R; C] →
  tshape (BlockMask.full_kv_num_blocks bm) = [B; H; R] →
  tshape (BlockMask.full_q_num_blocks bm) = [B; H; C] →
  let total :=
    Z.of_nat (B * H * R * C) * (BlockMask.KV_BLOCK_SIZE bm * BlockMask.Q_BLOCK_SIZE bm) in
  let computed :=
    (sum_all (BlockMask.full_kv_num_blocks bm)
     + sum_all (BlockMask.partial_kv_num_blocks bm))
    * (BlockMask.KV_BLOCK_SIZE bm * BlockMask.Q_BLOCK_SIZE bm) in
  BlockMask.sparsity bm
  = if total =? 0 then Err ZeroDivisionError
    else Ok (100 * (1 - inject_Z computed / inject_Z total))%Q.
Proof.
  intros Hs1 Hs2 Hs3 total computed.
  destruct (Z.eqb_spec total 0) as [Hz|Hnz]; [|by apply sparsity_eq].
  unfold BlockMask.sparsity, BlockMask.numel.
  rewrite (shape_eq bm [B; H] R C R C) by (done || (unfold last_dim; by rewrite ?Hs2, ?Hs3)).
  cbn [mbind Result_bind fmap list_fmap app zprod foldr].
  assert (Ht : Z.of_nat B * (Z.of_nat H * (Z.of_nat R * BlockMask.KV_BLOCK_SIZE bm
              * (Z.of_nat C * BlockMask.Q_BLOCK_SIZE bm * 1))) = total)
    by (unfold total; lia).
  rewrite Ht, Hz. done.
Qed.

(** X8: for a query and a key of at least two dimensions, the default mask
    of [_create_empty_block_mask] is one full tile with [Q_BLOCK_SIZE] the
    query length and [KV_BLOCK_SIZE] the key length, it holds
    [q_len * kv_len] elements, [to_dense] is the single tile 1, and its
    sparsity is 0 when both lengths are positive and a division by zero
    when one of them is 0. *)
Theorem empty_block_mask_is_one_full_tile (query key value : Tensor) (q_len kv_len : nat) :
  size_m2 query = Ok q_len → size_m2 key = Ok kv_len →
  ∃ bm,
    _create_empty_block_mask query key value = Ok bm
    ∧ BlockMask.Q_BLOCK_SIZE bm = Z.of_nat q_len
    ∧ BlockMask.KV_BLOCK_SIZE bm = Z.of_nat kv_len
    ∧ BlockMask.numel bm = Ok (Z.of_nat (q_len * kv_len))
    ∧ BlockMask.to_dense bm = Ok (mkTensor Int32 [1; 1; 1; 1]%nat [1])
    ∧ ((0 < q_len)%nat → (0 < kv_len)%nat →
       ∃ s, BlockMask.sparsity bm = Ok s ∧ (s == 0)%Q)
    ∧ ((q_len = 0 ∨ kv_len = 0)%nat → BlockMask.sparsity bm = Err ZeroDivisionError).
Proof.
  intros Hq Hk. unfold _create_empty_block_mask. rewrite Hk, Hq.
  cbn [mbind Result_bind]. rewrite init_ranks by (cbn; lia).
  eexists. split; [reflexivity|]. split; [done|]. split; [done|].
  split; [cbn; f_equal; lia|]. split; [reflexivity|].
  assert (Hs : BlockMask.sparsity
    (BlockMask.mk (ones [1; 1; 1]%nat Int32) (zeros [1; 1; 1; 1]%nat Int32)
       (ones [1; 1; 1]%nat Int32) (zeros [1; 1; 1; 1]%nat Int32)
       (zeros [1; 1; 1]%nat Int32) (zeros [1; 1; 1; 1]%nat Int32)
       (zeros [1; 1; 1]%nat Int32) (zeros [1; 1; 1; 1]%nat Int32)
       (Z.of_nat kv_len) (Z.of_nat q_len) None)
    = (if Z.of_nat kv_len * Z.of_nat q_len =? 0 then Err ZeroDivisionError
       else Ok (100 * (1 - inject_Z (Z.of_nat kv_len * Z.of_nat q_len)
                           / inject_Z (Z.of_nat kv_len * Z.of_nat q_len)))%Q)).
  { rewrite (sparsity_cases _ 1 1 1 1) by done.
    cbn [BlockMask.KV_BLOCK_SIZE BlockMask.Q_BLOCK_SIZE BlockMask.full_kv_num_blocks
         BlockMask.partial_kv_num_blocks].
    change (sum_all (ones [1; 1; 1]%nat Int32)) with 1.
    change (sum_all (zeros [1; 1; 1]%nat Int32)) with 0.
    change (Z.of_nat (1 * 1 * 1 * 1)) with 1. rewrite Z.add_0_r, !Z.mul_1_l. done. }
  split.
  - intros Hq0 Hk0. rewrite Hs.
    destruct (Z.eqb_spec (Z.of_nat kv_len * Z.of_nat q_len) 0) as [Hz|Hz]; [nia|].
    eexists. split; [reflexivity|].
    assert (Hpos : (0 < inject_Z (Z.of_nat kv_len * Z.of_nat q_len))%Q).
    { change (inject_Z 0 < inject_Z (Z.of_nat kv_len * Z.of_nat q_len))%Q.
      rewrite <- Zlt_Qlt. nia. }
    unfold Qdiv. rewrite Qmult_inv_r by lra. lra.
  - intros Hz. rewrite Hs.
    destruct (Z.eqb_spec (Z.of_nat kv_len * Z.of_nat q_len) 0) as [_|Hnz]; [done|].
    exfalso. nia.
Qed.

(** A query of 256 positions and a key of 128. *)
Lemma empty_block_mask_is_one_full_tile_256_128 :
  ∃ bm,
    _create_empty_block_mask (zeros [1; 1; 256; 1]%nat Float32)
      (zeros [1; 1; 128; 1]%nat Float32) (zeros [1; 1; 128; 1]%nat Float32) = Ok bm
    ∧ BlockMask.Q_BLOCK_SIZE bm = Z.of_nat 256
    ∧ BlockMask.KV_BLOCK_SIZE bm = Z.of_nat 128
    ∧ BlockMask.numel bm = Ok (Z.of_nat (256 * 128))
    ∧ BlockMask.to_dense bm = Ok (mkTensor Int32 [1; 1; 1; 1]%nat [1])
    ∧ ((0 < 256)%nat → (0 < 128)%nat →
       ∃ s, BlockMask.sparsity bm = Ok s ∧ (s == 0)%Q)
    ∧ ((256 = 0 ∨ 128 = 0)%nat → BlockMask.sparsity bm = Err ZeroDivisionError).
Proof.
  apply (empty_block_mask_is_one_full_tile (zeros [1; 1; 256; 1]%nat Float32)
           (zeros [1; 1; 128; 1]%nat Float32) (zeros [1; 1; 128; 1]%nat Float32)
           256 128); reflexivity.
Defined.

(** ** Sparsity as a share of tiles *)

(** The grids of a successful conversion of a mask below [2^31] queries and
    keys. *)
Lemma converted_grids_wf (mask : Tensor) (fn : option PyFn) (KVB QB : Z)
    (B H Q KV : nat) (full : Tensor) (partial : option Tensor) :
  pad_shape 4 (tshape mask) = [B; H; Q; KV] →
  Z.of_nat Q < 2 ^ 31 → Z.of_nat KV < 2 ^ 31 →
  _convert_mask_to_block_mask mask KVB QB fn = Ok (full, partial) →
  ∃ R C,
    Z.of_nat Q = Z.of_nat R * QB ∧ Z.of_nat KV = Z.of_nat C * KVB
    ∧ 0 < QB ∧ 0 < KVB
    ∧ Z.of_nat R < 2 ^ 31 ∧ Z.of_nat C < 2 ^ 31
    ∧ tshape full = [B; H; R; C]
    ∧ length (tdata full) = (B * H * R * C)%nat
    ∧ Forall is_bit (tdata full)
    ∧ match partial with
      | Some p => tshape p = [B; H; R; C] ∧ length (tdata p) = (B * H * R * C)%nat
                  ∧ Forall is_bit (tdata p)
                  ∧ Forall2 (fun f q => f + q ≤ 1) (tdata full) (tdata p)
      | None => True
      end.
Proof.
  intros Hs HQ31 HKV31 Hconv.
  apply convert_Ok in Hconv
    as (B' & H' & Q' & KV' & sums & _ & Hs' & HQB0 & HKVB0 & Hqm & Hkm & Hsums & Hc).
  rewrite Hs in Hs'. injection Hs' as <- <- <- <-.
  apply mask_block_sum_Ok in Hsums as (HQB & HKVB & _ & Hshape & Hlen); [|done..].
  exists (Z.to_nat (Z.of_nat Q / QB)), (Z.to_nat (Z.of_nat KV / KVB)).
  apply Z.mod_divide in Hqm as [r Hr]; [|lia].
  apply Z.mod_divide in Hkm as [c Hk]; [|lia].
  assert (Z.of_nat Q / QB = r) as Hdr by (rewrite Hr; apply Z.div_mul; lia).
  assert (Z.of_nat KV / KVB = c) as Hdc by (rewrite Hk; apply Z.div_mul; lia).
  rewrite Hdr, Hdc in *.
  assert (0 ≤ r) by nia. assert (0 ≤ c) by nia.
  rewrite !Z2Nat.id by done.
  split; [done|]. split; [done|]. split; [done|]. split; [done|].
  split; [nia|]. split; [nia|].
  pose proof (classify_wf fn KVB QB sums) as Hwf. cbn zeta in Hwf.
  rewrite <- Hc in Hwf. cbn [fst snd] in Hwf.
  destruct Hwf as (Hfs & Hfl & Hfb & Hpartial).
  rewrite Hshape in Hfs. rewrite Hlen in Hfl.
  split; [done|]. split; [done|]. split; [done|].
  destruct partial as [p|]; [|done].
  destruct Hpartial as (Hps & Hpl & Hpb & Hdisj). by rewrite Hps, Hpl, Hshape, Hlen.
Qed.

Section share.
Local Open Scope Q_scope.

Lemma share_of_empty (c n k : Z) :
  (0 < n)%Z → (0 < k)%Z →
  100 * (1 - inject_Z (c * k) / inject_Z (n * k))
  == 100 * inject_Z (n - c) / inject_Z n.
Proof.
  intros Hn Hk.
  assert (Hn' : ~ inject_Z n == 0).
  { intros Heq. assert (n = 0)%Z by (by apply inject_Z_injective). lia. }
  assert (Hk' : ~ inject_Z k == 0).
  { intros Heq. assert (k = 0)%Z by (by apply inject_Z_injective). lia. }
  unfold Z.sub. rewrite !inject_Z_mult, inject_Z_plus, inject_Z_opp. by field.
Qed.

End share.

Lemma numel_eq (bm : BlockMask.t) (B H R C : nat) :
  tshape (BlockMask.full_kv_indices bm) = [B; H; R; C] →
  tshape (BlockMask.full_kv_num_blocks bm) = [B; H; R] →
  tshape (BlockMask.full_q_num_blocks bm) = [B; H; C] →
  BlockMask.numel bm
  = Ok (Z.of_nat (B * H * R * C)
        * (BlockMask.KV_BLOCK_SIZE bm * BlockMask.Q_BLOCK_SIZE bm)).
Proof.
  intros Hs1 Hs2 Hs3. unfold BlockMask.numel.
  rewrite (shape_eq bm [B; H] R C R C) by (done || (unfold last_dim; by rewrite ?Hs2, ?Hs3)).
  cbn [mbind Result_bind fmap list_fmap app zprod foldr]. f_equal. lia.
Qed.

(** X9: the two integers that [sparsity] divides, for a BlockMask built (with
    positive block sizes) from the grids of a dense mask of non-zero extents.
    The total size is the number of tiles times the area of a block, the
    computed size is the number of tiles that are full or partial times the
    same area: the dense ratio is the share of computed tiles, whatever the
    block sizes.  There is at least one tile, at most all tiles are computed,
    and [sparsity] does not raise. *)
Theorem sparsity_divides_tile_counts (mask : Tensor) (fn : option PyFn)
    (KVB0 QB0 KVB QB : Z) (B H Q KV : nat) (full : Tensor) (partial : option Tensor) :
  pad_shape 4 (tshape mask) = [B; H; Q; KV] →
  (0 < B)%nat → (0 < H)%nat → (0 < Q)%nat → (0 < KV)%nat →
  Z.of_nat Q < 2 ^ 31 → Z.of_nat KV < 2 ^ 31 →
  _convert_mask_to_block_mask mask KVB0 QB0 fn = Ok (full, partial) →
  0 < KVB → 0 < QB →
  let tiles := Z.of_nat (length (tdata full)) in
  let computed := count_tiles full + from_option count_tiles 0 partial in
  ∃ bm,
    _create_sparse_block_from_block_mask (full, partial) fn KVB QB = Ok bm
    ∧ BlockMask.numel bm = Ok (tiles * (KVB * QB))
    ∧ (sum_all (BlockMask.full_kv_num_blocks bm)
       + sum_all (BlockMask.partial_kv_num_blocks bm))
      * BlockMask.KV_BLOCK_SIZE bm * BlockMask.Q_BLOCK_SIZE bm
      = computed * (KVB * QB)
    ∧ 0 < tiles ∧ 0 ≤ computed ≤ tiles
    ∧ is_ok (BlockMask.sparsity bm) = true.
Proof.
  intros Hs HB HH HQ HKV HQ31 HKV31 Hconv HKVB HQB tiles computed.
  destruct (converted_grids_wf mask fn KVB0 QB0 B H Q KV full partial Hs HQ31 HKV31 Hconv)
    as (R & C & HR & HC & HQB0 & HKVB0 & HR31 & HC31 & Hfs & Hfl & Hfb & Hpartial).
  destruct (create_sparse_wf full partial fn KVB QB B H R C Hfs Hfl Hfb)
    as (bm & Hbm & Hs1 & Hs2 & Hs3 & Hsf & Hsp & HK & HQs & _); [|done..|].
  { destruct partial as [p|]; [|done]. by destruct Hpartial as (? & ? & ? & _). }
  exists bm. split; [exact Hbm|].
  assert (HR0 : (0 < R)%nat) by nia. assert (HC0 : (0 < C)%nat) by nia.
  assert (Hn : 0 < Z.of_nat (B * H * R * C)) by nia.
  assert (Hcomp : zsum (tdata full)
                  + match partial with Some p => zsum (tdata p) | None => 0 end
                  = computed).
  { unfold computed, count_tiles. by destruct partial. }
  unfold tiles. rewrite Hfl.
  split; [by rewrite (numel_eq bm B H R C), HK, HQs|].
  split; [rewrite Hsf, Hsp, Hcomp, HK, HQs; lia|].
  split; [done|]. split.
  - rewrite <- Hcomp, <- Hfl. clear Hcomp.
    destruct (zsum_bits_full _ Hfb) as [Hrange _].
    destruct partial as [p|]; [|lia].
    destruct Hpartial as (_ & Hpl & Hpb & Hdisj).
    destruct (zsum_bits_full _ Hpb) as [Hprange _].
    split; [lia|].
    assert (Hsum : ∀ l1 l2 : list Z, Forall2 (fun f q => f + q ≤ 1) l1 l2 →
              zsum l1 + zsum l2 ≤ Z.of_nat (length l1)).
    { induction 1 as [|x y l1 l2 Hxy _ IH]; [done|].
      rewrite !zsum_cons. cbn [length]. lia. }
    by apply Hsum.
  - rewrite (sparsity_eq bm B H R C Hs1 Hs2 Hs3); [done|]. rewrite HK, HQs. nia.
Qed.

(** The row [0 0 1 0] in tiles of 1 x 2 under [kv_idx == 2]: one tile of two
    is computed. *)
Lemma sparsity_divides_tile_counts_1x4 :
  let full := mkTensor Int8 [1; 1; 1; 2]%nat [0; 0] in
  let partial := Some (mkTensor Int8 [1; 1; 1; 2]%nat [0; 1]) in
  let tiles := Z.of_nat (length (tdata full)) in
  let computed := count_tiles full + from_option count_tiles 0 partial in
  ∃ bm,
    _create_sparse_block_from_block_mask (full, partial) (Some third_key) 2 1 = Ok bm
    ∧ BlockMask.numel bm = Ok (tiles * (2 * 1))
    ∧ (sum_all (BlockMask.full_kv_num_blocks bm)
       + sum_all (BlockMask.partial_kv_num_blocks bm))
      * BlockMask.KV_BLOCK_SIZE bm * BlockMask.Q_BLOCK_SIZE bm
      = computed * (2 * 1)
    ∧ 0 < tiles ∧ 0 ≤ computed ≤ tiles
    ∧ is_ok (BlockMask.sparsity bm) = true.
Proof.
  apply (sparsity_divides_tile_counts
           (mkTensor Bool [1; 1; 1; 4]%nat [0; 0; 1; 0]) (Some third_key)
           2 1 2 1 1 1 1 4);
    [reflexivity | lia | lia | lia | lia | by vm_compute | by vm_compute
    | reflexivity | lia | lia].
Defined.

Lemma create_sparse_rank4 (full : Tensor) (partial : option Tensor) (fn : option PyFn)
    (KVB QB : Z) (B H R C : nat) :
  tshape full = [B; H; R; C] →
  from_option (fun p => tshape p = [B; H; R; C]) True partial →
  ∃ bm,
    _create_sparse_block_from_block_mask (full, partial) fn KVB QB = Ok bm
    ∧ tshape (BlockMask.full_kv_indices bm) = [B; H; R; C]
    ∧ tshape (BlockMask.full_kv_num_blocks bm) = [B; H; R]
    ∧ tshape (BlockMask.full_q_num_blocks bm) = [B; H; C]
    ∧ BlockMask.KV_BLOCK_SIZE bm = KVB ∧ BlockMask.Q_BLOCK_SIZE bm = QB.
Proof.
  intros Hs Hp. unfold _create_sparse_block_from_block_mask.
  rewrite (inner_eq full B H R C Hs). cbn zeta. cbn [mbind Result_bind].
  destruct partial as [p|]; cbn in Hp.
  - rewrite (inner_eq p B H R C Hp). cbn zeta. cbn [mbind Result_bind].
    rewrite init_ranks by (cbn; lia). eexists. by split.
  - cbn [mbind Result_bind]. rewrite init_ranks by (cbn; lia). eexists. by split.
Qed.

(** X10: when the dense mask has a zero extent (no batch entry, no head, no
    query or no key), the conversion and the compression still succeed, the
    BlockMask holds no element, and [sparsity] raises [ZeroDivisionError]. *)
Theorem sparsity_of_empty_extent (mask : Tensor) (fn : option PyFn)
    (KVB0 QB0 KVB QB : Z) (B H Q KV : nat) (blocks : Tensor * option Tensor) :
  pad_shape 4 (tshape mask) = [B; H; Q; KV] →
  (B = 0 ∨ H = 0 ∨ Q = 0 ∨ KV = 0)%nat →
  _convert_mask_to_block_mask mask KVB0 QB0 fn = Ok blocks →
  ∃ bm,
    _create_sparse_block_from_block_mask blocks fn KVB QB = Ok bm
    ∧ BlockMask.numel bm = Ok 0
    ∧ BlockMask.sparsity bm = Err ZeroDivisionError.
Proof.
  intros Hs Hz Hconv.
  apply convert_Ok in Hconv
    as (B' & H' & Q' & KV' & sums & _ & Hs' & HQB0 & HKVB0 & Hqm & Hkm & Hsums & ->).
  rewrite Hs in Hs'. injection Hs' as <- <- <- <-.
  apply mask_block_sum_Ok in Hsums as (HQB & HKVB & _ & Hshape & _); [|done..].
  set (R := Z.to_nat (Z.of_nat Q / QB0)) in *.
  set (C := Z.to_nat (Z.of_nat KV / KVB0)) in *.
  assert (Hzero : (B * H * R * C = 0)%nat).
  { destruct Hz as [->|[->|[->| ->]]]; try lia.
    - unfold R. cbn. rewrite Z.div_0_l by lia. cbn. lia.
    - unfold C. cbn. rewrite Z.div_0_l by lia. cbn. lia. }
  pose proof (classify_wf fn KVB0 QB0 sums) as Hwf. cbn zeta in Hwf.
  destruct (classify fn KVB0 QB0 sums) as [full partial].
  cbn [fst snd] in Hwf. destruct Hwf as (Hfs & _ & _ & Hpartial).
  rewrite Hshape in Hfs.
  destruct (create_sparse_rank4 full partial fn KVB QB B H R C Hfs)
    as (bm & Hbm & Hs1 & Hs2 & Hs3 & HK & HQs).
  { destruct partial as [p|]; [|done]. cbn. destruct Hpartial as [-> _]. done. }
  exists bm. split; [done|]. split.
  - unfold BlockMask.numel.
    rewrite (shape_eq bm [B; H] R C R C) by (done || (unfold last_dim; by rewrite ?Hs2, ?Hs3)).
    cbn [mbind Result_bind fmap list_fmap app zprod foldr]. f_equal.
    transitivity (Z.of_nat (B * H * R * C)
                  * (BlockMask.KV_BLOCK_SIZE bm * BlockMask.Q_BLOCK_SIZE bm)); [lia|].
    by rewrite Hzero.
  - rewrite (sparsity_cases bm B H R C Hs1 Hs2 Hs3). cbn zeta.
    rewrite Hzero. done.
Qed.

(** A mask with no query. *)
Lemma sparsity_of_empty_extent_no_query :
  ∃ bm,
    _create_sparse_block_from_block_mask
      (mkTensor Int8 [1; 1; 0; 2]%nat [], None) None 128 128 = Ok bm
    ∧ BlockMask.numel bm = Ok 0
    ∧ BlockMask.sparsity bm = Err ZeroDivisionError.
Proof.
  apply (sparsity_of_empty_extent (mkTensor Bool [1; 1; 0; 256]%nat []) None
           128 128 128 128 1 1 0 256);
    [reflexivity | by right; right; left | reflexivity].
Defined.

(** ** Index rows as permutations *)

Lemma insert_desc_perm (x : Z * Z) (l : list (Z * Z)) : insert_desc x l ≡ₚ x :: l.
Proof.
  induction l as [|y l IH]; [done|]. cbn.
  destruct (x.1 <? y.1); [|done]. rewrite IH. apply Permutation_swap.
Qed.

Lemma sort_perm (ps : list (Z * Z)) : foldr insert_desc [] ps ≡ₚ ps.
Proof.
  induction ps as [|p ps IH]; [done|]. cbn [foldr].
  by rewrite insert_desc_perm, IH.
Qed.

(** [argsort] of any row lists every position of the row once. *)
Lemma argsort_row_perm (row : list Z) :
  argsort_row row ≡ₚ Z.of_nat <$> seq 0 (length row).
Proof.
  unfold argsort_row. rewrite sort_perm. by rewrite indexed_snd.
Qed.

Lemma argsort_row_int32 (n : nat) (row : list Z) :
  Z.of_nat n < 2 ^ 31 → length row = n →
  cast Int32 <$> argsort_row row = argsort_row row.
Proof.
  intros Hn Hlen. apply (fmap_id_on _ (fun z => 0 ≤ z < Z.of_nat n)).
  - intros z Hz. apply cast_Int32_small. lia.
  - apply Forall_forall. intros z Hz. rewrite argsort_row_perm in Hz.
    apply list_elem_of_fmap in Hz as (c & -> & Hc). apply elem_of_seq in Hc. lia.
Qed.

Lemma matrices_lengths (B H R C : nat) (d : list Z) :
  length d = (B * H * R * C)%nat →
  Forall (fun m => length m = R ∧ Forall (fun r => length r = C) m) (matrices B H R C d).
Proof.
  intros Hd. unfold matrices. apply Forall_fmap.
  eapply Forall_impl; [apply (chunks_lengths (B * H) (R * C)); lia|].
  intros block Hblock. cbn in *. split; [apply length_chunks|].
  apply chunks_lengths. lia.
Qed.

Lemma grid_columns_lengths (B H R C : nat) (d : list Z) :
  length d = (B * H * R * C)%nat →
  length (grid_columns B H R C d) = (B * H * C)%nat
  ∧ Forall (fun col => length col = R) (grid_columns B H R C d).
Proof.
  intros Hd. pose proof (matrices_lengths B H R C d Hd) as Hms.
  unfold grid_columns. split.
  - rewrite (length_concat_uniform C).
    + unfold matrices. by rewrite !length_fmap, length_chunks.
    + apply Forall_fmap, Forall_forall. intros m _. cbn. apply length_transpose.
  - apply Forall_concat, Forall_fmap. eapply Forall_impl; [exact Hms|].
    intros m [Hm _]. cbn. rewrite <- Hm. apply transpose_lengths.
Qed.

Lemma fmap_uniform {A} (f g : list Z → A) (n : nat) (rs : list (list Z)) :
  (∀ r, length r = n → f r = g r) →
  Forall (fun r => length r = n) rs → f <$> rs = g <$> rs.
Proof.
  intros Hfg Hrs. apply Forall_fmap_ext_1. eapply Forall_impl; [exact Hrs|].
  intros r Hlen. by apply Hfg.
Qed.

(** The index arrays of any grid, row by row. *)
Lemma kv_indices_rows (B H R C : nat) (d : list Z) :
  length d = (B * H * R * C)%nat → Z.of_nat C < 2 ^ 31 →
  chunks (B * H * R) C (tdata (kv_indices_of B H R C d))
  = argsort_row <$> grid_rows B H R C d.
Proof.
  intros Hd HC. unfold kv_indices_of, grid_rows. cbn [tdata].
  assert (Hrows : Forall (fun r => length r = C) (chunks (B * H * R) C d))
    by (apply chunks_lengths; lia).
  rewrite fmap_concat, <- list_fmap_compose.
  rewrite (fmap_uniform _ argsort_row C); [| |done].
  2:{ intros r Hr. unfold compose. by apply (argsort_row_int32 C). }
  apply chunks_concat'; [by rewrite length_fmap, length_chunks|].
  apply Forall_fmap. eapply Forall_impl; [exact Hrows|].
  intros r Hr. cbn. by rewrite length_argsort_row.
Qed.

Lemma q_indices_rows (B H R C : nat) (d : list Z) :
  length d = (B * H * R * C)%nat → Z.of_nat R < 2 ^ 31 →
  chunks (B * H * C) R (tdata (q_indices_of B H R C d))
  = argsort_row <$> grid_columns B H R C d.
Proof.
  intros Hd HR. unfold q_indices_of. cbn [tdata].
  rewrite matrices_argsort_dim2.
  pose proof (matrices_lengths B H R C d Hd) as Hms.
  destruct (grid_columns_lengths B H R C d Hd) as [Hlen Hcols].
  assert (Hdata :
    cast Int32 <$>
      concat ((fun m => flatten2 (transpose 0 C m)) <$>
                ((fun m => transpose 0 R (argsort_row <$> transpose 0 C m))
                   <$> matrices B H R C d))
    = concat (argsort_row <$> grid_columns B H R C d)).
  { unfold grid_columns.
    rewrite concat_fmap_concat, fmap_concat, <- !list_fmap_compose. f_equal.
    apply Forall_fmap_ext_1. eapply Forall_impl; [exact Hms|].
    intros m [Hm Hrows]. cbn. unfold flatten2.
    assert (Hcolumns : Forall (fun col => length col = R) (transpose 0 C m)).
    { rewrite <- Hm. apply transpose_lengths. }
    rewrite transpose_involutive.
    - rewrite fmap_concat, <- list_fmap_compose. f_equal.
      apply (fmap_uniform _ _ R); [|done].
      intros col Hcol. unfold compose. by apply (argsort_row_int32 R).
    - by rewrite length_fmap, length_transpose.
    - apply Forall_fmap. eapply Forall_impl; [exact Hcolumns|].
      intros col Hcol. cbn. by rewrite length_argsort_row. }
  rewrite Hdata. apply chunks_concat'; [by rewrite length_fmap|].
  apply Forall_fmap. eapply Forall_impl; [exact Hcols|].
  intros col Hcol. cbn. by rewrite length_argsort_row.
Qed.

(** X11: on a grid of any integer entries (fewer than [2^31] rows and
    columns), every row of [kv_indices] lists each of the [C] column
    positions exactly once, and every row of [q_indices] each of the [R] row
    positions exactly once: the entries beyond a row's count are in range
    and repeat no entry before them. *)
Theorem index_rows_are_permutations (g : Tensor) (B H R C : nat) :
  tshape g = [B; H; R; C] →
  length (tdata g) = (B * H * R * C)%nat →
  Z.of_nat R < 2 ^ 31 → Z.of_nat C < 2 ^ 31 →
  ∃ kv_num_blocks kv_indices q_num_blocks q_indices,
    create_sparse_block_from_block_mask_inner g
    = Ok (kv_num_blocks, kv_indices, q_num_blocks, q_indices)
    ∧ length (chunks (B * H * R) C (tdata kv_indices)) = (B * H * R)%nat
    ∧ length (chunks (B * H * C) R (tdata q_indices)) = (B * H * C)%nat
    ∧ (∀ i indices, chunks (B * H * R) C (tdata kv_indices) !! i = Some indices →
         indices ≡ₚ Z.of_nat <$> seq 0 C)
    ∧ (∀ j indices, chunks (B * H * C) R (tdata q_indices) !! j = Some indices →
         indices ≡ₚ Z.of_nat <$> seq 0 R).
Proof.
  intros Hs Hd HR HC. do 4 eexists.
  rewrite (inner_eq g B H R C Hs). cbn zeta. split; [reflexivity|].
  assert (Hd' : length (cast Int32 <$> tdata g) = (B * H * R * C)%nat)
    by by rewrite length_fmap.
  split; [apply length_chunks|]. split; [apply length_chunks|]. split.
  - intros i indices. rewrite kv_indices_rows, list_lookup_fmap by done.
    unfold grid_rows. intros Hi.
    destruct (chunks (B * H * R) C (cast Int32 <$> tdata g) !! i) as [row|] eqn:Hrow;
      [|done].
    injection Hi as <-. rewrite argsort_row_perm.
    pose proof (chunks_lengths (B * H * R) C (cast Int32 <$> tdata g) ltac:(lia)) as Hl.
    eapply Forall_lookup_1 in Hl; [|exact Hrow]. by rewrite Hl.
  - intros j indices. rewrite q_indices_rows, list_lookup_fmap by done. intros Hj.
    destruct (grid_columns B H R C (cast Int32 <$> tdata g) !! j) as [col|] eqn:Hcol;
      [|done].
    injection Hj as <-. rewrite argsort_row_perm.
    destruct (grid_columns_lengths B H R C _ Hd') as [_ Hl].
    eapply Forall_lookup_1 in Hl; [|exact Hcol]. by rewrite Hl.
Qed.

(** The grid [[3, 0, 3], [1, 2, 0]] of entries other than 0 and 1. *)
Lemma index_rows_are_permutations_2x3 :
  ∃ kv_num_blocks kv_indices q_num_blocks q_indices,
    create_sparse_block_from_block_mask_inner
      (mkTensor Int32 [1; 1; 2; 3]%nat [3; 0; 3; 1; 2; 0])
    = Ok (kv_num_blocks, kv_indices, q_num_blocks, q_indices)
    ∧ length (chunks (1 * 1 * 2) 3 (tdata kv_indices)) = (1 * 1 * 2)%nat
    ∧ length (chunks (1 * 1 * 3) 2 (tdata q_indices)) = (1 * 1 * 3)%nat
    ∧ (∀ i indices, chunks (1 * 1 * 2) 3 (tdata kv_indices) !! i = Some indices →
         indices ≡ₚ Z.of_nat <$> seq 0 3)
    ∧ (∀ j indices, chunks (1 * 1 * 3) 2 (tdata q_indices) !! j = Some indices →
         indices ≡ₚ Z.of_nat <$> seq 0 2).
Proof.
  apply (index_rows_are_permutations
           (mkTensor Int32 [1; 1; 2; 3]%nat [3; 0; 3; 1; 2; 0]) 1 1 2 3);
    reflexivity.
Defined.

(** ** From a tile grid back to a dense mask *)

Lemma bind_seq_mul {X} (A B : nat) (f : nat → list X) :
  (seq 0 A ≫= fun a => seq 0 B ≫= fun b => f (a * B + b)%nat) = seq 0 (A * B) ≫= f.
Proof.
  induction A as [|A IH]; [done|].
  rewrite seq_S, bind_app, IH. cbn [plus]. rewrite bind_singleton. cbn [bind_cons].
  replace (S A * B)%nat with (A * B + B)%nat by lia.
  rewrite seq_app, bind_app. f_equal. cbn [plus].
  replace (seq (A * B) B) with (Nat.add (A * B) <$> seq 0 B)
    by (rewrite fmap_add_seq; f_equal; lia).
  by rewrite list_fmap_bind.
Qed.

Lemma bind_concat_fmap {X Y} (f : X → list Y) (l : list X) :
  concat (f <$> l) = l ≫= f.
Proof. induction l as [|x l IH]; [done|]. cbn. by rewrite IH. Qed.

Lemma concat_replicate_bind {X} (n : nat) (l : list X) :
  concat (replicate n l) = seq 0 n ≫= fun _ => l.
Proof.
  generalize 0%nat. induction n as [|n IH]; intros s; [done|].
  cbn. by rewrite (IH (S s)).
Qed.

Lemma replicate_bind {X} (n : nat) (x : X) :
  replicate n x = seq 0 n ≫= fun _ => [x].
Proof.
  generalize 0%nat. induction n as [|n IH]; intros s; [done|].
  cbn. by rewrite (IH (S s)).
Qed.

Lemma bind_seq_ext {X} (n : nat) (f g : nat → list X) :
  (∀ i, (i < n)%nat → f i = g i) → seq 0 n ≫= f = seq 0 n ≫= g.
Proof.
  intros Hfg. apply Forall_bind_ext, Forall_forall.
  intros i Hi%elem_of_seq. apply Hfg. lia.
Qed.

Lemma take_nth_seq (n : nat) (l : list Z) :
  (n ≤ length l)%nat → take n l = (fun j => nth j l 0) <$> seq 0 n.
Proof.
  revert l. induction n as [|n IH]; intros l Hn; [done|].
  destruct l as [|x l]; [cbn in Hn; lia|].
  cbn [take seq fmap list_fmap nth]. f_equal.
  rewrite <- (fmap_S_seq 0 n), <- list_fmap_compose. apply IH. cbn in Hn. lia.
Qed.

Lemma nth_drop_add (n i : nat) (l : list Z) : nth i (drop n l) 0 = nth (n + i) l 0.
Proof.
  revert l. induction n as [|n IH]; intros l; [done|].
  destruct l as [|x l]; [by destruct i|]. cbn. apply IH.
Qed.

(** The pieces of a list, by position. *)
Lemma chunks_nth (k n : nat) (l : list Z) :
  length l = (k * n)%nat →
  chunks k n l = (fun i => (fun j => nth (i * n + j) l 0) <$> seq 0 n) <$> seq 0 k.
Proof.
  revert l. induction k as [|k IH]; intros l Hl; [done|].
  cbn [chunks seq fmap list_fmap]. f_equal.
  - rewrite take_nth_seq by lia. done.
  - rewrite IH by (rewrite length_drop; lia).
    rewrite <- (fmap_S_seq 0 k), <- list_fmap_compose.
    apply list_fmap_ext. intros _ i _. cbn.
    apply list_fmap_ext. intros _ j _. cbn. rewrite nth_drop_add. f_equal. lia.
Qed.

Lemma nth_concat_replicate (m k r : nat) (l : list Z) :
  (k < m)%nat → (r < length l)%nat →
  nth (k * length l + r) (concat (replicate m l)) 0 = nth r l 0.
Proof.
  revert k. induction m as [|m IH]; intros k Hk Hr; [lia|].
  cbn [replicate concat]. destruct k as [|k].
  - cbn. by rewrite app_nth1.
  - rewrite app_nth2 by (cbn; lia).
    replace (S k * length l + r - length l)%nat with (k * length l + r)%nat by (cbn; lia).
    apply IH; lia.
Qed.

(** The expansion in closed form, position by position. *)
Lemma expanded_bind (B H R C Qb KVb : nat) (d : list Z) :
  length d = (B * H * R * C)%nat →
  expanded B H R C Qb KVb d
  = (x ← seq 0 (B * H * R); _ ← seq 0 Qb; kv ← seq 0 C; _ ← seq 0 KVb;
     [nth (x * C + kv) d 0]).
Proof.
  intros Hd. unfold expanded.
  rewrite chunks_nth by done. rewrite <- list_fmap_compose, bind_concat_fmap.
  apply bind_seq_ext. intros x Hx. unfold compose.
  rewrite concat_replicate_bind. apply bind_seq_ext. intros i Hi.
  rewrite <- list_fmap_compose, bind_concat_fmap.
  apply bind_seq_ext. intros kv Hkv. unfold compose. apply replicate_bind.
Qed.

Lemma convert_back_eq (g : Tensor) (B H R C Qb KVb : nat) :
  tshape g = [B; H; R; C] → length (tdata g) = (B * H * R * C)%nat →
  _convert_block_mask_to_mask g (Z.of_nat KVb) (Z.of_nat Qb)
  = Ok (mkTensor (tdtype g) [B; H; (R * Qb)%nat; (C * KVb)%nat]
          (expanded B H R C Qb KVb (tdata g))).
Proof.
  intros Hs Hd. unfold _convert_block_mask_to_mask, dim. rewrite Hs.
  cbn [length bool_decide decide_rel py_assert mbind Result_bind].
  rewrite bool_decide_eq_true_2 by done. cbn [py_assert mbind Result_bind].
  unfold expand_front.
  destruct (Z.leb_spec 0 (Z.of_nat Qb)), (Z.leb_spec 0 (Z.of_nat KVb)); try lia.
  cbn [andb mbind Result_bind]. rewrite !Nat2Z.id, Hs.
  unfold permute_234051. cbn [tshape tdata tdtype mbind Result_bind].
  unfold reshape, view. cbn [tshape tdata tdtype].
  rewrite <- !Nat2Z.inj_mul.
  assert (Hnn : forallb (fun n => 0 <=? n)
                  [Z.of_nat B; Z.of_nat H; Z.of_nat (R * Qb); Z.of_nat (C * KVb)] = true).
  { apply Is_true_eq_true, forallb_True. repeat constructor; apply Is_true_eq_left;
      apply Z.leb_le; lia. }
  rewrite Hnn. cbn [fmap list_fmap]. rewrite !Nat2Z.id.
  rewrite decide_True by (rewrite !prod_list_cons; cbn [prod_list foldr]; lia).
  f_equal. f_equal. rewrite expanded_bind by done.
  rewrite <- (bind_seq_mul (B * H) R), <- (bind_seq_mul B H).
  apply bind_seq_ext. intros b Hb. apply bind_seq_ext. intros h Hh.
  apply bind_seq_ext. intros q Hq. apply bind_seq_ext. intros i Hi.
  apply bind_seq_ext. intros kv Hkv. apply bind_seq_ext. intros j Hj.
  f_equal.
  replace (((((i * KVb + j) * B + b) * H + h) * R + q) * C + kv)%nat
    with ((i * KVb + j) * length (tdata g) + (((b * H + h) * R + q) * C + kv))%nat
    by (rewrite Hd; lia).
  apply nth_concat_replicate; [nia|]. rewrite Hd. 
  assert (((b * H + h) * R + q) * C + kv < ((B * H) * R) * C)%nat; [|lia].
  assert (b * H + h < B * H)%nat by nia.
  assert ((b * H + h) * R + q < B * H * R)%nat by nia. nia.
Qed.

Lemma length_expanded_row (Qb KVb C : nat) (row : list Z) :
  length row = C →
  length (concat (replicate Qb (concat ((replicate KVb : Z → list Z) <$> row))))
  = (Qb * (C * KVb))%nat.
Proof.
  intros Hrow. rewrite (length_concat_uniform (C * KVb)).
  - by rewrite length_replicate.
  - apply Forall_replicate. rewrite (length_concat_uniform KVb).
    + by rewrite length_fmap, Hrow.
    + apply Forall_fmap, Forall_forall. intros x _. cbn. apply length_replicate.
Qed.

(** Every tile of the expansion repeats one element of the grid. *)
Lemma mask_tiles_expanded (B H R C Qb KVb : nat) (d : list Z) :
  length d = (B * H * R * C)%nat →
  mask_tiles B H R C Qb KVb (expanded B H R C Qb KVb d)
  = (fun x => replicate (Qb * KVb) x) <$> d.
Proof.
  intros Hd. unfold mask_tiles, expanded.
  assert (Hrows : Forall (fun r => length r = C) (chunks (B * H * R) C d))
    by (apply chunks_lengths; lia).
  rewrite chunks_concat'.
  2:{ by rewrite length_fmap, length_chunks. }
  2:{ apply Forall_fmap. eapply Forall_impl; [exact Hrows|].
      intros row Hrow. cbn. by apply length_expanded_row. }
  rewrite <- list_fmap_compose.
  rewrite <- (concat_chunks (B * H * R) C d Hd) at 2. rewrite fmap_concat. f_equal.
  apply Forall_fmap_ext_1. eapply Forall_impl; [exact Hrows|].
  intros row Hrow. cbn beta in Hrow. cbn.
  set (er := concat ((replicate KVb : Z → list Z) <$> row)).
  assert (Her : length er = (C * KVb)%nat).
  { unfold er. rewrite (length_concat_uniform KVb).
    - by rewrite length_fmap, Hrow.
    - apply Forall_fmap, Forall_forall. intros x _. cbn. apply length_replicate. }
  rewrite chunks_concat'; [|by rewrite length_replicate|by apply Forall_replicate].
  assert (Hrow' : row = (fun c => nth c row 0) <$> seq 0 C).
  { rewrite <- take_nth_seq by lia. rewrite <- Hrow. symmetry. apply firstn_all. }
  rewrite Hrow' at 1. rewrite <- list_fmap_compose.
  apply Forall_fmap_ext_1, Forall_forall. intros c Hc%elem_of_seq. unfold compose.
  unfold tile_of. rewrite fmap_replicate.
  rewrite <- (nth_chunks C KVb c er) by lia.
  unfold er. rewrite chunks_concat'.
  2:{ by rewrite length_fmap. }
  2:{ apply Forall_fmap, Forall_forall. intros x _. cbn. apply length_replicate. }
  assert (Hnth : nth c ((replicate KVb : Z → list Z) <$> row) []
                 = replicate KVb (nth c row 0)).
  { assert (Hc' : (c < length row)%nat) by lia. clear -Hc'.
    revert c Hc'. induction row as [|x row IH]; intros c Hc; [cbn in Hc; lia|].
    destruct c as [|c]; [done|]. cbn. apply IH. cbn in Hc. lia. }
  rewrite Hnth. apply concat_replicate.
Qed.

Lemma length_expanded (B H R C Qb KVb : nat) (d : list Z) :
  length d = (B * H * R * C)%nat →
  length (expanded B H R C Qb KVb d) = (B * H * (R * Qb) * (C * KVb))%nat.
Proof.
  intros Hd. unfold expanded. rewrite (length_concat_uniform (Qb * (C * KVb))).
  - rewrite length_fmap, length_chunks. lia.
  - apply Forall_fmap.
    eapply Forall_impl; [apply (chunks_lengths (B * H * R) C); lia|].
    intros row Hrow. cbn in *. by apply length_expanded_row.
Qed.

Lemma expanded_bits (B H R C Qb KVb : nat) (d : list Z) :
  Forall is_bit d → Forall is_bit (expanded B H R C Qb KVb d).
Proof.
  intros Hb. unfold expanded. apply Forall_concat, Forall_fmap, Forall_forall.
  intros row Hrow. cbn. apply Forall_concat, Forall_replicate, Forall_concat, Forall_fmap.
  assert (Hr : Forall is_bit row).
  { clear -Hb Hrow. revert d Hb Hrow. generalize (B * H * R)%nat as k.
    induction k as [|k IH]; intros d Hb Hin; cbn in Hin; [by apply elem_of_nil in Hin|].
    apply elem_of_cons in Hin as [-> | Hin]; [by apply Forall_take|].
    apply (IH (drop C d)); [by apply Forall_drop | done]. }
  eapply Forall_impl; [exact Hr|]. intros x Hx. cbn. by apply Forall_replicate.
Qed.

(** X12: on a grid of four dimensions and for block sizes that are not
    negative, [_convert_block_mask_to_mask] gives a mask of the grid's dtype
    whose extents are the grid's times the block sizes, and every tile of
    which repeats the one element of the grid at the tile's position. *)
Theorem block_mask_to_mask_tiles (g : Tensor) (B H R C Qb KVb : nat) :
  tshape g = [B; H; R; C] → length (tdata g) = (B * H * R * C)%nat →
  ∃ m,
    _convert_block_mask_to_mask g (Z.of_nat KVb) (Z.of_nat Qb) = Ok m
    ∧ tdtype m = tdtype g
    ∧ tshape m = [B; H; (R * Qb)%nat; (C * KVb)%nat]
    ∧ length (tdata m) = (B * H * (R * Qb) * (C * KVb))%nat
    ∧ mask_tiles B H R C Qb KVb (tdata m)
      = (fun x => replicate (Qb * KVb) x) <$> tdata g.
Proof.
  intros Hs Hd. eexists. split; [by apply convert_back_eq|].
  cbn [tdtype tshape tdata]. split; [done|]. split; [done|].
  split; [by apply length_expanded | by apply mask_tiles_expanded].
Qed.

(** The grid [[1, 0]] in tiles of 2 x 3. *)
Lemma block_mask_to_mask_tiles_1x2 :
  ∃ m,
    _convert_block_mask_to_mask (mkTensor Int8 [1; 1; 1; 2]%nat [1; 0])
      (Z.of_nat 3) (Z.of_nat 2) = Ok m
    ∧ tdtype m = Int8
    ∧ tshape m = [1; 1; (1 * 2); (2 * 3)]%nat
    ∧ length (tdata m) = (1 * 1 * (1 * 2) * (2 * 3))%nat
    ∧ mask_tiles 1 1 1 2 2 3 (tdata m)
      = (fun x => replicate (2 * 3) x) <$> [1; 0].
Proof.
  apply (block_mask_to_mask_tiles (mkTensor Int8 [1; 1; 1; 2]%nat [1; 0]) 1 1 1 2 2 3);
    reflexivity.
Defined.

(** X13: [_convert_block_mask_to_mask] raises [AssertionError] unless the grid
    has four dimensions, [RuntimeError] on a negative block size, and
    succeeds in every other case. *)
Theorem block_mask_to_mask_errors (g : Tensor) (KVB QB : Z) :
  (dim g ≠ 4%nat → _convert_block_mask_to_mask g KVB QB = Err AssertionError)
  ∧ (dim g = 4%nat → QB < 0 ∨ KVB < 0 →
     _convert_block_mask_to_mask g KVB QB = Err RuntimeError)
  ∧ (dim g = 4%nat → 0 ≤ QB → 0 ≤ KVB →
     is_ok (_convert_block_mask_to_mask g KVB QB) = true).
Proof.
  unfold _convert_block_mask_to_mask. split; [|split].
  - intros Hdim. by rewrite bool_decide_eq_false_2.
  - intros Hdim Hneg. rewrite bool_decide_eq_true_2 by done.
    cbn [py_assert mbind Result_bind]. unfold dim in Hdim.
    destruct (tshape g) as [|B [|H [|R [|C [|]]]]]; try done.
    unfold expand_front.
    destruct (Z.leb_spec 0 QB), (Z.leb_spec 0 KVB); (done || lia).
  - intros Hdim HQB HKVB. rewrite bool_decide_eq_true_2 by done.
    cbn [py_assert mbind Result_bind]. unfold dim in Hdim.
    destruct (tshape g) as [|B [|H [|R [|C [|]]]]] eqn:Hs; try done.
    unfold expand_front.
    destruct (Z.leb_spec 0 QB), (Z.leb_spec 0 KVB); try lia.
    cbn [andb mbind Result_bind]. unfold permute_234051.
    cbn [tshape tdtype tdata]. rewrite Hs. cbn [mbind Result_bind].
    unfold reshape, view. cbn [tshape tdata tdtype].
    assert (Hnn : forallb (fun n => 0 <=? n)
                    [Z.of_nat B; Z.of_nat H; Z.of_nat R * QB; Z.of_nat C * KVB] = true).
    { apply Is_true_eq_true, forallb_True. repeat constructor; apply Is_true_eq_left;
        apply Z.leb_le; nia. }
    rewrite Hnn. cbn [fmap list_fmap]. rewrite !Nat2Z.id.
    rewrite decide_True; [done|].
    rewrite !prod_list_cons. cbn [prod_list foldr].
    rewrite !Z2Nat.inj_mul, !Nat2Z.id by lia. lia.
Qed.

Lemma zsum_replicate (n : nat) (x : Z) : zsum (replicate n x) = Z.of_nat n * x.
Proof.
  induction n as [|n IH]; [done|].
  cbn [replicate]. rewrite zsum_cons, IH. lia.
Qed.

Lemma fmap_const_on {A B} (f : A → B) (P : A → Prop) (c : B) (l : list A) :
  (∀ x, P x → f x = c) → Forall P l → f <$> l = replicate (length l) c.
Proof.
  intros Hf. induction 1 as [|x l Hx _ IH]; [done|].
  cbn. by rewrite Hf, IH.
Qed.

(** X14: a boolean tile grid expanded by [_convert_block_mask_to_mask] and
    converted back with the same (positive) block sizes is the grid again, as
    int8; with a mask predicate it comes back as the full grid, and the
    partial grid is all zero. *)
Theorem grid_round_trip (g : Tensor) (fn : option PyFn) (B H R C Qb KVb : nat) :
  tdtype g = Bool → tshape g = [B; H; R; C] →
  length (tdata g) = (B * H * R * C)%nat → Forall is_bit (tdata g) →
  (0 < Qb)%nat → (0 < KVb)%nat → Z.of_nat (Qb * KVb) < 2 ^ 63 →
  ∃ m,
    _convert_block_mask_to_mask g (Z.of_nat KVb) (Z.of_nat Qb) = Ok m
    ∧ _convert_mask_to_block_mask m (Z.of_nat KVb) (Z.of_nat Qb) fn
      = Ok (mkTensor Int8 [B; H; R; C] (tdata g),
            (fun _ => zeros [B; H; R; C] Int8) <$> fn).
Proof.
  intros Hdt Hs Hd Hb HQb HKVb H63. eexists. split; [by apply convert_back_eq|].
  set (m := mkTensor (tdtype g) _ _).
  assert (Hmd : tdtype m = Bool) by done.
  assert (Hms : tshape m = [B; H; (R * Qb)%nat; (C * KVb)%nat]) by done.
  assert (Hml : length (tdata m) = (B * H * (R * Qb) * (C * KVb))%nat)
    by by apply length_expanded.
  assert (Hmb : Forall is_bit (tdata m)) by by apply expanded_bits.
  assert (Hn : 0 < Z.of_nat (Qb * KVb)) by nia.
  destruct fn as [fn|].
  - rewrite (classify_tiles fn B H R C Qb KVb m) by done.
    cbn [tdata m fmap option_fmap option_map]. rewrite mask_tiles_expanded by done.
    rewrite <- !list_fmap_compose. unfold zeros. do 2 f_equal; [f_equal|do 2 f_equal].
    + apply (fmap_id_on _ is_bit); [|done]. intros x Hx. unfold compose.
      rewrite zsum_replicate.
      destruct Hx as [-> | ->]; [rewrite Z.mul_0_r | rewrite Z.mul_1_r].
      * by destruct (Z.eqb_spec 0 (Z.of_nat (Qb * KVb))); [lia|].
      * by rewrite Z.eqb_refl.
    + rewrite !prod_list_cons. cbn [prod_list foldr].
      replace (B * (H * (R * (C * 1))))%nat with (length (tdata g)) by lia.
      apply (fmap_const_on _ is_bit); [|done]. intros x Hx. unfold compose.
      rewrite zsum_replicate.
      destruct Hx as [-> | ->]; [by rewrite Z.mul_0_r|].
      rewrite Z.mul_1_r, Z.ltb_irrefl. by rewrite andb_false_r.
  - rewrite (classify_tiles_none B H R C Qb KVb m) by done.
    cbn [tdata m fmap option_fmap option_map]. rewrite mask_tiles_expanded by done.
    rewrite <- !list_fmap_compose. do 3 f_equal.
    apply (fmap_id_on _ is_bit); [|done]. intros x Hx. unfold compose.
    rewrite zsum_replicate.
    destruct Hx as [-> | ->]; [by rewrite Z.mul_0_r|].
    rewrite Z.mul_1_r. by destruct (Z.ltb_spec 0 (Z.of_nat (Qb * KVb))); [|lia].
Qed.

(** The grid [[1, 0]] in tiles of 2 x 3, with the predicate [kv_idx == 2]
    retained. *)
Lemma grid_round_trip_1x2 :
  ∃ m,
    _convert_block_mask_to_mask (mkTensor Bool [1; 1; 1; 2]%nat [1; 0])
      (Z.of_nat 3) (Z.of_nat 2) = Ok m
    ∧ _convert_mask_to_block_mask m (Z.of_nat 3) (Z.of_nat 2) (Some third_key)
      = Ok (mkTensor Int8 [1; 1; 1; 2]%nat [1; 0],
            (fun _ => zeros [1; 1; 1; 2]%nat Int8) <$> Some third_key).
Proof.
  apply (grid_round_trip (mkTensor Bool [1; 1; 1; 2]%nat [1; 0]) (Some third_key)
           1 1 1 2 2 3);
    [reflexivity | reflexivity | reflexivity | solve_bits | lia | lia | by vm_compute].
Defined.

(** ** The grids as bounds of the mask *)

Lemma lookup_chunks {A} (k n i : nat) (l : list A) :
  (i < k)%nat → chunks k n l !! i = Some (take n (drop (i * n) l)).
Proof.
  revert i l. induction k as [|k IH]; intros i l Hi; [lia|].
  destruct i as [|i]; [done|]. cbn [chunks lookup list_lookup].
  change (chunks k n (drop n l) !! i = Some (take n (drop (S i * n) l))).
  rewrite IH by lia. rewrite drop_drop. do 3 f_equal; lia.
Qed.

Section Forall2_pieces.
Context {A : Type} (P : A → A → Prop).

Lemma Forall2_concat_pieces (ls1 ls2 : list (list A)) :
  Forall2 (Forall2 P) ls1 ls2 → Forall2 P (concat ls1) (concat ls2).
Proof. induction 1; cbn; [constructor|]. by apply Forall2_app. Qed.

Lemma Forall2_concat_uniform_inv (n : nat) (ls1 ls2 : list (list A)) :
  Forall (fun r => length r = n) ls1 → Forall (fun r => length r = n) ls2 →
  length ls1 = length ls2 →
  Forall2 P (concat ls1) (concat ls2) → Forall2 (Forall2 P) ls1 ls2.
Proof.
  intros H1. revert ls2. induction H1 as [|r1 ls1 Hr1 _ IH]; intros ls2 H2 Hlen HP.
  - destruct ls2; [constructor | done].
  - destruct ls2 as [|r2 ls2]; [done|].
    apply Forall_cons in H2 as [Hr2 H2]. cbn in HP.
    apply Forall2_app_inv in HP as [Hhd Htl]; [|congruence].
    constructor; [done|]. apply IH; [done| |done]. cbn in Hlen. lia.
Qed.

Lemma Forall2_chunks (k n : nat) (l1 l2 : list A) :
  length l1 = (k * n)%nat → length l2 = (k * n)%nat →
  Forall2 (Forall2 P) (chunks k n l1) (chunks k n l2) → Forall2 P l1 l2.
Proof.
  intros H1 H2 HP. rewrite <- (concat_chunks k n l1 H1), <- (concat_chunks k n l2 H2).
  by apply Forall2_concat_pieces.
Qed.

End Forall2_pieces.

(** A relation that holds between the tiles of two masks, element by
    element, holds between the masks. *)
Lemma band_Forall2 (P : Z → Z → Prop) (C Qb KVb : nat) (b1 b2 : list Z) :
  length b1 = (Qb * (C * KVb))%nat → length b2 = (Qb * (C * KVb))%nat →
  Forall2 (Forall2 P)
    ((fun c => concat (tile_of KVb (chunks Qb (C * KVb) b1) c)) <$> seq 0 C)
    ((fun c => concat (tile_of KVb (chunks Qb (C * KVb) b2) c)) <$> seq 0 C) →
  Forall2 P b1 b2.
Proof.
  intros H1 H2 HT. apply (Forall2_chunks P Qb (C * KVb)); [done..|].
  pose proof (chunks_lengths Qb (C * KVb) b1 ltac:(lia)) as Hrows1.
  pose proof (chunks_lengths Qb (C * KVb) b2 ltac:(lia)) as Hrows2.
  set (rows1 := chunks Qb (C * KVb) b1) in *.
  set (rows2 := chunks Qb (C * KVb) b2) in *.
  assert (Hlen : length rows1 = length rows2)
    by (unfold rows1, rows2; by rewrite !length_chunks).
  apply Forall2_fmap_1 in HT.
  assert (Hc : ∀ c, (c < C)%nat →
            Forall2 (fun r1 r2 => Forall2 P (take KVb (drop (c * KVb) r1))
                                            (take KVb (drop (c * KVb) r2)))
              rows1 rows2).
  { intros c Hc. apply Forall2_same_length_lookup in HT as [_ HT].
    specialize (HT c c c). rewrite !lookup_seq in HT.
    specialize (HT ltac:(split; [done|lia]) ltac:(split; [done|lia])).
    cbn beta in HT. apply (Forall2_concat_uniform_inv P KVb) in HT.
    - unfold tile_of in HT. by apply Forall2_fmap_1 in HT.
    - unfold tile_of. apply Forall_fmap. eapply Forall_impl; [exact Hrows1|].
      intros r Hr. cbn in *. by apply (length_tile_row KVb C).
    - unfold tile_of. apply Forall_fmap. eapply Forall_impl; [exact Hrows2|].
      intros r Hr. cbn in *. by apply (length_tile_row KVb C).
    - unfold tile_of. by rewrite !length_fmap. }
  apply Forall2_same_length_lookup_2; [done|]. intros i r1 r2 Hr1 Hr2.
  eapply Forall_lookup_1 in Hrows1; [|exact Hr1].
  eapply Forall_lookup_1 in Hrows2; [|exact Hr2]. cbn beta in Hrows1, Hrows2.
  apply (Forall2_chunks P C KVb); [lia..|].
  apply Forall2_same_length_lookup_2; [by rewrite !length_chunks|].
  intros c p1 p2 Hp1 Hp2.
  assert (Hlt : (c < C)%nat).
  { apply lookup_lt_Some in Hp1. by rewrite length_chunks in Hp1. }
  rewrite lookup_chunks in Hp1, Hp2 by done.
  injection Hp1 as <-. injection Hp2 as <-.
  specialize (Hc c Hlt). apply Forall2_same_length_lookup in Hc as [_ Hc].
  by apply (Hc i).
Qed.

Lemma tiles_Forall2 (P : Z → Z → Prop) (B H R C Qb KVb : nat) (d1 d2 : list Z) :
  length d1 = (B * H * (R * Qb) * (C * KVb))%nat →
  length d2 = (B * H * (R * Qb) * (C * KVb))%nat →
  Forall2 (Forall2 P) (mask_tiles B H R C Qb KVb d1) (mask_tiles B H R C Qb KVb d2) →
  Forall2 P d1 d2.
Proof.
  intros H1 H2 HT. apply (Forall2_chunks P (B * H * R) (Qb * (C * KVb))); [lia..|].
  pose proof (chunks_lengths (B * H * R) (Qb * (C * KVb)) d1 ltac:(lia)) as Hb1.
  pose proof (chunks_lengths (B * H * R) (Qb * (C * KVb)) d2 ltac:(lia)) as Hb2.
  unfold mask_tiles in HT.
  apply (Forall2_concat_uniform_inv _ C) in HT.
  2,3: apply Forall_fmap, Forall_forall; intros band _; cbn;
       by rewrite length_fmap, length_seq.
  2: by rewrite !length_fmap, !length_chunks.
  apply Forall2_fmap_1 in HT.
  apply Forall2_same_length_lookup_2; [by rewrite !length_chunks|].
  intros i b1 b2 Hi1 Hi2.
  eapply Forall_lookup_1 in Hb1; [|exact Hi1].
  eapply Forall_lookup_1 in Hb2; [|exact Hi2]. cbn beta in Hb1, Hb2.
  apply Forall2_same_length_lookup in HT as [_ HT].
  apply (band_Forall2 P C Qb KVb); [done..|]. by apply (HT i).
Qed.

(** X15: expanded back to elements, the full grid computed with a mask
    predicate marks only elements that are true in the dense mask, and the
    grid computed without a predicate marks every element that is true: the
    two are a lower and an upper bound of the mask, element by element. *)
Theorem grids_bound_the_mask (fn : PyFn) (B H R C Qb KVb : nat) (m : Tensor) :
  tdtype m = Bool →
  tshape m = [B; H; (R * Qb)%nat; (C * KVb)%nat] →
  length (tdata m) = (B * H * (R * Qb) * (C * KVb))%nat →
  Forall is_bit (tdata m) →
  (0 < Qb)%nat → (0 < KVb)%nat → Z.of_nat (Qb * KVb) < 2 ^ 63 →
  ∃ full partial grid lower upper,
    _convert_mask_to_block_mask m (Z.of_nat KVb) (Z.of_nat Qb) (Some fn)
    = Ok (full, Some partial)
    ∧ _convert_mask_to_block_mask m (Z.of_nat KVb) (Z.of_nat Qb) None = Ok (grid, None)
    ∧ _convert_block_mask_to_mask full (Z.of_nat KVb) (Z.of_nat Qb) = Ok lower
    ∧ _convert_block_mask_to_mask grid (Z.of_nat KVb) (Z.of_nat Qb) = Ok upper
    ∧ tshape lower = tshape m ∧ tshape upper = tshape m
    ∧ Forall2 Z.le (tdata lower) (tdata m)
    ∧ Forall2 Z.le (tdata m) (tdata upper).
Proof.
  intros Hdt Hs Hd Hb HQb HKVb H63.
  destruct (mask_tiles_wf B H R C Qb KVb (tdata m) Hd Hb) as [Hcount Htiles].
  do 5 eexists.
  split; [by apply classify_tiles|]. split; [by apply classify_tiles_none|].
  split; [apply convert_back_eq; [done|]; cbn [tdata]; by rewrite length_fmap|].
  split; [apply convert_back_eq; [done|]; cbn [tdata]; by rewrite length_fmap|].
  cbn [tshape tdata]. split; [done|]. split; [done|]. split.
  - apply (tiles_Forall2 _ B H R C Qb KVb);
      [apply length_expanded; by rewrite length_fmap | done |].
    rewrite mask_tiles_expanded by by rewrite length_fmap.
    rewrite <- list_fmap_compose. apply Forall2_fmap_l, Forall_Forall2_diag.
    eapply Forall_impl; [exact Htiles|]. intros tile [Hlen Hbits]. unfold compose.
    apply Forall2_replicate_l; [done|].
    destruct (zsum_bits_full tile Hbits) as [_ Hall]. rewrite Hlen in Hall.
    destruct (Z.eqb_spec (zsum tile) (Z.of_nat (Qb * KVb))) as [Heq|_].
    + apply Hall in Heq. eapply Forall_impl; [exact Heq|]. intros x ->. done.
    + eapply Forall_impl; [exact Hbits|]. intros x [-> | ->]; lia.
  - apply (tiles_Forall2 _ B H R C Qb KVb);
      [done | apply length_expanded; by rewrite length_fmap |].
    rewrite mask_tiles_expanded by by rewrite length_fmap.
    rewrite <- list_fmap_compose. apply Forall2_fmap_r, Forall_Forall2_diag.
    eapply Forall_impl; [exact Htiles|]. intros tile [Hlen Hbits]. unfold compose.
    apply Forall2_replicate_r; [done|].
    destruct (zsum_bits_full tile Hbits) as [Hrange _].
    destruct (Z.ltb_spec 0 (zsum tile)) as [_|Hle].
    + eapply Forall_impl; [exact Hbits|]. intros x [-> | ->]; cbn; lia.
    + assert (Hz : zsum tile = 0) by lia. apply zsum_bits_zero in Hz; [|done].
      eapply Forall_impl; [exact Hz|]. intros x ->. done.
Qed.

(** The row [0 0 1 0] in tiles of 1 x 2. *)
Lemma grids_bound_the_mask_1x4 :
  ∃ full partial grid lower upper,
    _convert_mask_to_block_mask (mkTensor Bool [1; 1; 1; 4]%nat [0; 0; 1; 0])
      (Z.of_nat 2) (Z.of_nat 1) (Some third_key)
    = Ok (full, Some partial)
    ∧ _convert_mask_to_block_mask (mkTensor Bool [1; 1; 1; 4]%nat [0; 0; 1; 0])
        (Z.of_nat 2) (Z.of_nat 1) None = Ok (grid, None)
    ∧ _convert_block_mask_to_mask full (Z.of_nat 2) (Z.of_nat 1) = Ok lower
    ∧ _convert_block_mask_to_mask grid (Z.of_nat 2) (Z.of_nat 1) = Ok upper
    ∧ tshape lower = [1; 1; 1; 4]%nat ∧ tshape upper = [1; 1; 1; 4]%nat
    ∧ Forall2 Z.le (tdata lower) [0; 0; 1; 0]
    ∧ Forall2 Z.le [0; 0; 1; 0] (tdata upper).
Proof.
  apply (grids_bound_the_mask third_key 1 1 1 2 1 2
           (mkTensor Bool [1; 1; 1; 4]%nat [0; 0; 1; 0]));
    [reflexivity | reflexivity | reflexivity | solve_bits | lia | lia | by vm_compute].
Defined.

Lemma zsum_zip_with_add (l k : list Z) :
  length l = length k → zsum (zip_with Z.add l k) = zsum l + zsum k.
Proof.
  revert k. induction l as [|x l IH]; intros [|y k] Hlen; try done.
  cbn [zip_with]. rewrite !zsum_cons, IH by (cbn in Hlen; lia). lia.
Qed.

(** X16: the grid computed without a mask predicate is the sum of the full
    and the partial grid computed with one: a tile is computed on the
    score-mod path exactly when it is FULL or PARTIAL on the predicate path,
    and the two paths count the same number of tiles. *)
Theorem predicate_splits_the_grid (fn : PyFn) (B H R C Qb KVb : nat) (m : Tensor) :
  tdtype m = Bool →
  tshape m = [B; H; (R * Qb)%nat; (C * KVb)%nat] →
  length (tdata m) = (B * H * (R * Qb) * (C * KVb))%nat →
  Forall is_bit (tdata m) →
  (0 < Qb)%nat → (0 < KVb)%nat → Z.of_nat (Qb * KVb) < 2 ^ 63 →
  ∃ full partial grid,
    _convert_mask_to_block_mask m (Z.of_nat KVb) (Z.of_nat Qb) (Some fn)
    = Ok (full, Some partial)
    ∧ _convert_mask_to_block_mask m (Z.of_nat KVb) (Z.of_nat Qb) None = Ok (grid, None)
    ∧ tshape grid = tshape full ∧ tshape partial = tshape full
    ∧ tdata grid = zip_with Z.add (tdata full) (tdata partial)
    ∧ count_tiles grid = count_tiles full + count_tiles partial.
Proof.
  intros Hdt Hs Hd Hb HQb HKVb H63.
  destruct (mask_tiles_wf B H R C Qb KVb (tdata m) Hd Hb) as [Hcount Htiles].
  do 3 eexists.
  split; [by apply classify_tiles|]. split; [by apply classify_tiles_none|].
  cbn [tshape tdata]. split; [done|]. split; [done|].
  assert (Hdata :
    (fun tile => if 0 <? zsum tile then 1 else 0) <$> mask_tiles B H R C Qb KVb (tdata m)
    = zip_with Z.add
        ((fun tile => if zsum tile =? Z.of_nat (Qb * KVb) then 1 else 0)
           <$> mask_tiles B H R C Qb KVb (tdata m))
        ((fun tile => if (0 <? zsum tile) && (zsum tile <? Z.of_nat (Qb * KVb))
                      then 1 else 0)
           <$> mask_tiles B H R C Qb KVb (tdata m))).
  { rewrite zip_with_fmap_l, zip_with_fmap_r, zip_with_diag.
    apply Forall_fmap_ext_1. eapply Forall_impl; [exact Htiles|].
    intros tile [Hlen Hbits]. cbn beta.
    destruct (zsum_bits_full tile Hbits) as [Hrange _]. rewrite Hlen in Hrange.
    assert (0 < Z.of_nat (Qb * KVb)) by nia.
    destruct (Z.eqb_spec (zsum tile) (Z.of_nat (Qb * KVb)));
      destruct (Z.ltb_spec 0 (zsum tile));
      destruct (Z.ltb_spec (zsum tile) (Z.of_nat (Qb * KVb))); cbn [andb]; lia. }
  split; [exact Hdata|]. unfold count_tiles. cbn [tdata].
  rewrite Hdata. apply zsum_zip_with_add. by rewrite !length_fmap.
Qed.

(** The row [0 0 1 0] in tiles of 1 x 2. *)
Lemma predicate_splits_the_grid_1x4 :
  ∃ full partial grid,
    _convert_mask_to_block_mask (mkTensor Bool [1; 1; 1; 4]%nat [0; 0; 1; 0])
      (Z.of_nat 2) (Z.of_nat 1) (Some third_key)
    = Ok (full, Some partial)
    ∧ _convert_mask_to_block_mask (mkTensor Bool [1; 1; 1; 4]%nat [0; 0; 1; 0])
        (Z.of_nat 2) (Z.of_nat 1) None = Ok (grid, None)
    ∧ tshape grid = tshape full ∧ tshape partial = tshape full
    ∧ tdata grid = zip_with Z.add (tdata full) (tdata partial)
    ∧ count_tiles grid = count_tiles full + count_tiles partial.
Proof.
  apply (predicate_splits_the_grid third_key 1 1 1 2 1 2
           (mkTensor Bool [1; 1; 1; 4]%nat [0; 0; 1; 0]));
    [reflexivity | reflexivity | reflexivity | solve_bits | lia | lia | by vm_compute].
Defined.

(** ** Tiles by index *)

Lemma fmap_bind {X Y W} (f : Y → W) (K : X → list Y) (l : list X) :
  f <$> (l ≫= K) = l ≫= fun x => f <$> K x.
Proof. induction l as [|x l IH]; [done|]. cbn. by rewrite fmap_app, IH. Qed.

Lemma bind_bind {X Y W} (K : X → list Y) (G : Y → list W) (l : list X) :
  (l ≫= K) ≫= G = l ≫= fun x => K x ≫= G.
Proof. induction l as [|x l IH]; [done|]. cbn. by rewrite bind_app, IH. Qed.

Lemma bind_ret_fmap {X Y} (f : X → Y) (l : list X) :
  (l ≫= fun x => [f x]) = f <$> l.
Proof. induction l as [|x l IH]; [done|]. cbn. by rewrite IH. Qed.

Lemma length_bind_uniform {X Y} (K : X → list Y) (n : nat) (l : list X) :
  Forall (fun x => length (K x) = n) l → length (l ≫= K) = (length l * n)%nat.
Proof.
  induction 1 as [|x l Hx _ IH]; [done|]. cbn. rewrite length_app, IH, Hx. done.
Qed.

Lemma length_bind_seq {Y} (K : nat → list Y) (k n : nat) :
  (∀ i, (i < k)%nat → length (K i) = n) → length (seq 0 k ≫= K) = (k * n)%nat.
Proof.
  intros HK. rewrite (length_bind_uniform K n), length_seq; [done|].
  apply Forall_forall. intros i Hi%elem_of_seq. apply HK. lia.
Qed.

Lemma chunks_bind {X Y} (K : X → list Y) (k n : nat) (l : list X) :
  k = length l → Forall (fun x => length (K x) = n) l →
  chunks k n (l ≫= K) = K <$> l.
Proof.
  intros -> HK. rewrite <- bind_concat_fmap. rewrite <- (length_fmap K).
  apply chunks_concat. by apply Forall_fmap.
Qed.

Lemma bands_bind {Y} (B H R : nat) (G : nat * nat * nat → list Y) :
  bands B H R ≫= G = (b ← seq 0 B; h ← seq 0 H; r ← seq 0 R; G (b, h, r)).
Proof.
  unfold bands. rewrite bind_bind. apply list_bind_ext; [intros b|done].
  rewrite bind_bind. apply list_bind_ext; [intros h|done].
  rewrite bind_bind. apply list_bind_ext; [intros r|done]. apply bind_singleton.
Qed.

Lemma length_bands (B H R : nat) : length (bands B H R) = (B * H * R)%nat.
Proof.
  unfold bands. rewrite (length_bind_seq _ B (H * R)); [lia|]. intros b _.
  rewrite (length_bind_seq _ H R); [lia|]. intros h _.
  rewrite (length_bind_seq _ R 1); [lia|]. done.
Qed.

Lemma take_drop_bind_seq {Y} (P : nat → list Y) (C n c : nat) :
  (∀ x, (x < C)%nat → length (P x) = n) → (c < C)%nat →
  take n (drop (c * n) (seq 0 C ≫= P)) = P c.
Proof.
  intros HP Hc.
  assert (Hl : chunks C n (seq 0 C ≫= P) !! c = Some (take n (drop (c * n) (seq 0 C ≫= P))))
    by by apply lookup_chunks.
  rewrite chunks_bind in Hl.
  - rewrite list_lookup_fmap, lookup_seq_lt in Hl by done. cbn in Hl. congruence.
  - by rewrite length_seq.
  - apply Forall_forall. intros x Hx%elem_of_seq. apply HP. lia.
Qed.

(** The tiles of a mask computed from the index tuples of its elements are
    computed from the index tuples of the tiles' elements. *)
Lemma mask_tiles_coordinates (F : list Z → Z) (B H R C Qb KVb : nat) :
  mask_tiles B H R C Qb KVb (F <$> coordinates B H (R * Qb) (C * KVb))
  = (fun idx => F <$> tile_elements Qb KVb idx) <$> coordinates B H R C.
Proof.
  set (el := fun (b h r i c j : nat) =>
    [Z.of_nat b; Z.of_nat h; Z.of_nat r * Z.of_nat Qb + Z.of_nat i;
     Z.of_nat c * Z.of_nat KVb + Z.of_nat j]).
  set (piece := fun (b h r i c : nat) => seq 0 KVb ≫= fun j => [F (el b h r i c j)]).
  set (row := fun (b h r i : nat) => seq 0 C ≫= piece b h r i).
  set (band := fun t : nat * nat * nat => seq 0 Qb ≫= row t.1.1 t.1.2 t.2).
  assert (Hpiece : ∀ b h r i c, length (piece b h r i c) = KVb).
  { intros. unfold piece. rewrite (length_bind_seq _ KVb 1); [lia|done]. }
  assert (Hrow : ∀ b h r i, length (row b h r i) = (C * KVb)%nat).
  { intros. unfold row. by rewrite (length_bind_seq _ C KVb). }
  assert (Hband : ∀ t, length (band t) = (Qb * (C * KVb))%nat).
  { intros. unfold band. by rewrite (length_bind_seq _ Qb (C * KVb)). }
  assert (Hd : F <$> coordinates B H (R * Qb) (C * KVb) = bands B H R ≫= band).
  { rewrite bands_bind. unfold coordinates. rewrite fmap_bind.
    apply list_bind_ext; [intros b|done]. rewrite fmap_bind.
    apply list_bind_ext; [intros h|done]. rewrite fmap_bind.
    rewrite <- (bind_seq_mul R Qb). apply list_bind_ext; [intros r|done].
    unfold band. cbn [fst snd]. apply list_bind_ext; [intros i|done].
    rewrite fmap_bind. unfold row. rewrite <- (bind_seq_mul C KVb).
    apply list_bind_ext; [intros c|done]. unfold piece.
    apply list_bind_ext; [intros j|done]. cbn. unfold el. do 2 f_equal.
    by rewrite !Nat2Z.inj_add, !Nat2Z.inj_mul. }
  rewrite Hd. unfold mask_tiles.
  rewrite chunks_bind; [|by rewrite length_bands|by apply Forall_forall].
  rewrite <- list_fmap_compose, bind_concat_fmap, bands_bind.
  unfold coordinates. rewrite fmap_bind. apply list_bind_ext; [intros b|done].
  rewrite fmap_bind. apply list_bind_ext; [intros h|done].
  rewrite fmap_bind. apply list_bind_ext; [intros r|done].
  unfold compose. rewrite fmap_bind, <- bind_ret_fmap.
  apply bind_seq_ext. intros c Hc. cbn [fmap list_fmap]. f_equal.
  unfold band. cbn [fst snd].
  rewrite chunks_bind; [|by rewrite length_seq|by apply Forall_forall].
  unfold tile_of. rewrite <- list_fmap_compose, bind_concat_fmap.
  unfold tile_elements. rewrite fmap_bind. apply list_bind_ext; [intros i|done].
  unfold compose, row. rewrite take_drop_bind_seq by done.
  unfold piece. rewrite fmap_bind. by apply list_bind_ext.
Qed.

Lemma length_coordinates (B H M N : nat) :
  length (coordinates B H M N) = (B * H * M * N)%nat.
Proof.
  unfold coordinates. rewrite (length_bind_seq _ B (H * (M * N))); [lia|]. intros b _.
  rewrite (length_bind_seq _ H (M * N)); [lia|]. intros h _.
  rewrite (length_bind_seq _ M N); [lia|]. intros m _.
  rewrite (length_bind_seq _ N 1); [lia|]. done.
Qed.

Lemma elem_of_coordinates (B H M N : nat) (idx : list Z) :
  idx ∈ coordinates B H M N ↔
  ∃ b h m n : nat,
    idx = [Z.of_nat b; Z.of_nat h; Z.of_nat m; Z.of_nat n]
    ∧ (b < B)%nat ∧ (h < H)%nat ∧ (m < M)%nat ∧ (n < N)%nat.
Proof.
  unfold coordinates. split.
  - intros (b & (h & (m & (n & Hidx & Hn)%list_elem_of_bind & Hm)%list_elem_of_bind
              & Hh)%list_elem_of_bind & Hb)%list_elem_of_bind.
    apply list_elem_of_singleton in Hidx.
    apply elem_of_seq in Hb, Hh, Hm, Hn. exists b, h, m, n. split; [done|]. lia.
  - intros (b & h & m & n & -> & Hb & Hh & Hm & Hn).
    apply list_elem_of_bind. exists b. split; [|apply elem_of_seq; lia].
    apply list_elem_of_bind. exists h. split; [|apply elem_of_seq; lia].
    apply list_elem_of_bind. exists m. split; [|apply elem_of_seq; lia].
    apply list_elem_of_bind. exists n. split; [|apply elem_of_seq; lia].
    by apply list_elem_of_singleton.
Qed.

Lemma elem_of_tile_elements (Qb KVb : nat) (b h r c : Z) (e : list Z) :
  e ∈ tile_elements Qb KVb [b; h; r; c] ↔
  ∃ i j : nat,
    e = [b; h; r * Z.of_nat Qb + Z.of_nat i; c * Z.of_nat KVb + Z.of_nat j]
    ∧ (i < Qb)%nat ∧ (j < KVb)%nat.
Proof.
  unfold tile_elements. split.
  - intros (i & (j & He & Hj)%list_elem_of_bind & Hi)%list_elem_of_bind.
    apply list_elem_of_singleton in He. apply elem_of_seq in Hi, Hj.
    exists i, j. split; [done|]. lia.
  - intros (i & j & -> & Hi & Hj).
    apply list_elem_of_bind. exists i. split; [|apply elem_of_seq; lia].
    apply list_elem_of_bind. exists j. split; [|apply elem_of_seq; lia].
    by apply list_elem_of_singleton.
Qed.

Lemma length_tile_elements (Qb KVb : nat) (b h r c : Z) :
  length (tile_elements Qb KVb [b; h; r; c]) = (Qb * KVb)%nat.
Proof.
  unfold tile_elements. rewrite (length_bind_seq _ Qb KVb); [done|]. intros i _.
  by rewrite (length_bind_seq _ KVb 1); [lia|].
Qed.

(** The conversion of a mask computed element by element from the index
    tuples: the sum of every tile, tile position by tile position. *)
Lemma zsum_fmap_bits (F : list Z → Z) (els : list (list Z)) :
  (∀ e, is_bit (F e)) →
  (zsum (F <$> els) = Z.of_nat (length els) ↔ Forall (fun e => F e = 1) els)
  ∧ (0 < zsum (F <$> els) ↔ Exists (fun e => F e = 1) els)
  ∧ 0 ≤ zsum (F <$> els) ≤ Z.of_nat (length els).
Proof.
  intros HF.
  assert (Hbits : Forall is_bit (F <$> els)) by (apply Forall_fmap, Forall_forall; auto).
  destruct (zsum_bits_full _ Hbits) as [Hrange Hall].
  pose proof (zsum_bits_zero _ Hbits) as Hnone.
  rewrite length_fmap in Hrange, Hall. unfold all_false in Hnone.
  rewrite Forall_fmap in Hall, Hnone. split; [done|]. split; [|done].
  split.
  - intros Hpos. apply dec_stable. intros Hno.
    assert (Hz : Forall (fun e => F e = 0) els).
    { apply Forall_forall. intros e He. destruct (HF e) as [?|Hone]; [done|].
      exfalso. apply Hno, Exists_exists. eauto. }
    apply Hnone in Hz. lia.
  - intros (e & He & Hone)%Exists_exists.
    assert (zsum (F <$> els) ≠ 0); [|lia].
    intros Hz%Hnone. rewrite Forall_forall in Hz. specialize (Hz e He).
    cbn in Hz. lia.
Qed.

(** X17: for a mask predicate that returns booleans and a mask of non-zero
    extents (at least one batch entry, one head, one row and one column of
    tiles), the full and partial grids that [_convert_mask_to_block_mask]
    computes from the mask of [_create_mask_from_mask_fn] are, tile position
    by tile position in row-major order: FULL exactly when the predicate
    holds at every index tuple of the tile, PARTIAL exactly when it holds at
    some but not all. *)
Theorem predicate_tiles_by_index (fn : PyFn) (B H R C Qb KVb : nat) :
  (0 < B)%nat → (0 < H)%nat → (0 < R)%nat → (0 < C)%nat →
  binds fn 4 = true →
  Forall (fun idx => is_bool (body fn idx) = true)
    (coordinates B H (R * Qb) (C * KVb)) →
  (0 < Qb)%nat → (0 < KVb)%nat → Z.of_nat (Qb * KVb) < 2 ^ 63 →
  ∃ mask full partial,
    _create_mask_from_mask_fn fn B H (R * Qb) (C * KVb) = Ok mask
    ∧ _convert_mask_to_block_mask mask (Z.of_nat KVb) (Z.of_nat Qb) (Some fn)
      = Ok (full, Some partial)
    ∧ Forall is_bit (tdata full) ∧ Forall is_bit (tdata partial)
    ∧ Forall2 (fun idx f =>
                 f = 1 ↔ Forall (fun e => body fn e = SBool true)
                           (tile_elements Qb KVb idx))
        (coordinates B H R C) (tdata full)
    ∧ Forall2 (fun idx p =>
                 p = 1 ↔ Exists (fun e => body fn e = SBool true)
                           (tile_elements Qb KVb idx)
                         ∧ ¬ Forall (fun e => body fn e = SBool true)
                               (tile_elements Qb KVb idx))
        (coordinates B H R C) (tdata partial).
Proof.
  intros HB HH HR HC Hbinds Hbool HQb HKVb H63.
  set (F := fun idx => scalar_data (body fn idx)).
  assert (HF : ∀ e, is_bit (F e)).
  { intros e. unfold F. destruct (body fn e) as [[|]|]; by (left + right). }
  assert (HF1 : ∀ e, F e = 1 ↔ body fn e = SBool true).
  { intros e. unfold F. by destruct (body fn e) as [[|]|]. }
  set (mask := mkTensor Bool [B; H; (R * Qb)%nat; (C * KVb)%nat]
                 (F <$> coordinates B H (R * Qb) (C * KVb))).
  assert (Hmask : _create_mask_from_mask_fn fn B H (R * Qb) (C * KVb) = Ok mask).
  { unfold _create_mask_from_mask_fn, vmap_call. rewrite Hbinds.
    cbn [mbind Result_bind].
    assert (Hall : forallb is_bool (body fn <$> coordinates B H (R * Qb) (C * KVb)) = true).
    { apply Is_true_eq_true, forallb_True, Forall_fmap.
      eapply Forall_impl; [exact Hbool|]. intros idx Hidx. cbn. by rewrite Hidx. }
    rewrite Hall. unfold mask. by rewrite <- list_fmap_compose. }
  exists mask. do 2 eexists. split; [exact Hmask|].
  split.
  { apply classify_tiles; try done.
    - cbn [tdata mask]. rewrite length_fmap, length_coordinates. done.
    - cbn [tdata mask]. apply Forall_fmap, Forall_forall. intros idx _. apply HF. }
  cbn [tdata mask]. rewrite mask_tiles_coordinates, <- !list_fmap_compose.
  split; [apply Forall_fmap, Forall_forall; intros idx _; unfold compose;
          destruct (_ =? _); by (left + right)|].
  split; [apply Forall_fmap, Forall_forall; intros idx _; unfold compose;
          destruct (_ && _); by (left + right)|].
  split.
  - apply Forall2_fmap_r, Forall_Forall2_diag, Forall_forall.
    intros idx (b & h & r & c & -> & _)%elem_of_coordinates. unfold compose.
    destruct (zsum_fmap_bits F (tile_elements Qb KVb
                [Z.of_nat b; Z.of_nat h; Z.of_nat r; Z.of_nat c]) HF)
      as (Hall & _ & _).
    rewrite length_tile_elements in Hall.
    setoid_rewrite HF1 in Hall. rewrite <- Hall.
    destruct (Z.eqb_spec (zsum (F <$> tile_elements Qb KVb
                [Z.of_nat b; Z.of_nat h; Z.of_nat r; Z.of_nat c])) (Z.of_nat (Qb * KVb)));
      split; (done || lia).
  - apply Forall2_fmap_r, Forall_Forall2_diag, Forall_forall.
    intros idx (b & h & r & c & -> & _)%elem_of_coordinates. unfold compose.
    destruct (zsum_fmap_bits F (tile_elements Qb KVb
                [Z.of_nat b; Z.of_nat h; Z.of_nat r; Z.of_nat c]) HF)
      as (Hall & Hsome & Hrange).
    rewrite length_tile_elements in Hall, Hrange.
    setoid_rewrite HF1 in Hall. setoid_rewrite HF1 in Hsome.
    rewrite <- Hall, <- Hsome.
    destruct (Z.ltb_spec 0 (zsum (F <$> tile_elements Qb KVb
                [Z.of_nat b; Z.of_nat h; Z.of_nat r; Z.of_nat c])));
      destruct (Z.ltb_spec (zsum (F <$> tile_elements Qb KVb
                [Z.of_nat b; Z.of_nat h; Z.of_nat r; Z.of_nat c])) (Z.of_nat (Qb * KVb)));
      cbn [andb]; split; intros; destruct_and?; try done; try lia; split; lia.
Qed.

(** The predicate [kv_idx == 2] over 1 x 4 elements, in tiles of 1 x 2. *)
Lemma predicate_tiles_by_index_third_key :
  ∃ mask full partial,
    _create_mask_from_mask_fn third_key 1 1 (1 * 1) (2 * 2) = Ok mask
    ∧ _convert_mask_to_block_mask mask (Z.of_nat 2) (Z.of_nat 1) (Some third_key)
      = Ok (full, Some partial)
    ∧ Forall is_bit (tdata full) ∧ Forall is_bit (tdata partial)
    ∧ Forall2 (fun idx f =>
                 f = 1 ↔ Forall (fun e => body third_key e = SBool true)
                           (tile_elements 1 2 idx))
        (coordinates 1 1 1 2) (tdata full)
    ∧ Forall2 (fun idx p =>
                 p = 1 ↔ Exists (fun e => body third_key e = SBool true)
                           (tile_elements 1 2 idx)
                         ∧ ¬ Forall (fun e => body third_key e = SBool true)
                               (tile_elements 1 2 idx))
        (coordinates 1 1 1 2) (tdata partial).
Proof.
  apply (predicate_tiles_by_index third_key 1 1 1 2 1 2);
    [lia | lia | lia | lia | reflexivity | by repeat constructor | lia | lia
    | by vm_compute].
Defined.

(** X18: for a score mod and a mask of non-zero extents (at least one batch
    entry, one head, one row and one column of tiles), the one grid that
    [_convert_mask_to_block_mask] computes from the mask of
    [_create_mask_from_score_mod] has, tile position by tile position in
    row-major order, a tile set exactly when the score mod, called on the
    score 0, returns something other than [-inf] at some index tuple of the
    tile. *)
Theorem score_mod_tiles_by_index (fn : PyFn) (B H R C Qb KVb : nat) :
  (0 < B)%nat → (0 < H)%nat → (0 < R)%nat → (0 < C)%nat →
  binds fn 5 = true →
  (0 < Qb)%nat → (0 < KVb)%nat → Z.of_nat (Qb * KVb) < 2 ^ 63 →
  ∃ mask grid,
    _create_mask_from_score_mod fn B H (R * Qb) (C * KVb) = Ok mask
    ∧ _convert_mask_to_block_mask mask (Z.of_nat KVb) (Z.of_nat Qb) None
      = Ok (grid, None)
    ∧ Forall is_bit (tdata grid)
    ∧ Forall2 (fun idx g =>
                 g = 1 ↔ Exists (fun e => isneginf (body fn (0 :: e)) = false)
                           (tile_elements Qb KVb idx))
        (coordinates B H R C) (tdata grid).
Proof.
  intros HB HH HR HC Hbinds HQb HKVb H63.
  set (F := fun idx => if isneginf (body fn (0 :: idx)) then 0 else 1).
  assert (HF : ∀ e, is_bit (F e)).
  { intros e. unfold F. destruct (isneginf _); by (left + right). }
  assert (HF1 : ∀ e, F e = 1 ↔ isneginf (body fn (0 :: e)) = false).
  { intros e. unfold F. by destruct (isneginf _). }
  set (mask := mkTensor Bool [B; H; (R * Qb)%nat; (C * KVb)%nat]
                 (F <$> coordinates B H (R * Qb) (C * KVb))).
  assert (Hmask : _create_mask_from_score_mod fn B H (R * Qb) (C * KVb) = Ok mask).
  { unfold _create_mask_from_score_mod, vmap_call. rewrite Hbinds.
    cbn [mbind Result_bind]. unfold mask. by rewrite <- !list_fmap_compose. }
  exists mask. eexists. split; [exact Hmask|].
  split.
  { apply classify_tiles_none; try done.
    - cbn [tdata mask]. rewrite length_fmap, length_coordinates. done.
    - cbn [tdata mask]. apply Forall_fmap, Forall_forall. intros idx _. apply HF. }
  cbn [tdata mask]. rewrite mask_tiles_coordinates, <- !list_fmap_compose.
  split; [apply Forall_fmap, Forall_forall; intros idx _; unfold compose;
          destruct (_ <? _); by (left + right)|].
  apply Forall2_fmap_r, Forall_Forall2_diag, Forall_forall.
  intros idx (b & h & r & c & -> & _)%elem_of_coordinates. unfold compose.
  destruct (zsum_fmap_bits F (tile_elements Qb KVb
              [Z.of_nat b; Z.of_nat h; Z.of_nat r; Z.of_nat c]) HF)
    as (_ & Hsome & _).
  setoid_rewrite HF1 in Hsome. rewrite <- Hsome.
  destruct (Z.ltb_spec 0 (zsum (F <$> tile_elements Qb KVb
              [Z.of_nat b; Z.of_nat h; Z.of_nat r; Z.of_nat c]))); split; (done || lia).
Qed.

(** [_causal] over 2 x 2 elements, in tiles of 1 x 1. *)
Lemma score_mod_tiles_by_index_causal :
  ∃ mask grid,
    _create_mask_from_score_mod _causal 1 1 (2 * 1) (2 * 1) = Ok mask
    ∧ _convert_mask_to_block_mask mask (Z.of_nat 1) (Z.of_nat 1) None
      = Ok (grid, None)
    ∧ Forall is_bit (tdata grid)
    ∧ Forall2 (fun idx g =>
                 g = 1 ↔ Exists (fun e => isneginf (body _causal (0 :: e)) = false)
                           (tile_elements 1 1 idx))
        (coordinates 1 1 2 2) (tdata grid).
Proof.
  apply (score_mod_tiles_by_index _causal 1 1 2 2 1 1);
    [lia | lia | lia | lia | reflexivity | lia | lia | by vm_compute].
Defined.

(** X19: the grid of [_causal], for tiles of any size: the tile at row [r]
    and column [c] is computed exactly when its first key position is not
    beyond its last query position, [c * KVb < (r + 1) * Qb]. *)
Theorem causal_tiles (B H R C Qb KVb : nat) :
  (0 < Qb)%nat → (0 < KVb)%nat → Z.of_nat (Qb * KVb) < 2 ^ 63 →
  ∃ mask grid,
    _create_mask_from_score_mod _causal B H (R * Qb) (C * KVb) = Ok mask
    ∧ _convert_mask_to_block_mask mask (Z.of_nat KVb) (Z.of_nat Qb) None
      = Ok (grid, None)
    ∧ Forall is_bit (tdata grid)
    ∧ Forall2 (fun idx g =>
                 ∀ b h r c, idx = [b; h; r; c] →
                   (g = 1 ↔ c * Z.of_nat KVb < (r + 1) * Z.of_nat Qb))
        (coordinates B H R C) (tdata grid).
Proof.
  intros HQb HKVb H63.
  set (F := fun idx => if isneginf (body _causal (0 :: idx)) then 0 else 1).
  assert (HF : ∀ e, is_bit (F e)).
  { intros e. unfold F. destruct (isneginf _); by (left + right). }
  set (mask := mkTensor Bool [B; H; (R * Qb)%nat; (C * KVb)%nat]
                 (F <$> coordinates B H (R * Qb) (C * KVb))).
  assert (Hmask : _create_mask_from_score_mod _causal B H (R * Qb) (C * KVb) = Ok mask).
  { unfold _create_mask_from_score_mod, vmap_call.
    change (binds _causal 5) with true.
    cbn [mbind Result_bind]. unfold mask. by rewrite <- !list_fmap_compose. }
  exists mask. eexists. split; [exact Hmask|].
  split.
  { apply classify_tiles_none; try done.
    - cbn [tdata mask]. rewrite length_fmap, length_coordinates. done.
    - cbn [tdata mask]. apply Forall_fmap, Forall_forall. intros idx _. apply HF. }
  cbn [tdata mask]. rewrite mask_tiles_coordinates, <- !list_fmap_compose.
  split; [apply Forall_fmap, Forall_forall; intros idx _; unfold compose;
          destruct (_ <? _); by (left + right)|].
  apply Forall2_fmap_r, Forall_Forall2_diag, Forall_forall.
  intros idx (b & h & r & c & -> & _)%elem_of_coordinates. unfold compose.
  intros b' h' r' c' [= <- <- <- <-].
  destruct (zsum_fmap_bits F (tile_elements Qb KVb
              [Z.of_nat b; Z.of_nat h; Z.of_nat r; Z.of_nat c]) HF)
    as (_ & Hsome & _).
  assert (Hex : Exists (fun e => F e = 1)
                  (tile_elements Qb KVb [Z.of_nat b; Z.of_nat h; Z.of_nat r; Z.of_nat c])
                ↔ Z.of_nat c * Z.of_nat KVb < (Z.of_nat r + 1) * Z.of_nat Qb).
  { rewrite Exists_exists. split.
    - intros (e & (i & j & -> & Hi & Hj)%elem_of_tile_elements & He).
      unfold F in He. cbn [body _causal isneginf] in He.
      match type of He with
      | context [?x <=? ?y] => destruct (Z.leb_spec x y); [lia|done]
      end.
    - intros Hlt.
      exists [Z.of_nat b; Z.of_nat h;
              Z.of_nat r * Z.of_nat Qb + Z.of_nat (Qb - 1);
              Z.of_nat c * Z.of_nat KVb + Z.of_nat 0].
      split; [apply elem_of_tile_elements; exists (Qb - 1)%nat, 0%nat;
              split; [done|lia]|].
      unfold F. cbn [body _causal isneginf].
      match goal with
      | |- context [?x <=? ?y] =>
          replace (x <=? y) with true by (symmetry; apply Z.leb_le; lia)
      end. done. }
  rewrite <- Hex, <- Hsome.
  destruct (Z.ltb_spec 0 (zsum (F <$> tile_elements Qb KVb
              [Z.of_nat b; Z.of_nat h; Z.of_nat r; Z.of_nat c]))); split; (done || lia).
Qed.

(** Three rows of tiles of 2 x 3 elements. *)
Lemma causal_tiles_2x3 :
  ∃ mask grid,
    _create_mask_from_score_mod _causal 1 1 (3 * 2) (2 * 3) = Ok mask
    ∧ _convert_mask_to_block_mask mask (Z.of_nat 3) (Z.of_nat 2) None
      = Ok (grid, None)
    ∧ Forall is_bit (tdata grid)
    ∧ Forall2 (fun idx g =>
                 ∀ b h r c, idx = [b; h; r; c] →
                   (g = 1 ↔ c * Z.of_nat 3 < (r + 1) * Z.of_nat 2))
        (coordinates 1 1 3 2) (tdata grid).
Proof.
  apply (causal_tiles 1 1 3 2 2 3); [lia | lia | by vm_compute].
Defined.

(** ** Indexing a BlockMask *)

Lemma select_in_range (t : Tensor) (i : Z) (n : nat) (s : list nat) :
  tshape t = n :: s → - Z.of_nat n ≤ i < Z.of_nat n →
  ∃ t', select t i = Ok t' ∧ tshape t' = s.
Proof.
  intros Hs Hi. unfold select. rewrite Hs.
  destruct (Z.ltb_spec i 0).
  - destruct (Z.leb_spec 0 (i + Z.of_nat n)), (Z.ltb_spec (i + Z.of_nat n) (Z.of_nat n));
      try lia. cbn [andb]. by eexists.
  - destruct (Z.leb_spec 0 i), (Z.ltb_spec i (Z.of_nat n)); try lia.
    cbn [andb]. by eexists.
Qed.

Lemma select_out_of_range (t : Tensor) (i : Z) (n : nat) (s : list nat) :
  tshape t = n :: s → ¬ (- Z.of_nat n ≤ i < Z.of_nat n) →
  select t i = Err IndexError.
Proof.
  intros Hs Hi. unfold select. rewrite Hs.
  destruct (Z.ltb_spec i 0).
  - by destruct (Z.leb_spec 0 (i + Z.of_nat n)), (Z.ltb_spec (i + Z.of_nat n) (Z.of_nat n));
      try lia.
  - by destruct (Z.leb_spec 0 i), (Z.ltb_spec i (Z.of_nat n)); try lia.
Qed.

Lemma select_Ok (t t' : Tensor) (i : Z) :
  select t i = Ok t' →
  ∃ n, tshape t = n :: tshape t' ∧ - Z.of_nat n ≤ i < Z.of_nat n.
Proof.
  unfold select. destruct (tshape t) as [|n s]; [done|].
  destruct (Z.ltb_spec i 0).
  - destruct (Z.leb_spec 0 (i + Z.of_nat n)), (Z.ltb_spec (i + Z.of_nat n) (Z.of_nat n));
      try done. intros [= <-]. exists n. split; [done|lia].
  - destruct (Z.leb_spec 0 i), (Z.ltb_spec i (Z.of_nat n)); try done.
    intros [= <-]. exists n. split; [done|lia].
Qed.

Lemma tensor_getitem_one (x : Tensor) (i : Z) : BlockMask.tensor_getitem [i] x = select x i.
Proof. unfold BlockMask.tensor_getitem. cbn. by destruct (select x i). Qed.

Lemma last_dim_tail (t t' : Tensor) (n : nat) :
  tshape t = n :: tshape t' → (2 ≤ dim t)%nat → last_dim t' = last_dim t.
Proof.
  unfold last_dim, dim. intros -> Hd. cbn in Hd.
  destruct (tshape t') as [|m s]; [cbn in Hd; lia|]. done.
Qed.

(** X20: indexing a BlockMask with one integer drops the first dimension of
    its shape and keeps the block sizes and the predicate, provided the two
    forward count arrays have at least two dimensions. *)
Theorem getitem_drops_first_dimension (bm bm' : BlockMask.t) (i : Z) :
  BlockMask.getitem bm [i] = Ok bm' →
  (2 ≤ dim (BlockMask.full_kv_num_blocks bm))%nat →
  (2 ≤ dim (BlockMask.full_q_num_blocks bm))%nat →
  ∃ d s,
    BlockMask.shape bm = Ok (d :: s) ∧ BlockMask.shape bm' = Ok s
    ∧ BlockMask.KV_BLOCK_SIZE bm' = BlockMask.KV_BLOCK_SIZE bm
    ∧ BlockMask.Q_BLOCK_SIZE bm' = BlockMask.Q_BLOCK_SIZE bm
    ∧ BlockMask.mask_fn bm' = BlockMask.mask_fn bm.
Proof.
  intros Hget Hkn Hqn.
  assert (Hparts : ∃ kn ki qn,
    select (BlockMask.full_kv_num_blocks bm) i = Ok kn
    ∧ select (BlockMask.full_kv_indices bm) i = Ok ki
    ∧ select (BlockMask.full_q_num_blocks bm) i = Ok qn
    ∧ BlockMask.full_kv_num_blocks bm' = kn ∧ BlockMask.full_kv_indices bm' = ki
    ∧ BlockMask.full_q_num_blocks bm' = qn
    ∧ (2 ≤ dim ki)%nat
    ∧ BlockMask.KV_BLOCK_SIZE bm' = BlockMask.KV_BLOCK_SIZE bm
    ∧ BlockMask.Q_BLOCK_SIZE bm' = BlockMask.Q_BLOCK_SIZE bm
    ∧ BlockMask.mask_fn bm' = BlockMask.mask_fn bm).
  { unfold BlockMask.getitem, BlockMask.as_tuple_tensors in Hget.
    destruct (BlockMask.mask_fn bm) as [fn|] eqn:Hfn;
      cbn [take mapR] in Hget; rewrite !tensor_getitem_one in Hget;
      inv_bind Hget as ts Hts;
      inv_bind Hts as kn Hkn'; inv_bind Hts as r1 Hr1;
      inv_bind Hr1 as ki Hki; inv_bind Hr1 as r2 Hr2;
      inv_bind Hr2 as qn Hqn'; inv_bind Hr2 as r3 Hr3;
      inv_bind Hr3 as qi Hqi; inv_bind Hr3 as r4 Hr4.
    - inv_bind Hr4 as pkn Hpkn; inv_bind Hr4 as r5 Hr5.
      inv_bind Hr5 as pki Hpki; inv_bind Hr5 as r6 Hr6.
      inv_bind Hr6 as pqn Hpqn; inv_bind Hr6 as r7 Hr7.
      inv_bind Hr7 as pqi Hpqi; inv_bind Hr7 as r8 Hr8.
      injection Hr8 as <-. injection Hr7 as <-. injection Hr6 as <-.
      injection Hr5 as <-. injection Hr4 as <-. injection Hr3 as <-.
      injection Hr2 as <-. injection Hr1 as <-. injection Hts as <-.
      assert (Hdim : (2 ≤ dim ki)%nat).
      { unfold BlockMask.init in Hget.
        destruct (Nat.ltb_spec (dim ki) 2); [done|lia]. }
      apply init_Ok in Hget as ->. exists kn, ki, qn. by repeat split.
    - injection Hr4 as <-. injection Hr3 as <-.
      injection Hr2 as <-. injection Hr1 as <-. injection Hts as <-.
      assert (Hdim : (2 ≤ dim ki)%nat).
      { unfold BlockMask.init in Hget.
        destruct (Nat.ltb_spec (dim ki) 2); [done|lia]. }
      apply init_Ok in Hget as ->. exists kn, ki, qn. by repeat split. }
  destruct Hparts as (kn & ki & qn & Hskn & Hski & Hsqn & Ekn & Eki & Eqn & Hdim & HK & HQ & HF).
  apply select_Ok in Hskn as (n1 & Hs1 & _).
  apply select_Ok in Hski as (n2 & Hs2 & _).
  apply select_Ok in Hsqn as (n3 & Hs3 & _).
  unfold dim in Hdim.
  destruct (reverse (tshape ki)) as [|y [|x rest]] eqn:Hrev.
  { apply (f_equal length) in Hrev. rewrite length_reverse in Hrev. cbn in Hrev. lia. }
  { apply (f_equal length) in Hrev. rewrite length_reverse in Hrev. cbn in Hrev. lia. }
  assert (Hki : tshape ki = reverse rest ++ [x; y]).
  { rewrite <- (reverse_involutive (tshape ki)), Hrev.
    by rewrite !reverse_cons, <- app_assoc. }
  destruct (last_dim (BlockMask.full_kv_num_blocks bm)) as [rows|] eqn:Hrows.
  2:{ unfold last_dim in Hrows. rewrite Hs1 in Hrows.
      destruct (last (n1 :: tshape kn)) eqn:Hl; [done|]. by apply last_None in Hl. }
  destruct (last_dim (BlockMask.full_q_num_blocks bm)) as [cols|] eqn:Hcols.
  2:{ unfold last_dim in Hcols. rewrite Hs3 in Hcols.
      destruct (last (n3 :: tshape qn)) eqn:Hl; [done|]. by apply last_None in Hl. }
  exists (Z.of_nat n2). eexists. split; [|split; [|done]].
  - rewrite (shape_eq bm (n2 :: reverse rest) x y rows cols); [|by rewrite Hs2, Hki|done..].
    cbn [fmap list_fmap app]. reflexivity.
  - rewrite <- HK, <- HQ.
    apply (shape_eq bm' (reverse rest) x y rows cols).
    + by rewrite Eki.
    + rewrite Ekn. by rewrite (last_dim_tail _ kn n1 Hs1 Hkn).
    + rewrite Eqn. by rewrite (last_dim_tail _ qn n3 Hs3 Hqn).
Qed.

(** A BlockMask of one batch entry and one head, with one tile, and its
    first (and only) batch entry. *)
Lemma getitem_drops_first_dimension_one_tile :
  let z3 := zeros [1; 1; 1]%nat Int32 in
  let z4 := zeros [1; 1; 1; 1]%nat Int32 in
  let bm := BlockMask.mk z3 z4 z3 z4 z3 z4 z3 z4 128 128 None in
  let bm' := BlockMask.mk (zeros [1; 1]%nat Int32) (zeros [1; 1; 1]%nat Int32)
               (zeros [1; 1]%nat Int32) (zeros [1; 1; 1]%nat Int32)
               z3 z4 z3 z4 128 128 None in
  ∃ d s,
    BlockMask.shape bm = Ok (d :: s) ∧ BlockMask.shape bm' = Ok s
    ∧ BlockMask.KV_BLOCK_SIZE bm' = BlockMask.KV_BLOCK_SIZE bm
    ∧ BlockMask.Q_BLOCK_SIZE bm' = BlockMask.Q_BLOCK_SIZE bm
    ∧ BlockMask.mask_fn bm' = BlockMask.mask_fn bm.
Proof.
  apply (getitem_drops_first_dimension
           (BlockMask.mk (zeros [1; 1; 1]%nat Int32) (zeros [1; 1; 1; 1]%nat Int32)
              (zeros [1; 1; 1]%nat Int32) (zeros [1; 1; 1; 1]%nat Int32)
              (zeros [1; 1; 1]%nat Int32) (zeros [1; 1; 1; 1]%nat Int32)
              (zeros [1; 1; 1]%nat Int32) (zeros [1; 1; 1; 1]%nat Int32) 128 128 None)
           _ 0); [reflexivity | cbn; lia | cbn; lia].
Defined.

Lemma mapR_Forall2 {A A' B} (f : A → Result B) (g : A' → Result B) xs ys :
  Forall2 (fun x y => f x = g y) xs ys → mapR f xs = mapR g ys.
Proof. induction 1 as [|x y xs ys Hxy _ IH]; [done|]. cbn. by rewrite Hxy, IH. Qed.

Lemma tensor_getitem_cons (x : Tensor) (i : Z) (index : list Z) :
  BlockMask.tensor_getitem (i :: index) x = select x i ≫= BlockMask.tensor_getitem index.
Proof. done. Qed.

(** What a successful [bm[i]] consists of. *)
Lemma getitem_one_Ok (bm bm' : BlockMask.t) (i : Z) :
  BlockMask.getitem bm [i] = Ok bm' →
  Forall2 (fun x y => select x i = Ok y)
    (take 4 (BlockMask.as_tuple_tensors bm)) (take 4 (BlockMask.as_tuple_tensors bm'))
  ∧ match BlockMask.mask_fn bm with
    | Some _ =>
        Forall2 (fun x y => select x i = Ok y)
          (drop 4 (BlockMask.as_tuple_tensors bm)) (drop 4 (BlockMask.as_tuple_tensors bm'))
    | None =>
        drop 4 (BlockMask.as_tuple_tensors bm') = drop 4 (BlockMask.as_tuple_tensors bm)
    end
  ∧ BlockMask.KV_BLOCK_SIZE bm' = BlockMask.KV_BLOCK_SIZE bm
  ∧ BlockMask.Q_BLOCK_SIZE bm' = BlockMask.Q_BLOCK_SIZE bm
  ∧ BlockMask.mask_fn bm' = BlockMask.mask_fn bm.
Proof.
  intros Hget. unfold BlockMask.getitem, BlockMask.as_tuple_tensors in Hget.
  unfold BlockMask.as_tuple_tensors.
  destruct (BlockMask.mask_fn bm) as [fn|] eqn:Hfn;
    cbn [take drop mapR] in *; rewrite !tensor_getitem_one in Hget;
    inv_bind Hget as ts Hts;
    inv_bind Hts as kn Hkn'; inv_bind Hts as r1 Hr1;
    inv_bind Hr1 as ki Hki; inv_bind Hr1 as r2 Hr2;
    inv_bind Hr2 as qn Hqn'; inv_bind Hr2 as r3 Hr3;
    inv_bind Hr3 as qi Hqi; inv_bind Hr3 as r4 Hr4.
  - inv_bind Hr4 as pkn Hpkn; inv_bind Hr4 as r5 Hr5.
    inv_bind Hr5 as pki Hpki; inv_bind Hr5 as r6 Hr6.
    inv_bind Hr6 as pqn Hpqn; inv_bind Hr6 as r7 Hr7.
    inv_bind Hr7 as pqi Hpqi; inv_bind Hr7 as r8 Hr8.
    injection Hr8 as <-. injection Hr7 as <-. injection Hr6 as <-.
    injection Hr5 as <-. injection Hr4 as <-. injection Hr3 as <-.
    injection Hr2 as <-. injection Hr1 as <-. injection Hts as <-.
    apply init_Ok in Hget as ->. cbn. repeat split; repeat constructor; done.
  - injection Hr4 as <-. injection Hr3 as <-.
    injection Hr2 as <-. injection Hr1 as <-. injection Hts as <-.
    apply init_Ok in Hget as ->. cbn. repeat split; repeat constructor; done.
Qed.

(** X21: indexing twice is indexing with the longer tuple: when [bm[i]]
    succeeds, [bm[i][index]] and [bm[(i,) + index]] are the same BlockMask or
    raise the same exception. *)
Theorem getitem_compose (bm bm1 : BlockMask.t) (i : Z) (index : list Z) :
  BlockMask.getitem bm [i] = Ok bm1 →
  BlockMask.getitem bm (i :: index) = BlockMask.getitem bm1 index.
Proof.
  intros Hget.
  destruct (getitem_one_Ok bm bm1 i Hget) as (Hfull & Hpartial & HK & HQ & HF).
  unfold BlockMask.getitem. rewrite HF, HK, HQ.
  destruct (BlockMask.mask_fn bm) as [fn|].
  - assert (Hall : Forall2 (fun x y => select x i = Ok y)
                     (BlockMask.as_tuple_tensors bm) (BlockMask.as_tuple_tensors bm1)).
    { rewrite <- (take_drop 4 (BlockMask.as_tuple_tensors bm)),
        <- (take_drop 4 (BlockMask.as_tuple_tensors bm1)). by apply Forall2_app. }
    rewrite (mapR_Forall2 (BlockMask.tensor_getitem (i :: index))
               (BlockMask.tensor_getitem index) _ (BlockMask.as_tuple_tensors bm1)); [done|].
    eapply Forall2_impl; [exact Hall|]. intros x y Hxy. cbn beta.
    by rewrite tensor_getitem_cons, Hxy.
  - rewrite (mapR_Forall2 (BlockMask.tensor_getitem (i :: index))
               (BlockMask.tensor_getitem index) _ (take 4 (BlockMask.as_tuple_tensors bm1))).
    + unfold BlockMask.as_tuple_tensors in Hpartial. cbn [drop] in Hpartial.
      injection Hpartial as -> -> -> ->. done.
    + eapply Forall2_impl; [exact Hfull|]. intros x y Hxy. cbn beta.
      by rewrite tensor_getitem_cons, Hxy.
Qed.

(** A BlockMask of one batch entry and one head, with one tile. *)
Lemma getitem_compose_one_tile :
  let z3 := zeros [1; 1; 1]%nat Int32 in
  let z4 := zeros [1; 1; 1; 1]%nat Int32 in
  let bm := BlockMask.mk z3 z4 z3 z4 z3 z4 z3 z4 128 128 None in
  let bm1 := BlockMask.mk (zeros [1; 1]%nat Int32) (zeros [1; 1; 1]%nat Int32)
               (zeros [1; 1]%nat Int32) (zeros [1; 1; 1]%nat Int32)
               z3 z4 z3 z4 128 128 None in
  BlockMask.getitem bm (0 :: [0]) = BlockMask.getitem bm1 [0].
Proof.
  apply (getitem_compose
           (BlockMask.mk (zeros [1; 1; 1]%nat Int32) (zeros [1; 1; 1; 1]%nat Int32)
              (zeros [1; 1; 1]%nat Int32) (zeros [1; 1; 1; 1]%nat Int32)
              (zeros [1; 1; 1]%nat Int32) (zeros [1; 1; 1; 1]%nat Int32)
              (zeros [1; 1; 1]%nat Int32) (zeros [1; 1; 1; 1]%nat Int32) 128 128 None)).
  reflexivity.
Defined.

Ltac fields :=
  cbn [BlockMask.full_kv_num_blocks BlockMask.full_kv_indices
       BlockMask.full_q_num_blocks BlockMask.full_q_indices
       BlockMask.partial_kv_num_blocks BlockMask.partial_kv_indices
       BlockMask.partial_q_num_blocks BlockMask.partial_q_indices
       BlockMask.KV_BLOCK_SIZE BlockMask.Q_BLOCK_SIZE BlockMask.mask_fn].

Lemma shape_layout (bm : BlockMask.t) (batch : list nat) (R C : nat) :
  layout bm batch R C →
  BlockMask.shape bm
  = Ok ((Z.of_nat <$> batch)
        ++ [Z.of_nat R * BlockMask.KV_BLOCK_SIZE bm; Z.of_nat C * BlockMask.Q_BLOCK_SIZE bm]).
Proof.
  intros (Hkn & Hki & Hqn & _). apply (shape_eq bm batch R C); [done|..];
    unfold last_dim; by rewrite ?Hkn, ?Hqn, last_snoc.
Qed.

Lemma getitem_layout (bm : BlockMask.t) (d : nat) (batch : list nat) (R C : nat) (i : Z) :
  layout bm (d :: batch) R C → - Z.of_nat d ≤ i < Z.of_nat d →
  ∃ bm', BlockMask.getitem bm [i] = Ok bm' ∧ layout bm' batch R C
    ∧ BlockMask.KV_BLOCK_SIZE bm' = BlockMask.KV_BLOCK_SIZE bm
    ∧ BlockMask.Q_BLOCK_SIZE bm' = BlockMask.Q_BLOCK_SIZE bm
    ∧ BlockMask.mask_fn bm' = BlockMask.mask_fn bm.
Proof.
  intros (Hkn & Hki & Hqn & Hqi & Hdim & Hpartial) Hi.
  destruct (select_in_range _ i d _ Hkn Hi) as (kn & Ekn & Skn).
  destruct (select_in_range _ i d _ Hki Hi) as (ki & Eki & Ski).
  destruct (select_in_range _ i d _ Hqn Hi) as (qn & Eqn & Sqn).
  destruct (select_in_range _ i d _ Hqi Hi) as (qi & Eqi & Sqi).
  unfold BlockMask.getitem, BlockMask.as_tuple_tensors.
  destruct (BlockMask.mask_fn bm) as [fn|] eqn:Hfn.
  - destruct (Hpartial ltac:(done)) as (Hpkn & Hpki & Hpqn & Hpqi).
    destruct (select_in_range _ i d _ Hpkn Hi) as (pkn & Epkn & Spkn).
    destruct (select_in_range _ i d _ Hpki Hi) as (pki & Epki & Spki).
    destruct (select_in_range _ i d _ Hpqn Hi) as (pqn & Epqn & Spqn).
    destruct (select_in_range _ i d _ Hpqi Hi) as (pqi & Epqi & Spqi).
    cbn [mapR]. rewrite !tensor_getitem_one, Ekn, Eki, Eqn, Eqi, Epkn, Epki, Epqn, Epqi.
    cbn [mbind Result_bind].
    rewrite init_ranks by (unfold dim; rewrite ?Ski, ?Spki, length_app; cbn; lia).
    eexists. split; [reflexivity|]. unfold layout. fields.
    split_and?; try done. unfold dim. rewrite Spki, length_app. cbn. lia.
  - cbn [take mapR]. rewrite !tensor_getitem_one, Ekn, Eki, Eqn, Eqi.
    cbn [mbind Result_bind].
    rewrite init_ranks by (done || (unfold dim; rewrite ?Ski, length_app; cbn; lia)).
    eexists. split; [reflexivity|]. unfold layout. fields.
    split_and?; try done; by intros [? ?].
Qed.

Lemma getitem_layout_out (bm : BlockMask.t) (d : nat) (batch : list nat) (R C : nat) (i : Z) :
  layout bm (d :: batch) R C → ¬ (- Z.of_nat d ≤ i < Z.of_nat d) →
  BlockMask.getitem bm [i] = Err IndexError.
Proof.
  intros (Hkn & _) Hi.
  unfold BlockMask.getitem, BlockMask.as_tuple_tensors.
  destruct (BlockMask.mask_fn bm); cbn [take mapR];
    by rewrite !tensor_getitem_one, (select_out_of_range _ i d _ Hkn Hi).
Qed.

(** Below the batch dimensions there is nothing to index. *)
Lemma getitem_layout_bottom (bm : BlockMask.t) (R C : nat) (r : Z) :
  layout bm [] R C →
  BlockMask.getitem bm [r]
  = Err (if decide (- Z.of_nat (R `min` C) ≤ r < Z.of_nat (R `min` C))
         then RuntimeError else IndexError).
Proof.
  intros (Hkn & Hki & Hqn & Hqi & Hdim & Hpartial). cbn [app] in *.
  unfold BlockMask.getitem, BlockMask.as_tuple_tensors.
  destruct (decide (- Z.of_nat R ≤ r < Z.of_nat R)) as [HR|HR].
  2:{ rewrite decide_False by lia.
      destruct (BlockMask.mask_fn bm); cbn [take mapR];
        by rewrite !tensor_getitem_one, (select_out_of_range _ r R _ Hkn HR). }
  destruct (select_in_range _ r R _ Hkn HR) as (kn & Ekn & Skn).
  destruct (select_in_range _ r R _ Hki HR) as (ki & Eki & Ski).
  destruct (decide (- Z.of_nat C ≤ r < Z.of_nat C)) as [HC|HC].
  2:{ rewrite decide_False by lia.
      destruct (BlockMask.mask_fn bm); cbn [take mapR];
        rewrite !tensor_getitem_one, Ekn, Eki, (select_out_of_range _ r C _ Hqn HC);
        done. }
  rewrite decide_True by lia.
  destruct (select_in_range _ r C _ Hqn HC) as (qn & Eqn & Sqn).
  destruct (select_in_range _ r C _ Hqi HC) as (qi & Eqi & Sqi).
  assert (Hrank : (dim ki <? 2)%nat = true).
  { apply Nat.ltb_lt. unfold dim. rewrite Ski. cbn. lia. }
  destruct (BlockMask.mask_fn bm) as [fn|] eqn:Hfn.
  - destruct (Hpartial ltac:(done)) as (Hpkn & Hpki & Hpqn & Hpqi). cbn [app] in *.
    destruct (select_in_range _ r R _ Hpkn HR) as (pkn & Epkn & Spkn).
    destruct (select_in_range _ r R _ Hpki HR) as (pki & Epki & Spki).
    destruct (select_in_range _ r C _ Hpqn HC) as (pqn & Epqn & Spqn).
    destruct (select_in_range _ r C _ Hpqi HC) as (pqi & Epqi & Spqi).
    cbn [mapR]. rewrite !tensor_getitem_one, Ekn, Eki, Eqn, Eqi, Epkn, Epki, Epqn, Epqi.
    cbn [mbind Result_bind]. unfold BlockMask.init. by rewrite Hrank.
  - cbn [take mapR]. rewrite !tensor_getitem_one, Ekn, Eki, Eqn, Eqi.
    cbn [mbind Result_bind]. unfold BlockMask.init. by rewrite Hrank.
Qed.

Lemma create_sparse_layout (full : Tensor) (partial : option Tensor) (fn : option PyFn)
    (KVB QB : Z) (B H R C : nat) :
  tshape full = [B; H; R; C] →
  match partial with
  | Some p => tshape p = [B; H; R; C]
  | None => fn = None
  end →
  ∃ bm,
    _create_sparse_block_from_block_mask (full, partial) fn KVB QB = Ok bm
    ∧ layout bm [B; H] R C
    ∧ BlockMask.KV_BLOCK_SIZE bm = KVB ∧ BlockMask.Q_BLOCK_SIZE bm = QB
    ∧ BlockMask.mask_fn bm = fn.
Proof.
  intros Hs Hp. unfold _create_sparse_block_from_block_mask.
  rewrite (inner_eq full B H R C Hs). cbn zeta. cbn [mbind Result_bind].
  destruct partial as [p|].
  - rewrite (inner_eq p B H R C Hp). cbn zeta. cbn [mbind Result_bind].
    rewrite init_ranks by (cbn; lia). eexists. split; [reflexivity|].
    unfold layout. fields. split_and?; try done. cbn. lia.
  - subst fn. cbn [mbind Result_bind]. rewrite init_ranks by (cbn; lia).
    eexists. split; [reflexivity|]. unfold layout. fields.
    split_and?; try done; try (cbn; lia); by intros [? ?].
Qed.

(** X22: a BlockMask built from grids of shape [(B, H, R, C)] can be indexed
    by a batch entry and then by a head, in range or counted from the end:
    [bm[b]] has the shape of [bm] without the batch dimension, [bm[b][h]]
    the shape of one grid.  An index outside the batch raises
    [IndexError], and [bm[b][h]] cannot be indexed further: the
    constructor raises [RuntimeError] for a row that exists in both views,
    and the index raises [IndexError] otherwise. *)
Theorem getitem_of_built_mask (full : Tensor) (partial : option Tensor) (fn : option PyFn)
    (KVB QB : Z) (B H R C : nat) (b h : Z) :
  tshape full = [B; H; R; C] →
  match partial with
  | Some p => tshape p = [B; H; R; C]
  | None => fn = None
  end →
  - Z.of_nat B ≤ b < Z.of_nat B → - Z.of_nat H ≤ h < Z.of_nat H →
  ∃ bm bm1 bm2,
    _create_sparse_block_from_block_mask (full, partial) fn KVB QB = Ok bm
    ∧ BlockMask.getitem bm [b] = Ok bm1
    ∧ BlockMask.shape bm1 = Ok [Z.of_nat H; Z.of_nat R * KVB; Z.of_nat C * QB]
    ∧ BlockMask.getitem bm1 [h] = Ok bm2
    ∧ BlockMask.shape bm2 = Ok [Z.of_nat R * KVB; Z.of_nat C * QB]
    ∧ BlockMask.mask_fn bm2 = fn
    ∧ (∀ r, BlockMask.getitem bm2 [r]
            = Err (if decide (- Z.of_nat (R `min` C) ≤ r < Z.of_nat (R `min` C))
                   then RuntimeError else IndexError))
    ∧ (∀ b', ¬ (- Z.of_nat B ≤ b' < Z.of_nat B) →
             BlockMask.getitem bm [b'] = Err IndexError).
Proof.
  intros Hs Hp Hb Hh.
  destruct (create_sparse_layout full partial fn KVB QB B H R C Hs Hp)
    as (bm & Hbm & Hl & HK & HQ & HF).
  destruct (getitem_layout bm B [H] R C b Hl Hb) as (bm1 & H1 & Hl1 & HK1 & HQ1 & HF1).
  destruct (getitem_layout bm1 H [] R C h Hl1 Hh) as (bm2 & H2 & Hl2 & HK2 & HQ2 & HF2).
  exists bm, bm1, bm2. split; [done|]. split; [done|].
  split; [rewrite (shape_layout bm1 [H] R C Hl1); cbn; congruence|].
  split; [done|].
  split; [rewrite (shape_layout bm2 [] R C Hl2); cbn; congruence|].
  split; [congruence|].
  split; [intros r; by apply getitem_layout_bottom|].
  intros b' Hb'. by apply (getitem_layout_out bm B [H] R C).
Qed.

(** The grid [[0, 1]] of one batch entry and one head, indexed by [0] and
    then by [-1]. *)
Lemma getitem_of_built_mask_1x2 :
  ∃ bm bm1 bm2,
    _create_sparse_block_from_block_mask
      (mkTensor Int8 [1; 1; 1; 2]%nat [0; 1], None) None 2 1 = Ok bm
    ∧ BlockMask.getitem bm [0] = Ok bm1
    ∧ BlockMask.shape bm1 = Ok [Z.of_nat 1; Z.of_nat 1 * 2; Z.of_nat 2 * 1]
    ∧ BlockMask.getitem bm1 [-1] = Ok bm2
    ∧ BlockMask.shape bm2 = Ok [Z.of_nat 1 * 2; Z.of_nat 2 * 1]
    ∧ BlockMask.mask_fn bm2 = None
    ∧ (∀ r, BlockMask.getitem bm2 [r]
            = Err (if decide (- Z.of_nat (1 `min` 2) ≤ r < Z.of_nat (1 `min` 2))
                   then RuntimeError else IndexError))
    ∧ (∀ b', ¬ (- Z.of_nat 1 ≤ b' < Z.of_nat 1) →
             BlockMask.getitem bm [b'] = Err IndexError).
Proof.
  apply (getitem_of_built_mask (mkTensor Int8 [1; 1; 1; 2]%nat [0; 1]) None None
           2 1 1 1 1 2 0 (-1)); [reflexivity | reflexivity | lia | lia].
Defined.

(** ** The dense view of a mask built from a score mod *)

Lemma grid_by_index (F : list Z → Z) (B H R C Qb KVb : nat) :
  (∀ e, is_bit (F e)) →
  Forall2 (fun idx g => g = 1 ↔ Exists (fun e => F e = 1) (tile_elements Qb KVb idx))
    (coordinates B H R C)
    ((fun tile => if 0 <? zsum tile then 1 else 0)
       <$> mask_tiles B H R C Qb KVb (F <$> coordinates B H (R * Qb) (C * KVb))).
Proof.
  intros HF. rewrite mask_tiles_coordinates, <- list_fmap_compose.
  apply Forall2_fmap_r, Forall_Forall2_diag, Forall_forall.
  intros idx _. unfold compose.
  destruct (zsum_fmap_bits F (tile_elements Qb KVb idx) HF) as (_ & Hsome & _).
  rewrite <- Hsome.
  destruct (Z.ltb_spec 0 (zsum (F <$> tile_elements Qb KVb idx))); split; (done || lia).
Qed.

(** X23: for a score mod and a mask of non-zero extents (at least one batch
    entry, one head, one row and one column of tiles), [to_dense] of the
    BlockMask that [create_block_mask] builds is the grid of computed tiles:
    an int32 tensor of shape [(B, H, R, C)] whose entry at a tile position
    is 1 exactly when the score mod returns something other than [-inf] at
    some index of the tile, and 0 otherwise.  No predicate is retained. *)
Theorem to_dense_of_score_mod_mask (fn : PyFn) (B H R C Qb KVb : nat) :
  (0 < B)%nat → (0 < H)%nat → (0 < R)%nat → (0 < C)%nat →
  required_parameters fn = 5%nat → binds fn 5 = true →
  (0 < Qb)%nat → (0 < KVb)%nat → Z.of_nat (Qb * KVb) < 2 ^ 63 →
  Z.of_nat R < 2 ^ 31 → Z.of_nat C < 2 ^ 31 →
  ∃ bm dense,
    create_block_mask fn B H (R * Qb) (C * KVb) (Z.of_nat KVb) (Z.of_nat Qb) = Ok bm
    ∧ BlockMask.mask_fn bm = None
    ∧ BlockMask.to_dense bm = Ok dense
    ∧ tdtype dense = Int32 ∧ tshape dense = [B; H; R; C]
    ∧ Forall is_bit (tdata dense)
    ∧ Forall2 (fun idx g =>
                 g = 1 ↔ Exists (fun e => isneginf (body fn (0 :: e)) = false)
                           (tile_elements Qb KVb idx))
        (coordinates B H R C) (tdata dense).
Proof.
  intros HB0 HH0 HR0 HC0 Hreq Hbinds HQb HKVb H63 HR HC.
  set (F := fun idx => if isneginf (body fn (0 :: idx)) then 0 else 1).
  assert (HF : ∀ e, is_bit (F e)).
  { intros e. unfold F. destruct (isneginf _); by (left + right). }
  assert (HF1 : ∀ e, F e = 1 ↔ isneginf (body fn (0 :: e)) = false).
  { intros e. unfold F. by destruct (isneginf _). }
  set (mask := mkTensor Bool [B; H; (R * Qb)%nat; (C * KVb)%nat]
                 (F <$> coordinates B H (R * Qb) (C * KVb))).
  set (grid := mkTensor Int8 [B; H; R; C]
                 ((fun tile => if 0 <? zsum tile then 1 else 0)
                    <$> mask_tiles B H R C Qb KVb (tdata mask))).
  assert (Hml : length (tdata mask) = (B * H * (R * Qb) * (C * KVb))%nat).
  { cbn [tdata mask]. by rewrite length_fmap, length_coordinates. }
  assert (Hmb : Forall is_bit (tdata mask)).
  { cbn [tdata mask]. apply Forall_fmap, Forall_forall. intros idx _. apply HF. }
  destruct (mask_tiles_wf B H R C Qb KVb (tdata mask) Hml Hmb) as [Hcount _].
  assert (Hgb : Forall is_bit (tdata grid)).
  { cbn [tdata grid]. apply Forall_fmap, Forall_forall. intros tile _. cbn.
    destruct (0 <? zsum tile); by (left + right). }
  destruct (to_dense_without_predicate grid None 128 128 B H R C) as (bm & Hbm & Hdense);
    [done | by cbn [tdata grid]; rewrite length_fmap | done..|].
  exists bm. eexists. split.
  { rewrite create_block_mask_eq. unfold evaluated_mask, retained_predicate.
    rewrite Hreq, Nat.eqb_refl.
    unfold _create_mask_from_score_mod, vmap_call. rewrite Hbinds.
    cbn [mbind Result_bind]. rewrite <- !list_fmap_compose.
    change (mkTensor Bool [B; H; (R * Qb)%nat; (C * KVb)%nat] _) with mask.
    rewrite (classify_tiles_none B H R C Qb KVb mask) by done.
    cbn [mbind Result_bind]. exact Hbm. }
  apply create_sparse_Ok in Hbm as (_ & _ & _ & _ & _ & _ & _ & _ & _ & _ & _ & Hfn).
  split; [done|]. split; [exact Hdense|]. cbn [tdtype tshape tdata].
  split; [done|]. split; [done|]. split; [done|].
  cbn [tdata grid mask].
  eapply Forall2_impl; [apply (grid_by_index F B H R C Qb KVb HF)|].
  intros idx g Hg. cbn beta in *. rewrite Hg.
  split; intros Hex; (eapply Exists_impl; [exact Hex|]); intros e; apply HF1.
Qed.

(** [_causal] over 2 x 2 elements, in tiles of 1 x 1. *)
Lemma to_dense_of_score_mod_mask_causal :
  ∃ bm dense,
    create_block_mask _causal 1 1 (2 * 1) (2 * 1) (Z.of_nat 1) (Z.of_nat 1) = Ok bm
    ∧ BlockMask.mask_fn bm = None
    ∧ BlockMask.to_dense bm = Ok dense
    ∧ tdtype dense = Int32 ∧ tshape dense = [1; 1; 2; 2]%nat
    ∧ Forall is_bit (tdata dense)
    ∧ Forall2 (fun idx g =>
                 g = 1 ↔ Exists (fun e => isneginf (body _causal (0 :: e)) = false)
                           (tile_elements 1 1 idx))
        (coordinates 1 1 2 2) (tdata dense).
Proof.
  apply (to_dense_of_score_mod_mask _causal 1 1 2 2 1 1);
    [lia | lia | lia | lia | reflexivity | reflexivity | lia | lia | by vm_compute..].
Defined.

(** ** Drawing a BlockMask *)

(** The step that [to_string] computes for an extent [n] and a grid size
    [m >= 1] cuts the extent into at most [m] pieces, and into [n] pieces of
    one element when the grid is large enough. *)
Lemma step_fits (n : nat) (m : Z) :
  1 ≤ m →
  let step := Z.to_nat (Z.max 1 ((Z.of_nat n + (m - 1)) / m)) in
  (1 ≤ step)%nat
  ∧ Z.of_nat ((n + step - 1) / step) ≤ m
  ∧ (Z.of_nat n ≤ m → step = 1%nat).
Proof.
  intros Hm. cbn zeta.
  set (rows := (Z.of_nat n + (m - 1)) / m).
  assert (Hrows : 0 ≤ rows) by (apply Z.div_pos; lia).
  assert (Hup : Z.of_nat n ≤ m * rows).
  { pose proof (Z.mul_succ_div_gt (Z.of_nat n + (m - 1)) m ltac:(lia)) as Hgt.
    fold rows in Hgt. lia. }
  split; [lia|]. split.
  - rewrite Nat2Z.inj_div.
    set (step := Z.to_nat (Z.max 1 rows)).
    assert (Hstep : Z.of_nat step = Z.max 1 rows) by (unfold step; lia).
    assert (Hnum : Z.of_nat (n + step - 1) = Z.of_nat n + Z.of_nat step - 1) by lia.
    rewrite Hnum, Hstep.
    assert (Hlt : (Z.of_nat n + Z.max 1 rows - 1) / Z.max 1 rows < m + 1); [|lia].
    apply Z.div_lt_upper_bound; [lia|].
    destruct (Z.max_spec 1 rows) as [[Hlt ->] | [Hle ->]]; nia.
  - intros Hn. assert (rows ≤ 1); [|lia].
    assert (rows < 2); [|lia]. apply Z.div_lt_upper_bound; lia.
Qed.

Lemma length_py_range (stop step : nat) :
  length (BlockMask.py_range stop step) = ((stop + step - 1) / step)%nat.
Proof. unfold BlockMask.py_range. by rewrite length_fmap, length_seq. Qed.

Lemma py_range_one (stop : nat) : BlockMask.py_range stop 1 = seq 0 stop.
Proof.
  unfold BlockMask.py_range.
  replace (stop + 1 - 1)%nat with stop by lia. rewrite Nat.div_1_r.
  rewrite <- (list_fmap_id (seq 0 stop)) at 2. apply list_fmap_ext.
  intros _ k _. cbn. lia.
Qed.

(** X24: for grid sizes of at least 1, the picture that [to_string] draws of
    one batch entry is the text of the batch index on a line of its own,
    then one line for every row of cells.  There are at most [max_rows] rows
    of at most [max_cols] cells, and every cell is written as two copies of
    its glyph, so that a line holds up to [2 * max_cols] glyphs; when the
    grid is at least as large as the mask there is one cell, hence two
    glyphs, for every tile. *)
Theorem picture_fits_the_grid (dense_mask cur_mask : Tensor) (num_rows num_cols : nat)
    (max_rows max_cols : Z) (batch_idx : list nat) :
  foldR select dense_mask (Z.of_nat <$> batch_idx) = Ok cur_mask →
  1 ≤ max_rows → 1 ≤ max_cols →
  ∃ cells,
    BlockMask.create_block_vis dense_mask num_rows num_cols max_rows max_cols batch_idx
    = Ok (BlockMask.tuple_text batch_idx +:+ BlockMask.newline
          +:+ String.concat EmptyString
                ((fun row => String.concat EmptyString ((fun char => char +:+ char) <$> row)
                             +:+ BlockMask.newline) <$> cells))
    ∧ Z.of_nat (length cells) ≤ max_rows
    ∧ Forall (fun row => Z.of_nat (length row) ≤ max_cols) cells
    ∧ (Z.of_nat num_rows ≤ max_rows → Z.of_nat num_cols ≤ max_cols →
       cells = (fun r => (fun c => BlockMask.summarize_section
                                     (BlockMask.section_at
                                        (chunks num_rows num_cols (tdata cur_mask)) r 1 c 1))
                           <$> seq 0 num_cols)
                 <$> seq 0 num_rows).
Proof.
  intros Hcur Hr Hc. unfold BlockMask.create_block_vis, BlockMask.cdiv.
  destruct (Z.eqb_spec max_rows 0) as [?|_]; [lia|].
  destruct (Z.eqb_spec max_cols 0) as [?|_]; [lia|].
  cbn [mbind Result_bind]. rewrite Hcur. cbn [mbind Result_bind].
  destruct (step_fits num_rows max_rows Hr) as (_ & Hrows & Hrow1).
  destruct (step_fits num_cols max_cols Hc) as (_ & Hcols & Hcol1).
  cbn zeta in *.
  eexists. split; [reflexivity|]. unfold BlockMask.block_cells.
  split; [by rewrite length_fmap, length_py_range|].
  split.
  - apply Forall_fmap, Forall_forall. intros r _. cbn.
    by rewrite length_fmap, length_py_range.
  - intros Hsmall_r Hsmall_c. rewrite (Hrow1 Hsmall_r), (Hcol1 Hsmall_c).
    by rewrite !py_range_one.
Qed.

(** A mask of one row of three tiles, drawn on a grid of 1 x 2. *)
Lemma picture_fits_the_grid_1x3 :
  ∃ cells,
    BlockMask.create_block_vis (mkTensor Int32 [1; 1; 3]%nat [1; 0; 0]) 1 3 1 2 [0%nat]
    = Ok (BlockMask.tuple_text [0%nat] +:+ BlockMask.newline
          +:+ String.concat EmptyString
                ((fun row => String.concat EmptyString ((fun char => char +:+ char) <$> row)
                             +:+ BlockMask.newline) <$> cells))
    ∧ Z.of_nat (length cells) ≤ 1
    ∧ Forall (fun row => Z.of_nat (length row) ≤ 2) cells
    ∧ (Z.of_nat 1 ≤ 1 → Z.of_nat 3 ≤ 2 →
       cells = (fun r => (fun c => BlockMask.summarize_section
                                     (BlockMask.section_at
                                        (chunks 1 3 (tdata (mkTensor Int32 [1; 3]%nat [1; 0; 0])))
                                        r 1 c 1))
                           <$> seq 0 3)
                 <$> seq 0 1).
Proof.
  apply (picture_fits_the_grid (mkTensor Int32 [1; 1; 3]%nat [1; 0; 0])
           (mkTensor Int32 [1; 3]%nat [1; 0; 0]) 1 3 1 2 [0%nat]);
    [reflexivity | lia | lia].
Defined.





Lemma length_product (batch : list nat) :
  length (BlockMask.product batch) = prod_list batch.
Proof.
  induction batch as [|d ds IH]; [done|]. cbn [BlockMask.product].
  rewrite (length_bind_seq _ d (prod_list ds)); [by rewrite prod_list_cons|].
  intros i _. rewrite (length_bind_uniform _ 1%nat); [lia|].
  by apply Forall_forall.
Qed.

Lemma product_in_range (batch : list nat) (idx : list nat) :
  idx ∈ BlockMask.product batch → Forall2 (fun i d => (i < d)%nat) idx batch.
Proof.
  revert idx. induction batch as [|d ds IH]; intros idx Hin.
  - apply list_elem_of_singleton in Hin as ->. constructor.
  - cbn [BlockMask.product] in Hin.
    apply list_elem_of_bind in Hin as (i & Hin & Hi%elem_of_seq).
    apply list_elem_of_bind in Hin as (t & Hin & Ht).
    apply list_elem_of_singleton in Hin as ->. constructor; [lia|by apply IH].
Qed.

Lemma select_path (t : Tensor) (idx batch s : list nat) :
  Forall2 (fun i d => (i < d)%nat) idx batch → tshape t = batch ++ s →
  ∃ t', foldR select t (Z.of_nat <$> idx) = Ok t' ∧ tshape t' = s.
Proof.
  intros Hidx. revert t. induction Hidx as [|i d idx batch Hi _ IH]; intros t Hs.
  - by exists t.
  - destruct (select_in_range t (Z.of_nat i) d (batch ++ s) Hs ltac:(lia)) as (t1 & H1 & Hs1).
    destruct (IH t1 Hs1) as (t' & Ht' & Hs'). exists t'. split; [|done].
    cbn [fmap list_fmap foldR]. rewrite H1. exact Ht'.
Qed.

Lemma to_string_eq (bm : BlockMask.t) (dense : Tensor) (batch : list nat) (R C : nat)
    (grid_size : BlockMask.GridSize) (limit : Z) :
  BlockMask.to_dense bm = Ok dense → tshape dense = batch ++ [R; C] →
  BlockMask.to_string bm grid_size limit
  = (lines ← BlockMask.total_vis
               (BlockMask.create_block_vis dense R C
                  (match grid_size with
                   | BlockMask.GridInt n => n
                   | BlockMask.GridPair max_rows _ => max_rows
                   end)
                  (match grid_size with
                   | BlockMask.GridInt n => n
                   | BlockMask.GridPair _ max_cols => max_cols
                   end))
               limit 0 (BlockMask.product batch);
     Ok (String.concat BlockMask.newline lines)).
Proof.
  intros Hdense Hs. unfold BlockMask.to_string. rewrite Hdense.
  cbn [mbind Result_bind]. rewrite Hs, reverse_app.
  change (reverse [R; C]) with [C; R]. cbn [app]. rewrite reverse_involutive.
  by destruct grid_size.
Qed.

(** X26: the edge cases of [to_string] on a BlockMask whose dense view has
    the shape [batch + (R, C)].  Without a batch entry the text is empty.
    With one, [limit=0] gives the notice alone, whatever the grid size, and
    a grid size 0 raises [ZeroDivisionError] for every other limit. *)
Theorem to_string_edge_cases (bm : BlockMask.t) (dense : Tensor) (batch : list nat)
    (R C : nat) :
  BlockMask.to_dense bm = Ok dense → tshape dense = batch ++ [R; C] →
  (prod_list batch = 0%nat →
   ∀ grid_size limit, BlockMask.to_string bm grid_size limit = Ok EmptyString)
  ∧ ((0 < prod_list batch)%nat →
     (∀ grid_size,
        BlockMask.to_string bm grid_size 0
        = Ok (String.concat BlockMask.newline BlockMask.limit_message))
     ∧ (∀ limit, limit ≠ 0 →
          BlockMask.to_string bm (BlockMask.GridInt 0) limit = Err ZeroDivisionError)
     ∧ (∀ max_rows max_cols limit, limit ≠ 0 → max_rows = 0 ∨ max_cols = 0 →
          BlockMask.to_string bm (BlockMask.GridPair max_rows max_cols) limit
          = Err ZeroDivisionError)).
Proof.
  intros Hdense Hs. split.
  - intros Hzero grid_size limit. rewrite (to_string_eq bm dense batch R C) by done.
    assert (Hnil : BlockMask.product batch = []).
    { apply length_zero_iff_nil. by rewrite length_product. }
    by rewrite Hnil.
  - intros Hpos.
    destruct (BlockMask.product batch) as [|idx rest] eqn:Hprod.
    { apply (f_equal length) in Hprod. rewrite length_product in Hprod. cbn in Hprod. lia. }
    assert (Hzero : ∀ max_rows max_cols limit, limit ≠ 0 → max_rows = 0 ∨ max_cols = 0 →
              BlockMask.total_vis (BlockMask.create_block_vis dense R C max_rows max_cols)
                limit 0 (idx :: rest) = Err ZeroDivisionError).
    { intros max_rows max_cols limit Hlimit Hz. cbn [BlockMask.total_vis].
      destruct (Z.eqb_spec 0 limit) as [?|_]; [lia|].
      unfold BlockMask.create_block_vis, BlockMask.cdiv.
      destruct (Z.eqb_spec max_rows 0) as [_|Hr]; [done|].
      destruct (Z.eqb_spec max_cols 0) as [_|Hc]; [done|lia]. }
    split; [|split].
    + intros grid_size. rewrite (to_string_eq bm dense batch R C) by done.
      by rewrite Hprod.
    + intros limit Hlimit. rewrite (to_string_eq bm dense batch R C) by done.
      rewrite Hprod, Hzero by (done || by left). done.
    + intros max_rows max_cols limit Hlimit Hz.
      rewrite (to_string_eq bm dense batch R C) by done.
      rewrite Hprod, Hzero by done. done.
Qed.

(** The BlockMask of one full tile. *)
Lemma to_string_edge_cases_one_tile :
  let o3 := ones [1; 1; 1]%nat Int32 in
  let z3 := zeros [1; 1; 1]%nat Int32 in
  let z4 := zeros [1; 1; 1; 1]%nat Int32 in
  let bm := BlockMask.mk o3 z4 o3 z4 z3 z4 z3 z4 128 128 None in
  (prod_list [1; 1]%nat = 0%nat →
   ∀ grid_size limit, BlockMask.to_string bm grid_size limit = Ok EmptyString)
  ∧ ((0 < prod_list [1; 1]%nat)%nat →
     (∀ grid_size,
        BlockMask.to_string bm grid_size 0
        = Ok (String.concat BlockMask.newline BlockMask.limit_message))
     ∧ (∀ limit, limit ≠ 0 →
          BlockMask.to_string bm (BlockMask.GridInt 0) limit = Err ZeroDivisionError)
     ∧ (∀ max_rows max_cols limit, limit ≠ 0 → max_rows = 0 ∨ max_cols = 0 →
          BlockMask.to_string bm (BlockMask.GridPair max_rows max_cols) limit
          = Err ZeroDivisionError)).
Proof.
  apply (to_string_edge_cases
           (BlockMask.mk (ones [1; 1; 1]%nat Int32) (zeros [1; 1; 1; 1]%nat Int32)
              (ones [1; 1; 1]%nat Int32) (zeros [1; 1; 1; 1]%nat Int32)
              (zeros [1; 1; 1]%nat Int32) (zeros [1; 1; 1; 1]%nat Int32)
              (zeros [1; 1; 1]%nat Int32) (zeros [1; 1; 1; 1]%nat Int32) 128 128 None)
           (mkTensor Int32 [1; 1; 1; 1]%nat [1]) [1; 1]%nat 1 1); reflexivity.
Defined.

Lemma picture_cells (dense_mask cur_mask : Tensor) (num_rows num_cols : nat)
    (max_rows max_cols : Z) (batch_idx : list nat) :
  foldR select dense_mask (Z.of_nat <$> batch_idx) = Ok cur_mask →
  1 ≤ max_rows → 1 ≤ max_cols →
  ∃ cells,
    BlockMask.create_block_vis dense_mask num_rows num_cols max_rows max_cols batch_idx
    = Ok (BlockMask.block_text (BlockMask.tuple_text batch_idx) cells).
Proof.
  intros Hcur Hr Hc. unfold BlockMask.create_block_vis, BlockMask.cdiv.
  destruct (Z.eqb_spec max_rows 0) as [?|_]; [lia|].
  destruct (Z.eqb_spec max_cols 0) as [?|_]; [lia|].
  cbn [mbind Result_bind]. rewrite Hcur. cbn [mbind Result_bind]. by eexists.
Qed.

Lemma total_vis_spec (vis : list nat → Result string) (limit k : Z)
    (entries : list (list nat)) :
  Forall (fun idx => is_ok (vis idx) = true) entries →
  ∃ pictures,
    Forall2 (fun idx picture => vis idx = Ok picture)
      (if decide (k ≤ limit < k + Z.of_nat (length entries))
       then take (Z.to_nat (limit - k)) entries else entries)
      pictures
    ∧ BlockMask.total_vis vis limit k entries
      = Ok (pictures ++ if decide (k ≤ limit < k + Z.of_nat (length entries))
                        then BlockMask.limit_message else []).
Proof.
  intros Hok. revert k. induction Hok as [|idx rest Hidx _ IH]; intros k.
  - exists []. rewrite !decide_False by (cbn; lia). split; [constructor|reflexivity].
  - cbn [BlockMask.total_vis length]. destruct (Z.eqb_spec k limit) as [->|Hne].
    + exists []. rewrite !decide_True by lia. rewrite Z.sub_diag.
      split; [constructor|reflexivity].
    + destruct (vis idx) as [picture|] eqn:Hvis; [|done].
      destruct (IH (k + 1)) as (pictures & Hpics & Htotal).
      cbn [mbind Result_bind]. rewrite Htotal. cbn [mbind Result_bind].
      exists (picture :: pictures).
      destruct (decide (k + 1 ≤ limit < k + 1 + Z.of_nat (length rest))) as [Hin|Hout].
      * rewrite !decide_True by lia. split; [|done].
        replace (Z.to_nat (limit - k)) with (S (Z.to_nat (limit - (k + 1)))) by lia.
        cbn [take]. by constructor.
      * rewrite !decide_False by lia. split; [|done]. by constructor.
Qed.

(** X27: [to_string] draws the batch entries in row-major order, each by
    [create_block_vis], and joins the pictures with newlines; when
    [0 <= limit] and there are more than [limit] entries, it draws the first
    [limit] of them and ends with the notice. *)
Theorem to_string_draws_up_to_limit (bm : BlockMask.t) (dense : Tensor)
    (batch : list nat) (R C : nat) (max_rows max_cols limit : Z) :
  BlockMask.to_dense bm = Ok dense → tshape dense = batch ++ [R; C] →
  1 ≤ max_rows → 1 ≤ max_cols →
  let entries := BlockMask.product batch in
  let limited := bool_decide (0 ≤ limit < Z.of_nat (prod_list batch)) in
  ∃ pictures,
    Forall2 (fun idx picture =>
               BlockMask.create_block_vis dense R C max_rows max_cols idx = Ok picture)
      (if limited then take (Z.to_nat limit) entries else entries) pictures
    ∧ BlockMask.to_string bm (BlockMask.GridPair max_rows max_cols) limit
      = Ok (String.concat BlockMask.newline
              (pictures ++ if limited then BlockMask.limit_message else [])).
Proof.
  intros Hdense Hs Hr Hc entries limited.
  assert (Hok : Forall (fun idx =>
            is_ok (BlockMask.create_block_vis dense R C max_rows max_cols idx) = true)
            entries).
  { apply Forall_forall. intros idx Hidx%product_in_range.
    destruct (select_path dense idx batch [R; C] Hidx Hs) as (cur & Hcur & _).
    destruct (picture_cells dense cur R C max_rows max_cols idx Hcur Hr Hc) as (cells & ->).
    done. }
  destruct (total_vis_spec _ limit 0 entries Hok) as (pictures & Hpics & Htotal).
  exists pictures. unfold limited.
  rewrite Z.add_0_l, Z.sub_0_r in *. unfold entries in *. rewrite length_product in *.
  rewrite (to_string_eq bm dense batch R C) by done. rewrite Htotal.
  cbn [mbind Result_bind].
  destruct (decide (0 ≤ limit < Z.of_nat (prod_list batch))) as [Hin|Hout].
  - by rewrite bool_decide_eq_true_2.
  - by rewrite bool_decide_eq_false_2.
Qed.

(** The BlockMask of one full tile, with the default grid size and limit. *)
Lemma to_string_draws_up_to_limit_one_tile :
  let o3 := ones [1; 1; 1]%nat Int32 in
  let z3 := zeros [1; 1; 1]%nat Int32 in
  let z4 := zeros [1; 1; 1; 1]%nat Int32 in
  let bm := BlockMask.mk o3 z4 o3 z4 z3 z4 z3 z4 128 128 None in
  let dense := mkTensor Int32 [1; 1; 1; 1]%nat [1] in
  let entries := BlockMask.product [1; 1]%nat in
  let limited := bool_decide (0 ≤ 4 < Z.of_nat (prod_list [1; 1]%nat)) in
  ∃ pictures,
    Forall2 (fun idx picture =>
               BlockMask.create_block_vis dense 1 1 20 20 idx = Ok picture)
      (if limited then take (Z.to_nat 4) entries else entries) pictures
    ∧ BlockMask.to_string bm (BlockMask.GridPair 20 20) 4
      = Ok (String.concat BlockMask.newline
              (pictures ++ if limited then BlockMask.limit_message else [])).
Proof.
  apply (to_string_draws_up_to_limit
           (BlockMask.mk (ones [1; 1; 1]%nat Int32) (zeros [1; 1; 1; 1]%nat Int32)
              (ones [1; 1; 1]%nat Int32) (zeros [1; 1; 1; 1]%nat Int32)
              (zeros [1; 1; 1]%nat Int32) (zeros [1; 1; 1; 1]%nat Int32)
              (zeros [1; 1; 1]%nat Int32) (zeros [1; 1; 1; 1]%nat Int32) 128 128 None)
           (mkTensor Int32 [1; 1; 1; 1]%nat [1]) [1; 1]%nat 1 1 20 20 4);
    [reflexivity | reflexivity | lia | lia].
Defined.

(** ** The two views of a grid *)

(** The data of the transposed grid [g.permute(0, 1, 3, 2)]. *)
Lemma transposed_rows (B H R C : nat) (d : list Z) :
  length d = (B * H * R * C)%nat →
  grid_rows B H C R
    (concat ((fun m => flatten2 (transpose 0 C m)) <$> matrices B H R C d))
  = grid_columns B H R C d.
Proof.
  intros Hd. destruct (grid_columns_lengths B H R C d Hd) as [Hlen Hcols].
  unfold grid_rows.
  assert (Hflat : concat ((fun m => flatten2 (transpose 0 C m)) <$> matrices B H R C d)
                  = concat (grid_columns B H R C d)).
  { unfold grid_columns, flatten2. rewrite <- concat_concat_fmap, <- list_fmap_compose. done. }
  rewrite Hflat. by apply chunks_concat'.
Qed.

Lemma transposed_matrices (B H R C : nat) (d : list Z) :
  length d = (B * H * R * C)%nat →
  matrices B H C R
    (concat ((fun m => flatten2 (transpose 0 C m)) <$> matrices B H R C d))
  = transpose 0 C <$> matrices B H R C d.
Proof.
  intros Hd. pose proof (matrices_lengths B H R C d Hd) as Hms.
  assert (Hcols : ∀ m, Forall (fun m => length m = R ∧ Forall (fun r => length r = C) m)
                         [m] → Forall (fun col => length col = R) (transpose 0 C m)).
  { intros m [[Hm _] _]%Forall_cons. rewrite <- Hm. apply transpose_lengths. }
  unfold matrices at 1. rewrite chunks_concat'.
  - rewrite <- list_fmap_compose. apply Forall_fmap_ext_1.
    eapply Forall_impl; [exact Hms|]. intros m Hm. cbn. unfold flatten2.
    apply chunks_concat'; [by rewrite length_transpose|].
    apply Hcols. by constructor.
  - unfold matrices. by rewrite !length_fmap, length_chunks.
  - apply Forall_fmap. eapply Forall_impl; [exact Hms|]. intros m Hm. cbn.
    unfold flatten2. rewrite (length_concat_uniform R).
    + by rewrite length_transpose.
    + apply Hcols. by constructor.
Qed.

Lemma concat_matrices (B H R C : nat) (d : list Z) :
  length d = (B * H * R * C)%nat →
  concat (matrices B H R C d) = grid_rows B H R C d.
Proof.
  intros Hd. pose proof (matrices_lengths B H R C d Hd) as Hms.
  unfold grid_rows.
  assert (Hflat : d = concat (concat (matrices B H R C d))).
  { unfold matrices. rewrite <- concat_concat_fmap, <- list_fmap_compose.
    rewrite <- (concat_chunks (B * H) (R * C) d) at 1 by lia. f_equal.
    rewrite <- (list_fmap_id (chunks (B * H) (R * C) d)) at 1.
    apply Forall_fmap_ext_1.
    eapply Forall_impl; [apply (chunks_lengths (B * H) (R * C)); lia|].
    intros block Hblock. cbn in *. by rewrite concat_chunks. }
  rewrite Hflat at 2. symmetry. apply chunks_concat'.
  - rewrite (length_concat_uniform R).
    + unfold matrices. rewrite length_fmap, length_chunks. lia.
    + eapply Forall_impl; [exact Hms|]. by intros m [? _].
  - apply Forall_concat. eapply Forall_impl; [exact Hms|]. by intros m [_ ?].
Qed.

Lemma transposed_columns (B H R C : nat) (d : list Z) :
  length d = (B * H * R * C)%nat →
  grid_columns B H C R
    (concat ((fun m => flatten2 (transpose 0 C m)) <$> matrices B H R C d))
  = grid_rows B H R C d.
Proof.
  intros Hd. pose proof (matrices_lengths B H R C d Hd) as Hms.
  unfold grid_columns. rewrite transposed_matrices by done.
  rewrite <- list_fmap_compose, <- concat_matrices by done. f_equal.
  rewrite <- (list_fmap_id (matrices B H R C d)) at 2.
  apply Forall_fmap_ext_1. eapply Forall_impl; [exact Hms|].
  intros m [Hm Hrows]. cbn. by apply transpose_involutive.
Qed.

Lemma length_transposed (B H R C : nat) (d : list Z) :
  length d = (B * H * R * C)%nat →
  length (concat ((fun m => flatten2 (transpose 0 C m)) <$> matrices B H R C d))
  = (B * H * C * R)%nat.
Proof.
  intros Hd. pose proof (transposed_rows B H R C d Hd) as Hrows.
  destruct (grid_columns_lengths B H R C d Hd) as [Hlen Hcols].
  assert (Hflat : concat ((fun m => flatten2 (transpose 0 C m)) <$> matrices B H R C d)
                  = concat (grid_columns B H R C d)).
  { unfold grid_columns, flatten2. rewrite <- concat_concat_fmap, <- list_fmap_compose. done. }
  rewrite Hflat, (length_concat_uniform R) by done. by rewrite Hlen.
Qed.

(** The arrays of a grid, from its rows and its columns. *)
Lemma kv_num_blocks_rows (B H R C : nat) (d : list Z) :
  tdata (kv_num_blocks_of B H R C d)
  = (fun row => cast Int32 (cast Int64 (zsum row))) <$> grid_rows B H R C d.
Proof. unfold kv_num_blocks_of, grid_rows. cbn [tdata]. by rewrite <- list_fmap_compose. Qed.

Lemma q_num_blocks_columns (B H R C : nat) (d : list Z) :
  tdata (q_num_blocks_of B H R C d)
  = (fun col => cast Int32 (cast Int64 (zsum col))) <$> grid_columns B H R C d.
Proof.
  unfold q_num_blocks_of, grid_columns. cbn [tdata].
  rewrite !fmap_concat, <- !list_fmap_compose. f_equal.
  apply list_fmap_ext. intros _ m _. cbn. by rewrite <- list_fmap_compose.
Qed.

Lemma kv_indices_concat (B H R C : nat) (d : list Z) :
  length d = (B * H * R * C)%nat → Z.of_nat C < 2 ^ 31 →
  tdata (kv_indices_of B H R C d) = concat (argsort_row <$> grid_rows B H R C d).
Proof.
  intros Hd HC. rewrite <- (kv_indices_rows B H R C d Hd HC).
  symmetry. apply concat_chunks. unfold kv_indices_of. cbn [tdata].
  rewrite length_fmap, (length_concat_uniform C).
  - by rewrite length_fmap, length_chunks.
  - apply Forall_fmap.
    eapply Forall_impl; [apply (chunks_lengths (B * H * R) C); lia|].
    intros row Hrow. cbn in *. by rewrite length_argsort_row.
Qed.

Lemma q_indices_concat (B H R C : nat) (d : list Z) :
  length d = (B * H * R * C)%nat → Z.of_nat R < 2 ^ 31 →
  tdata (q_indices_of B H R C d) = concat (argsort_row <$> grid_columns B H R C d).
Proof.
  intros Hd HR. rewrite <- (q_indices_rows B H R C d Hd HR).
  symmetry. apply concat_chunks. unfold q_indices_of. cbn [tdata].
  rewrite matrices_argsort_dim2.
  pose proof (matrices_lengths B H R C d Hd) as Hms.
  rewrite length_fmap, (length_concat_uniform (C * R)).
  - unfold matrices. rewrite !length_fmap, length_chunks. lia.
  - apply Forall_fmap, Forall_fmap. eapply Forall_impl; [exact Hms|].
    intros m [Hm Hrows]. cbn. unfold flatten2.
    rewrite (length_concat_uniform R); [by rewrite length_transpose|].
    eapply Forall_impl; [apply transpose_lengths|]. intros col Hcol. cbn in Hcol.
    by rewrite Hcol, length_transpose.
Qed.

Lemma transpose_fmap (f : Z → Z) (nc : nat) (m : list (list Z)) :
  f 0 = 0 →
  transpose 0 nc ((fun row : list Z => f <$> row) <$> m)
  = (fun col : list Z => f <$> col) <$> transpose 0 nc m.
Proof.
  intros Hf. unfold transpose. rewrite <- list_fmap_compose.
  apply list_fmap_ext. intros _ c _. cbn. rewrite <- !list_fmap_compose.
  apply list_fmap_ext. intros _ row _. cbn.
  destruct (decide (c < length row)%nat) as [Hc|Hc].
  - rewrite <- Hf at 1. by apply map_nth.
  - rewrite !nth_overflow by (rewrite ?length_fmap; lia). done.
Qed.

Lemma transposed_fmap (f : Z → Z) (B H R C : nat) (d : list Z) :
  f 0 = 0 →
  f <$> concat ((fun m => flatten2 (transpose 0 C m)) <$> matrices B H R C d)
  = concat ((fun m => flatten2 (transpose 0 C m)) <$> matrices B H R C (f <$> d)).
Proof.
  intros Hf. unfold matrices. rewrite fmap_concat, <- !list_fmap_compose.
  rewrite chunks_fmap, <- list_fmap_compose. f_equal.
  apply list_fmap_ext. intros _ block _. cbn. unfold flatten2.
  rewrite chunks_fmap, transpose_fmap by done.
  by rewrite fmap_concat.
Qed.

(** X28: the backward view of a grid is the forward view of the transposed
    grid, and conversely: compressing [g.permute(0, 1, 3, 2)] gives the four
    arrays of [g] with the kv and the q arrays exchanged (for fewer than
    [2^31] rows and columns). *)
Theorem transposed_grid_exchanges_views (g : Tensor) (B H R C : nat) :
  tshape g = [B; H; R; C] → length (tdata g) = (B * H * R * C)%nat →
  Z.of_nat R < 2 ^ 31 → Z.of_nat C < 2 ^ 31 →
  ∃ transposed kv_num_blocks kv_indices q_num_blocks q_indices,
    permute_0132 g = Ok transposed
    ∧ create_sparse_block_from_block_mask_inner g
      = Ok (kv_num_blocks, kv_indices, q_num_blocks, q_indices)
    ∧ create_sparse_block_from_block_mask_inner transposed
      = Ok (q_num_blocks, q_indices, kv_num_blocks, kv_indices).
Proof.
  intros Hs Hd HR HC. do 5 eexists.
  split; [unfold permute_0132; by rewrite (rank4_shape g _ B H R C)|].
  split; [by apply inner_eq|].
  rewrite (inner_eq _ B H C R) by done. cbn zeta. cbn [tdata].
  set (d := cast Int32 <$> tdata g).
  assert (Hd' : length d = (B * H * R * C)%nat) by (unfold d; by rewrite length_fmap).
  rewrite (transposed_fmap (cast Int32)) by done. fold d.
  set (dT := concat ((fun m => flatten2 (transpose 0 C m)) <$> matrices B H R C d)).
  assert (HdT : length dT = (B * H * C * R)%nat) by by apply length_transposed.
  assert (Hrows : grid_rows B H C R dT = grid_columns B H R C d)
    by by apply transposed_rows.
  assert (Hcols : grid_columns B H C R dT = grid_rows B H R C d)
    by by apply transposed_columns.
  assert (Heq : ∀ t1 t2 : Tensor,
            tdtype t1 = tdtype t2 → tshape t1 = tshape t2 → tdata t1 = tdata t2 → t1 = t2).
  { intros [] []; cbn; by intros -> -> ->. }
  do 2 f_equal; [f_equal; [f_equal|]|]; apply Heq; try done.
  - by rewrite kv_num_blocks_rows, q_num_blocks_columns, Hrows.
  - by rewrite kv_indices_concat, q_indices_concat, Hrows.
  - by rewrite q_num_blocks_columns, kv_num_blocks_rows, Hcols.
  - by rewrite q_indices_concat, kv_indices_concat, Hcols.
Qed.

(** The grid [[3, 0, 3], [1, 2, 0]]. *)
Lemma transposed_grid_exchanges_views_2x3 :
  ∃ transposed kv_num_blocks kv_indices q_num_blocks q_indices,
    permute_0132 (mkTensor Int32 [1; 1; 2; 3]%nat [3; 0; 3; 1; 2; 0]) = Ok transposed
    ∧ create_sparse_block_from_block_mask_inner
        (mkTensor Int32 [1; 1; 2; 3]%nat [3; 0; 3; 1; 2; 0])
      = Ok (kv_num_blocks, kv_indices, q_num_blocks, q_indices)
    ∧ create_sparse_block_from_block_mask_inner transposed
      = Ok (q_num_blocks, q_indices, kv_num_blocks, kv_indices).
Proof.
  apply (transposed_grid_exchanges_views
           (mkTensor Int32 [1; 1; 2; 3]%nat [3; 0; 3; 1; 2; 0]) 1 1 2 3);
    [reflexivity | reflexivity | by vm_compute..].
Defined.

(** ** The default score mod and the default predicate *)

(** The tiles of a mask that is true everywhere. *)
Lemma true_mask_tiles (B H R C Qb KVb : nat) (G : list Z → Z) (v : Z) :
  (∀ tile, length tile = (Qb * KVb)%nat → all_true tile → G tile = v) →
  G <$> mask_tiles B H R C Qb KVb
          ((fun _ => 1) <$> coordinates B H (R * Qb) (C * KVb))
  = replicate (B * H * R * C) v.
Proof.
  intros HG. rewrite mask_tiles_coordinates, <- list_fmap_compose.
  rewrite <- (length_coordinates B H R C).
  apply (fmap_const_on _ (fun idx => idx ∈ coordinates B H R C)).
  - intros idx (b & h & r & c & -> & _)%elem_of_coordinates. unfold compose.
    apply HG; [by rewrite length_fmap, length_tile_elements|].
    unfold all_true. by apply Forall_fmap, Forall_forall.
  - by apply Forall_forall.
Qed.

Lemma zsum_all_true (tile : list Z) : all_true tile → zsum tile = Z.of_nat (length tile).
Proof.
  induction 1 as [|x tile -> _ IH]; [done|].
  rewrite zsum_cons, IH. cbn [length]. lia.
Qed.

Lemma sparsity_of_full_counts (bm : BlockMask.t) (B H R C : nat) :
  tshape (BlockMask.full_kv_indices bm) = [B; H; R; C] →
  tshape (BlockMask.full_kv_num_blocks bm) = [B; H; R] →
  tshape (BlockMask.full_q_num_blocks bm) = [B; H; C] →
  sum_all (BlockMask.full_kv_num_blocks bm) = Z.of_nat (B * H * R * C) →
  sum_all (BlockMask.partial_kv_num_blocks bm) = 0 →
  0 < BlockMask.KV_BLOCK_SIZE bm → 0 < BlockMask.Q_BLOCK_SIZE bm →
  (0 < B * H * R * C)%nat →
  ∃ s, BlockMask.sparsity bm = Ok s ∧ (s == 0)%Q.
Proof.
  intros Hs1 Hs2 Hs3 Hfull Hpartial HK HQ Hn.
  eexists. split; [apply (sparsity_eq bm B H R C); (done || nia)|].
  rewrite Hfull, Hpartial, Z.add_0_r.
  rewrite share_of_empty by nia. rewrite Z.sub_diag.
  unfold Qeq, Qdiv, Qmult, inject_Z. cbn. lia.
Qed.

(** X29: the module's default score mod [_identity] and default predicate
    [_no_mask] leave every tile computed.  [create_block_mask] takes
    [_identity] for a score mod and [_no_mask] for a predicate; for
    [_identity] the dense view is all ones, for [_no_mask] every tile is
    FULL and none PARTIAL, and both masks have sparsity 0. *)
Theorem defaults_compute_every_tile (B H R C Qb KVb : nat) :
  (0 < Qb)%nat → (0 < KVb)%nat → Z.of_nat (Qb * KVb) < 2 ^ 63 →
  Z.of_nat R < 2 ^ 31 → Z.of_nat C < 2 ^ 31 → (0 < B * H * R * C)%nat →
  ∃ bm_s bm_p s_s s_p,
    create_block_mask _identity B H (R * Qb) (C * KVb) (Z.of_nat KVb) (Z.of_nat Qb)
    = Ok bm_s
    ∧ BlockMask.mask_fn bm_s = None
    ∧ BlockMask.to_dense bm_s
      = Ok (mkTensor Int32 [B; H; R; C] (replicate (B * H * R * C) 1))
    ∧ BlockMask.sparsity bm_s = Ok s_s ∧ (s_s == 0)%Q
    ∧ create_block_mask _no_mask B H (R * Qb) (C * KVb) (Z.of_nat KVb) (Z.of_nat Qb)
      = Ok bm_p
    ∧ BlockMask.mask_fn bm_p = Some _no_mask
    ∧ sum_all (BlockMask.full_kv_num_blocks bm_p) = Z.of_nat (B * H * R * C)
    ∧ sum_all (BlockMask.partial_kv_num_blocks bm_p) = 0
    ∧ BlockMask.sparsity bm_p = Ok s_p ∧ (s_p == 0)%Q.
Proof.
  intros HQb HKVb H63 HR HC Hn.
  set (mask := mkTensor Bool [B; H; (R * Qb)%nat; (C * KVb)%nat]
                 ((fun _ => 1) <$> coordinates B H (R * Qb) (C * KVb))).
  assert (Hml : length (tdata mask) = (B * H * (R * Qb) * (C * KVb))%nat).
  { cbn [tdata mask]. by rewrite length_fmap, length_coordinates. }
  assert (Hmb : Forall is_bit (tdata mask)).
  { cbn [tdata mask]. apply Forall_fmap, Forall_forall. intros idx _. by right. }
  assert (Hpos : 0 < Z.of_nat (Qb * KVb)) by nia.
  set (all_ones := mkTensor Int8 [B; H; R; C] (replicate (B * H * R * C) 1)).
  set (all_zeros := mkTensor Int8 [B; H; R; C] (replicate (B * H * R * C) 0)).
  assert (Hones : Forall is_bit (replicate (B * H * R * C) 1))
    by (apply Forall_replicate; by right).
  assert (Hzeros : Forall is_bit (replicate (B * H * R * C) 0))
    by (apply Forall_replicate; by left).
  assert (Hsum1 : zsum (replicate (B * H * R * C) 1) = Z.of_nat (B * H * R * C))
    by (rewrite zsum_replicate; lia).
  assert (Hsum0 : zsum (replicate (B * H * R * C) 0) = 0)
    by (rewrite zsum_replicate; lia).
  (* the score mod *)
  assert (Hgrid_s :
    _convert_mask_to_block_mask mask (Z.of_nat KVb) (Z.of_nat Qb) None
    = Ok (all_ones, None)).
  { rewrite (classify_tiles_none B H R C Qb KVb mask) by done.
    cbn [tdata mask]. unfold all_ones. do 3 f_equal.
    apply true_mask_tiles. intros tile Hlen Htile.
    rewrite (zsum_all_true tile Htile), Hlen.
    by destruct (Z.ltb_spec 0 (Z.of_nat (Qb * KVb))); [|lia]. }
  destruct (to_dense_without_predicate all_ones None 128 128 B H R C)
    as (bm_s & Hbm_s & Hdense); [done | by cbn; rewrite length_replicate | done..|].
  destruct (create_sparse_wf all_ones None None 128 128 B H R C)
    as (bm_s' & Hbm_s' & Hs1 & Hs2 & Hs3 & Hsf & Hsp & HK & HQ & Hfn);
    [done | by cbn; rewrite length_replicate | done..|].
  rewrite Hbm_s in Hbm_s'. injection Hbm_s' as <-.
  destruct (sparsity_of_full_counts bm_s B H R C) as (s_s & Hsp_s & Hzero_s);
    [done | done | done | by rewrite Hsf | done | by rewrite HK | by rewrite HQ | done |].
  (* the predicate *)
  assert (Hgrid_p :
    _convert_mask_to_block_mask mask (Z.of_nat KVb) (Z.of_nat Qb) (Some _no_mask)
    = Ok (all_ones, Some all_zeros)).
  { rewrite (classify_tiles _no_mask B H R C Qb KVb mask) by done.
    cbn [tdata mask]. unfold all_ones, all_zeros. do 2 f_equal; [f_equal|do 2 f_equal].
    - apply true_mask_tiles. intros tile Hlen Htile.
      by rewrite (zsum_all_true tile Htile), Hlen, Z.eqb_refl.
    - apply true_mask_tiles. intros tile Hlen Htile.
      rewrite (zsum_all_true tile Htile), Hlen, Z.ltb_irrefl. by rewrite andb_false_r. }
  destruct (create_sparse_wf all_ones (Some all_zeros) (Some _no_mask) 128 128 B H R C)
    as (bm_p & Hbm_p & Hp1 & Hp2 & Hp3 & Hpf & Hpp & HKp & HQp & Hfnp);
    [done | by cbn; rewrite length_replicate | done
    | by cbn; rewrite length_replicate | done..|].
  destruct (sparsity_of_full_counts bm_p B H R C) as (s_p & Hsp_p & Hzero_p);
    [done | done | done | by rewrite Hpf | by rewrite Hpp | by rewrite HKp
    | by rewrite HQp | done |].
  exists bm_s, bm_p, s_s, s_p.
  split.
  { rewrite create_block_mask_eq. unfold evaluated_mask, retained_predicate.
    change (required_parameters _identity =? 5)%nat with true. cbn match.
    unfold _create_mask_from_score_mod, vmap_call. change (binds _identity 5) with true.
    cbn [mbind Result_bind]. rewrite <- !list_fmap_compose.
    change (mkTensor Bool [B; H; (R * Qb)%nat; (C * KVb)%nat] _) with mask.
    rewrite Hgrid_s. cbn [mbind Result_bind]. exact Hbm_s. }
  split; [done|]. split; [exact Hdense|]. split; [done|]. split; [done|].
  split.
  { rewrite create_block_mask_eq. unfold evaluated_mask, retained_predicate.
    change (required_parameters _no_mask =? 5)%nat with false. cbn match.
    unfold _create_mask_from_mask_fn, vmap_call. change (binds _no_mask 4) with true.
    cbn [mbind Result_bind].
    assert (Hall : forallb is_bool
              (body _no_mask <$> coordinates B H (R * Qb) (C * KVb)) = true).
    { apply Is_true_eq_true, forallb_True, Forall_fmap, Forall_forall. by intros idx _. }
    rewrite Hall, <- list_fmap_compose.
    change (mkTensor Bool [B; H; (R * Qb)%nat; (C * KVb)%nat] _) with mask.
    rewrite Hgrid_p. cbn [mbind Result_bind]. exact Hbm_p. }
  split; [done|]. split; [by rewrite Hpf|]. split; [by rewrite Hpp|]. by split.
Qed.

(** A mask of one batch entry and one head over 2 x 4 elements, in tiles of
    1 x 2. *)
Lemma defaults_compute_every_tile_2x2 :
  ∃ bm_s bm_p s_s s_p,
    create_block_mask _identity 1 1 (2 * 1) (2 * 2) (Z.of_nat 2) (Z.of_nat 1) = Ok bm_s
    ∧ BlockMask.mask_fn bm_s = None
    ∧ BlockMask.to_dense bm_s
      = Ok (mkTensor Int32 [1; 1; 2; 2]%nat (replicate (1 * 1 * 2 * 2) 1))
    ∧ BlockMask.sparsity bm_s = Ok s_s ∧ (s_s == 0)%Q
    ∧ create_block_mask _no_mask 1 1 (2 * 1) (2 * 2) (Z.of_nat 2) (Z.of_nat 1) = Ok bm_p
    ∧ BlockMask.mask_fn bm_p = Some _no_mask
    ∧ sum_all (BlockMask.full_kv_num_blocks bm_p) = Z.of_nat (1 * 1 * 2 * 2)
    ∧ sum_all (BlockMask.partial_kv_num_blocks bm_p) = 0
    ∧ BlockMask.sparsity bm_p = Ok s_p ∧ (s_p == 0)%Q.
Proof.
  apply (defaults_compute_every_tile 1 1 2 2 1 2);
    [lia | lia | by vm_compute | by vm_compute | by vm_compute | lia].
Defined.

(** ** The sparsity of a causal mask *)

Lemma causal_grid_eq (B H R C Qb KVb : nat) :
  (0 < Qb)%nat → (0 < KVb)%nat → Z.of_nat (Qb * KVb) < 2 ^ 63 →
  ∃ mask,
    _create_mask_from_score_mod _causal B H (R * Qb) (C * KVb) = Ok mask
    ∧ _convert_mask_to_block_mask mask (Z.of_nat KVb) (Z.of_nat Qb) None
      = Ok (mkTensor Int8 [B; H; R; C] (causal_tile Qb KVb <$> coordinates B H R C), None).
Proof.
  intros HQb HKVb H63.
  set (F := fun idx => if isneginf (body _causal (0 :: idx)) then 0 else 1).
  assert (HF : ∀ e, is_bit (F e)).
  { intros e. unfold F. destruct (isneginf _); by (left + right). }
  set (mask := mkTensor Bool [B; H; (R * Qb)%nat; (C * KVb)%nat]
                 (F <$> coordinates B H (R * Qb) (C * KVb))).
  exists mask. split.
  { unfold _create_mask_from_score_mod, vmap_call.
    change (binds _causal 5) with true.
    cbn [mbind Result_bind]. unfold mask. by rewrite <- !list_fmap_compose. }
  rewrite (classify_tiles_none B H R C Qb KVb mask); try done.
  2:{ cbn [tdata mask]. by rewrite length_fmap, length_coordinates. }
  2:{ cbn [tdata mask]. apply Forall_fmap, Forall_forall. intros idx _. apply HF. }
  cbn [tdata mask]. rewrite mask_tiles_coordinates, <- list_fmap_compose.
  do 3 f_equal. apply Forall_fmap_ext_1, Forall_forall.
  intros idx (b & h & r & c & -> & _)%elem_of_coordinates. unfold compose.
  destruct (zsum_fmap_bits F (tile_elements Qb KVb
              [Z.of_nat b; Z.of_nat h; Z.of_nat r; Z.of_nat c]) HF)
    as (_ & Hsome & _).
  assert (Hex : Exists (fun e => F e = 1)
                  (tile_elements Qb KVb [Z.of_nat b; Z.of_nat h; Z.of_nat r; Z.of_nat c])
                ↔ Z.of_nat c * Z.of_nat KVb < (Z.of_nat r + 1) * Z.of_nat Qb).
  { rewrite Exists_exists. split.
    - intros (e & (i & j & -> & Hi & Hj)%elem_of_tile_elements & He).
      unfold F in He. cbn [body _causal isneginf] in He.
      match type of He with
      | context [?x <=? ?y] => destruct (Z.leb_spec x y); [lia|done]
      end.
    - intros Hlt.
      exists [Z.of_nat b; Z.of_nat h;
              Z.of_nat r * Z.of_nat Qb + Z.of_nat (Qb - 1);
              Z.of_nat c * Z.of_nat KVb + Z.of_nat 0].
      split; [apply elem_of_tile_elements; exists (Qb - 1)%nat, 0%nat;
              split; [done|lia]|].
      unfold F. cbn [body _causal isneginf].
      match goal with
      | |- context [?x <=? ?y] =>
          replace (x <=? y) with true by (symmetry; apply Z.leb_le; lia)
      end. done. }
  unfold causal_tile.
  destruct (Z.ltb_spec 0 (zsum (F <$> tile_elements Qb KVb
              [Z.of_nat b; Z.of_nat h; Z.of_nat r; Z.of_nat c]))) as [Hpos|Hnpos];
    destruct (Z.ltb_spec (Z.of_nat c * Z.of_nat KVb) ((Z.of_nat r + 1) * Z.of_nat Qb))
      as [Hlt|Hge]; try done.
  - apply Hsome, Hex in Hpos. lia.
  - apply Hex, Hsome in Hlt. lia.
Qed.

Lemma zsum_bind {X} (f : X → list Z) (l : list X) :
  zsum (l ≫= f) = zsum ((fun x => zsum (f x)) <$> l).
Proof.
  induction l as [|x l IH]; [done|].
  cbn [mbind list_bind fmap list_fmap]. change (zsum (f x ++ l ≫= f) = zsum (f x) + zsum ((fun x => zsum (f x)) <$> l)).
  by rewrite zsum_app, IH.
Qed.

Lemma zsum_const_seq (f : nat → Z) (n : nat) (v : Z) :
  (∀ i, (i < n)%nat → f i = v) → zsum (f <$> seq 0 n) = Z.of_nat n * v.
Proof.
  intros Hf.
  rewrite (fmap_const_on f (fun i => (i < n)%nat) v).
  - by rewrite length_seq, zsum_replicate.
  - done.
  - apply Forall_forall. intros i Hi%elem_of_seq. lia.
Qed.

(** The number of tiles of row [r] of a square causal grid. *)
Lemma zsum_causal_row (S n : nat) (r : nat) :
  (0 < S)%nat →
  zsum ((fun c : nat => if Z.of_nat c * Z.of_nat S <? (Z.of_nat r + 1) * Z.of_nat S
                        then 1 else 0) <$> seq 0 n)
  = Z.of_nat (n `min` (r + 1)).
Proof.
  intros HS. induction n as [|n IH]; [done|].
  rewrite seq_S, fmap_app, zsum_app, IH. cbn [plus fmap list_fmap].
  rewrite zsum_cons. change (zsum []) with 0.
  destruct (Z.ltb_spec (Z.of_nat n * Z.of_nat S) ((Z.of_nat r + 1) * Z.of_nat S)); nia.
Qed.

Lemma zsum_triangle (k : nat) :
  2 * zsum ((fun r : nat => Z.of_nat (k `min` (r + 1))) <$> seq 0 k)
  = Z.of_nat k * (Z.of_nat k + 1).
Proof.
  assert (Hgen : ∀ n, (n ≤ k)%nat →
            2 * zsum ((fun r : nat => Z.of_nat (k `min` (r + 1))) <$> seq 0 n)
            = Z.of_nat n * (Z.of_nat n + 1)).
  { induction n as [|n IH]; intros Hn; [done|].
    rewrite seq_S, fmap_app, zsum_app. cbn [plus fmap list_fmap].
    rewrite zsum_cons. change (zsum []) with 0.
    specialize (IH ltac:(lia)). lia. }
  by apply Hgen.
Qed.

(** The number of computed tiles of a square causal grid. *)
Lemma zsum_causal_grid (B H k S : nat) :
  (0 < S)%nat →
  2 * zsum (causal_tile S S <$> coordinates B H k k)
  = Z.of_nat (B * H) * (Z.of_nat k * (Z.of_nat k + 1)).
Proof.
  intros HS. unfold coordinates.
  rewrite !fmap_bind, zsum_bind.
  assert (Hrow : ∀ b h : nat,
    zsum ((seq 0 k ≫= fun m => seq 0 k ≫= fun n =>
             [[Z.of_nat b; Z.of_nat h; Z.of_nat m; Z.of_nat n]])
          ≫= fun idx => [causal_tile S S idx])
    = zsum ((fun r : nat => Z.of_nat (k `min` (r + 1))) <$> seq 0 k)).
  { intros b h. rewrite bind_bind, zsum_bind. f_equal.
    apply list_fmap_ext. intros _ r _. cbn beta.
    rewrite bind_bind.
    rewrite (list_bind_ext _ (fun n : nat =>
               [if Z.of_nat n * Z.of_nat S <? (Z.of_nat r + 1) * Z.of_nat S
                then 1 else 0]) _ (seq 0 k)); [|by intros n|done].
    rewrite bind_ret_fmap. by apply zsum_causal_row. }
  rewrite (zsum_const_seq _ B
             (Z.of_nat H * zsum ((fun r : nat => Z.of_nat (k `min` (r + 1))) <$> seq 0 k))).
  - pose proof (zsum_triangle k). nia.
  - intros b _. rewrite fmap_bind, zsum_bind.
    apply zsum_const_seq. intros h _. rewrite fmap_bind.
    rewrite <- (Hrow b h). f_equal. rewrite bind_bind.
    apply list_bind_ext; [intros m|done]. rewrite fmap_bind, bind_bind.
    by apply list_bind_ext.
Qed.

(** X30: the causal mask over [k x k] tiles of [S x S] elements, built from
    the module's [_causal] score mod with block size [S], has
    [k * (k + 1) / 2] computed tiles per batch entry and head, all of them
    full, among [k * k]; [numel] counts every tile as 128 x 128 elements; the
    two integers that [sparsity] divides are in the ratio
    [(k + 1) / (2 * k)], and [sparsity] does not raise. *)
Theorem causal_tile_count (B H k S : nat) :
  (0 < S)%nat → Z.of_nat (S * S) < 2 ^ 63 → Z.of_nat k < 2 ^ 31 →
  (0 < B)%nat → (0 < H)%nat → (0 < k)%nat →
  let total_size :=
    Z.of_nat (B * H * k * k) * (_DEFAULT_SPARSE_BLOCK_SIZE * _DEFAULT_SPARSE_BLOCK_SIZE) in
  ∃ bm,
    create_block_mask _causal B H (k * S) (k * S) (Z.of_nat S) (Z.of_nat S) = Ok bm
    ∧ 2 * sum_all (BlockMask.full_kv_num_blocks bm)
      = Z.of_nat (B * H) * (Z.of_nat k * (Z.of_nat k + 1))
    ∧ sum_all (BlockMask.partial_kv_num_blocks bm) = 0
    ∧ BlockMask.numel bm = Ok total_size
    ∧ 0 < total_size
    ∧ 2 * Z.of_nat k
      * ((sum_all (BlockMask.full_kv_num_blocks bm)
          + sum_all (BlockMask.partial_kv_num_blocks bm))
         * BlockMask.KV_BLOCK_SIZE bm * BlockMask.Q_BLOCK_SIZE bm)
      = (Z.of_nat k + 1) * total_size
    ∧ is_ok (BlockMask.sparsity bm) = true.
Proof.
  intros HS H63 Hk31 HB HH Hk total_size. unfold total_size, _DEFAULT_SPARSE_BLOCK_SIZE.
  destruct (causal_grid_eq B H k k S S HS HS H63) as (mask & Hmask & Hgrid).
  set (grid := mkTensor Int8 [B; H; k; k] (causal_tile S S <$> coordinates B H k k)) in *.
  assert (Hbits : Forall is_bit (tdata grid)).
  { cbn [tdata grid]. apply Forall_fmap, Forall_forall.
    intros idx (b & h & r & c & -> & _)%elem_of_coordinates. cbn.
    destruct (_ <? _); by (left + right). }
  destruct (create_sparse_wf grid None None 128 128 B H k k)
    as (bm & Hbm & Hs1 & Hs2 & Hs3 & Hsf & Hsp & HK & HQ & Hfn);
    [done | by cbn [tdata grid]; rewrite length_fmap, length_coordinates | done..|].
  pose proof (zsum_causal_grid B H k S HS) as Hcount.
  change (causal_tile S S <$> coordinates B H k k) with (tdata grid) in Hcount.
  rewrite <- Hsf in Hcount.
  exists bm. split.
  { rewrite create_block_mask_eq. unfold evaluated_mask, retained_predicate.
    change (required_parameters _causal =? 5)%nat with true. cbn match.
    rewrite Hmask. cbn [mbind Result_bind]. rewrite Hgrid.
    cbn [mbind Result_bind]. exact Hbm. }
  split; [exact Hcount|]. split; [exact Hsp|].
  split; [by rewrite (numel_eq bm B H k k), HK, HQ|].
  rewrite HK, HQ, Hsp, Z.add_0_r.
  split; [nia|]. split.
  - set (T := sum_all (BlockMask.full_kv_num_blocks bm)) in *.
    rewrite !Nat2Z.inj_mul in *.
    set (b := Z.of_nat B) in *. set (h := Z.of_nat H) in *. set (n := Z.of_nat k) in *.
    transitivity (n * (2 * T) * (128 * 128)); [ring|]. rewrite Hcount. ring.
  - rewrite (sparsity_eq bm B H k k Hs1 Hs2 Hs3); [done|]. rewrite HK, HQ. nia.
Qed.

(** The mask of the usual example: [k = 2] tiles of 128 per side. *)
Lemma causal_tile_count_256 :
  let total_size :=
    Z.of_nat (1 * 1 * 2 * 2) * (_DEFAULT_SPARSE_BLOCK_SIZE * _DEFAULT_SPARSE_BLOCK_SIZE) in
  ∃ bm,
    create_block_mask _causal 1 1 (2 * 128) (2 * 128) (Z.of_nat 128) (Z.of_nat 128) = Ok bm
    ∧ 2 * sum_all (BlockMask.full_kv_num_blocks bm)
      = Z.of_nat (1 * 1) * (Z.of_nat 2 * (Z.of_nat 2 + 1))
    ∧ sum_all (BlockMask.partial_kv_num_blocks bm) = 0
    ∧ BlockMask.numel bm = Ok total_size
    ∧ 0 < total_size
    ∧ 2 * Z.of_nat 2
      * ((sum_all (BlockMask.full_kv_num_blocks bm)
          + sum_all (BlockMask.partial_kv_num_blocks bm))
         * BlockMask.KV_BLOCK_SIZE bm * BlockMask.Q_BLOCK_SIZE bm)
      = (Z.of_nat 2 + 1) * total_size
    ∧ is_ok (BlockMask.sparsity bm) = true.
Proof.
  apply (causal_tile_count 1 1 2 128);
    [lia | by vm_compute | by vm_compute | lia | lia | lia].
Defined.

(** ** The classification without a predicate, tile by tile *)

(** The sum of a list of bits is the number of its elements that are 1. *)
Lemma zsum_count (l : list Z) :
  Forall is_bit l → zsum l = Z.of_nat (length (filter (fun x => x = 1) l)).
Proof.
  induction 1 as [|x l Hx _ IH]; [done|].
  rewrite zsum_cons, IH, filter_cons.
  destruct Hx as [-> | ->]; [rewrite decide_False by done | rewrite decide_True by done];
    cbn [length]; lia.
Qed.

(** The conversion reads the shape of a mask of fewer than four dimensions
    as padded with leading 1s. *)
Lemma convert_padded (mask : Tensor) (KVB QB : Z) (fn : option PyFn) (s : list nat) :
  pad_shape 4 (tshape mask) = s → length s = 4%nat →
  _convert_mask_to_block_mask mask KVB QB fn
  = _convert_mask_to_block_mask (mkTensor (tdtype mask) s (tdata mask)) KVB QB fn.
Proof.
  intros Hs Hl. unfold _convert_mask_to_block_mask, _broadcast_to_dim.
  cbn [tdtype tshape tdata]. rewrite Hs.
  assert (pad_shape 4 s = s) as ->; [|done].
  unfold pad_shape. by rewrite Hl.
Qed.

(** C7: without a mask predicate, the conversion of a boolean dense mask
    made of [R x C] tiles of [Qb x KVb] elements (per batch entry and head)
    succeeds and returns no partial grid, and the entry of the full grid at
    a tile is 1 when the number [S] of [true] elements among the
    [Qb * KVb] elements of that tile is positive and 0 when it is zero.
    The tiles are those of [mask_tiles]: tile [c] of band [r] holds, from
    each of the rows [r * Qb .. r * Qb + Qb - 1], the elements
    [c * KVb .. c * KVb + KVb - 1].  Whatever the mask, a conversion
    without predicate that succeeds returns no partial grid. *)
Theorem convert_without_predicate (mask : Tensor) (B H R C Qb KVb : nat) :
  tdtype mask = Bool →
  pad_shape 4 (tshape mask) = [B; H; (R * Qb)%nat; (C * KVb)%nat] →
  length (tdata mask) = (B * H * (R * Qb) * (C * KVb))%nat →
  Forall is_bit (tdata mask) →
  (0 < Qb)%nat → (0 < KVb)%nat → Z.of_nat (Qb * KVb) < 2 ^ 63 →
  (∃ full,
     _convert_mask_to_block_mask mask (Z.of_nat KVb) (Z.of_nat Qb) None = Ok (full, None)
     ∧ tdtype full = Int8 ∧ tshape full = [B; H; R; C]
     ∧ length (tdata full) = (B * H * R * C)%nat
     ∧ length (mask_tiles B H R C Qb KVb (tdata mask)) = (B * H * R * C)%nat
     ∧ ∀ i tile, mask_tiles B H R C Qb KVb (tdata mask) !! i = Some tile →
         let S := Z.of_nat (length (filter (fun x => x = 1) tile)) in
         length tile = (Qb * KVb)%nat
         ∧ tdata full !! i = Some (if 0 <? S then 1 else 0)
         ∧ (0 < S ↔ ¬ all_false tile))
  ∧ ∀ (m : Tensor) (KVB QB : Z) (blocks : Tensor * option Tensor),
      _convert_mask_to_block_mask m KVB QB None = Ok blocks → blocks.2 = None.
Proof.
  intros Hdt Hs Hd Hb HQb HKVb H63. split.
  - destruct (mask_tiles_wf B H R C Qb KVb (tdata mask) Hd Hb) as [Hcount Htiles].
    eexists. split.
    { rewrite (convert_padded mask _ _ None _ Hs eq_refl).
      by apply classify_tiles_none. }
    cbn [tdtype tshape tdata]. rewrite length_fmap.
    split; [done|]. split; [done|]. split; [done|]. split; [done|].
    intros i tile Htile.
    eapply Forall_lookup_1 in Htiles as [Hlen Hbits]; [|exact Htile].
    split; [done|]. rewrite list_lookup_fmap, Htile. cbn [fmap option_fmap option_map].
    rewrite <- (zsum_count tile Hbits). split; [done|].
    pose proof (zsum_bits_zero tile Hbits) as Hnone.
    destruct (zsum_bits_full tile Hbits) as [Hrange _].
    split; [intros Hpos Hall%Hnone; lia | intros Hsome].
    destruct (decide (zsum tile = 0)) as [Hz%Hnone|Hnz]; [done|lia].
  - intros m KVB QB blocks Hconv.
    by apply convert_Ok in Hconv as (_ & _ & _ & _ & sums & _ & _ & _ & _ & _ & _ & _ & ->).
Qed.

(** A mask of two rows of four elements, [0 0 0 0] over [1 0 0 0], in tiles
    of 2 x 2: the first tile holds the one [true] element, in its second
    row, the second tile holds none. *)
Lemma convert_without_predicate_two_tiles :
  let mask := mkTensor Bool [1; 1; 2; 4]%nat [0; 0; 0; 0; 1; 0; 0; 0] in
  ((∃ full,
      _convert_mask_to_block_mask mask (Z.of_nat 2) (Z.of_nat 2) None = Ok (full, None)
      ∧ tdtype full = Int8 ∧ tshape full = [1; 1; 1; 2]%nat
      ∧ length (tdata full) = (1 * 1 * 1 * 2)%nat
      ∧ length (mask_tiles 1 1 1 2 2 2 (tdata mask)) = (1 * 1 * 1 * 2)%nat
      ∧ ∀ i tile, mask_tiles 1 1 1 2 2 2 (tdata mask) !! i = Some tile →
          let S := Z.of_nat (length (filter (fun x => x = 1) tile)) in
          length tile = (2 * 2)%nat
          ∧ tdata full !! i = Some (if 0 <? S then 1 else 0)
          ∧ (0 < S ↔ ¬ all_false tile))
   ∧ ∀ (m : Tensor) (KVB QB : Z) (blocks : Tensor * option Tensor),
       _convert_mask_to_block_mask m KVB QB None = Ok blocks → blocks.2 = None)
  ∧ mask_tiles 1 1 1 2 2 2 (tdata mask) = [[0; 0; 1; 0]; [0; 0; 0; 0]]
  ∧ _convert_mask_to_block_mask mask 2 2 None
    = Ok (mkTensor Int8 [1; 1; 1; 2]%nat [1; 0], None).
Proof.
  split; [|split; reflexivity].
  apply (convert_without_predicate
           (mkTensor Bool [1; 1; 2; 4]%nat [0; 0; 0; 0; 1; 0; 0; 0]) 1 1 1 2 2 2);
    [reflexivity | reflexivity | reflexivity | solve_bits | lia | lia | by vm_compute].
Defined.

(** ** The two paths of [create_block_mask] *)

(** The entries of the two grids at a tile of [n] bits with sum [zsum tile]. *)
Lemma tile_class (n : nat) (tile : list Z) :
  length tile = n → Forall is_bit tile → (0 < n)%nat →
  let f := if zsum tile =? Z.of_nat n then 1 else 0 in
  let p := if (0 <? zsum tile) && (zsum tile <? Z.of_nat n) then 1 else 0 in
  (f = 1 ↔ all_true tile)
  ∧ (p = 1 ↔ ¬ all_true tile ∧ ¬ all_false tile)
  ∧ (f = 0 ∧ p = 0 ↔ all_false tile).
Proof.
  intros Hlen Hbits Hn.
  destruct (zsum_bits_full tile Hbits) as [Hrange Hall].
  pose proof (zsum_bits_zero tile Hbits) as Hnone.
  rewrite Hlen in Hrange, Hall. fold (all_true tile) in Hall.
  assert (Htrue : all_true tile ↔ zsum tile = Z.of_nat n) by tauto.
  assert (Hfalse : all_false tile ↔ zsum tile = 0) by tauto.
  clear Hall Hnone. cbn zeta.
  destruct (Z.eqb_spec (zsum tile) (Z.of_nat n)) as [Heq|Hne];
    destruct (Z.ltb_spec 0 (zsum tile)) as [Hgt|Hle];
    destruct (Z.ltb_spec (zsum tile) (Z.of_nat n)) as [Hlt|Hge];
    cbn [andb]; rewrite Htrue, Hfalse; split_and?; split; intros; destruct_and?;
    try lia; try done; split_and?; try lia.
Qed.

(** C2 (amended): [create_block_mask] raises nothing of its own on the arity.
    With exactly 5 default-less parameters the function is called as a score
    modifier (five arguments), no predicate is retained, the full arrays are
    the compression of the one grid of the conversion without predicate, and
    the partial arrays are the zero placeholders.  With any other count, 4
    included, it is called as a mask predicate (four arguments) and retained
    on the BlockMask, and the PARTIAL class is enabled: the conversion is the
    one with a predicate and returns a partial grid, the four partial arrays
    of the BlockMask are the compression of that grid (with the layout of
    the full ones), and, for tiles of fewer than [2^63] elements, a tile is
    in the partial grid exactly when it holds a [true] and a [false] element
    and in the full grid exactly when all its elements are [true]; for fewer
    than [2^31] rows and columns of tiles the partial counts of the
    BlockMask add up to the number of tiles of the partial grid. *)
Theorem create_block_mask_dispatch (fn : PyFn) (B H M N : nat) (KVB QB : Z)
    (bm : BlockMask.t) :
  create_block_mask fn B H M N KVB QB = Ok bm →
  if (required_parameters fn =? 5)%nat then
    binds fn 5 = true
    ∧ BlockMask.mask_fn bm = None
    ∧ BlockMask.partial_kv_num_blocks bm = zeros [1; 1; 1]%nat Int32
    ∧ BlockMask.partial_kv_indices bm = zeros [1; 1; 1; 1]%nat Int32
    ∧ BlockMask.partial_q_num_blocks bm = zeros [1; 1; 1]%nat Int32
    ∧ BlockMask.partial_q_indices bm = zeros [1; 1; 1; 1]%nat Int32
    ∧ ∃ mask full,
        _create_mask_from_score_mod fn B H M N = Ok mask
        ∧ _convert_mask_to_block_mask mask KVB QB None = Ok (full, None)
        ∧ create_sparse_block_from_block_mask_inner full
          = Ok (BlockMask.full_kv_num_blocks bm, BlockMask.full_kv_indices bm,
                BlockMask.full_q_num_blocks bm, BlockMask.full_q_indices bm)
  else
    binds fn 4 = true
    ∧ BlockMask.mask_fn bm = Some fn
    ∧ tshape (BlockMask.partial_kv_num_blocks bm) = tshape (BlockMask.full_kv_num_blocks bm)
    ∧ tshape (BlockMask.partial_kv_indices bm) = tshape (BlockMask.full_kv_indices bm)
    ∧ tshape (BlockMask.partial_q_num_blocks bm) = tshape (BlockMask.full_q_num_blocks bm)
    ∧ tshape (BlockMask.partial_q_indices bm) = tshape (BlockMask.full_q_indices bm)
    ∧ ∃ mask full partial,
        _create_mask_from_mask_fn fn B H M N = Ok mask
        ∧ _convert_mask_to_block_mask mask KVB QB (Some fn) = Ok (full, Some partial)
        ∧ create_sparse_block_from_block_mask_inner full
          = Ok (BlockMask.full_kv_num_blocks bm, BlockMask.full_kv_indices bm,
                BlockMask.full_q_num_blocks bm, BlockMask.full_q_indices bm)
        ∧ create_sparse_block_from_block_mask_inner partial
          = Ok (BlockMask.partial_kv_num_blocks bm, BlockMask.partial_kv_indices bm,
                BlockMask.partial_q_num_blocks bm, BlockMask.partial_q_indices bm)
        ∧ (QB * KVB < 2 ^ 63 →
           ∃ R C Qb KVb : nat,
             M = (R * Qb)%nat ∧ N = (C * KVb)%nat
             ∧ QB = Z.of_nat Qb ∧ KVB = Z.of_nat KVb
             ∧ length (mask_tiles B H R C Qb KVb (tdata mask)) = (B * H * R * C)%nat
             ∧ (∀ i tile, mask_tiles B H R C Qb KVb (tdata mask) !! i = Some tile →
                  ∃ f p, tdata full !! i = Some f ∧ tdata partial !! i = Some p
                    ∧ (f = 1 ↔ all_true tile)
                    ∧ (p = 1 ↔ ¬ all_true tile ∧ ¬ all_false tile)
                    ∧ (f = 0 ∧ p = 0 ↔ all_false tile))
             ∧ (Z.of_nat R < 2 ^ 31 → Z.of_nat C < 2 ^ 31 →
                sum_all (BlockMask.full_kv_num_blocks bm) = count_tiles full
                ∧ sum_all (BlockMask.partial_kv_num_blocks bm) = count_tiles partial)).
Proof.
  unfold create_block_mask, _create_block_mask_inner.
  destruct (required_parameters fn =? 5)%nat; intros Hc.
  - inv_bind Hc as p Hp. inv_bind Hp as mask Hmask. injection Hp as <-.
    pose proof Hmask as Hmask0.
    unfold _create_mask_from_score_mod in Hmask.
    inv_bind Hmask as out Hout. apply vmap_call_Ok in Hout as [Hb _].
    inv_bind Hc as blocks Hblocks. pose proof Hblocks as Hblocks0.
    apply convert_Ok in Hblocks as (B' & H' & Q & KV & sums & _ & _ & _ & _ & _ & _ & _ & ->).
    cbn [classify _create_sparse_block_from_block_mask] in Hc, Hblocks0.
    inv_bind Hc as full_bm Hfull. cbn [mbind Result_bind] in Hc.
    destruct full_bm as [[[f0 f1] f2] f3].
    apply init_Ok in Hc as ->. split_and?; try done.
    by exists mask, (to Int8 (tensor_test (fun s => 0 <? s) sums)).
  - inv_bind Hc as p Hp. inv_bind Hp as mask Hmask. injection Hp as <-.
    pose proof Hmask as Hmask0.
    unfold _create_mask_from_mask_fn in Hmask.
    inv_bind Hmask as out Hout. apply vmap_call_Ok in Hout as [Hb ->].
    inv_bind Hc as blocks Hblocks. pose proof Hblocks as Hblocks0.
    apply convert_Ok in Hblocks
      as (B' & H' & Q & KV & sums & Hdt & Hs & HQB0 & HKVB0 & Hqm & Hkm & Hsums & ->).
    pose proof Hc as Hbm.
    cbn [classify _create_sparse_block_from_block_mask] in Hc, Hblocks0.
    inv_bind Hc as full_bm Hfull. inv_bind Hc as partial_bm Hpartial.
    pose proof Hfull as Hfull0. pose proof Hpartial as Hpartial0.
    apply inner_Ok in Hfull as (B1 & H1 & R1 & C1 & Hs1 & ->).
    apply inner_Ok in Hpartial as (B2 & H2 & R2 & C2 & Hs2 & ->).
    cbn [tshape to tensor_test tensor_and] in Hs1, Hs2.
    rewrite Hs1 in Hs2. injection Hs2 as <- <- <- <-.
    apply init_Ok in Hc as ->. split_and?; try done.
    do 3 eexists. split; [exact Hmask0|]. split; [exact Hblocks0|].
    split; [exact Hfull0|]. split; [exact Hpartial0|].
    intros H63. injection Hmask as Hmk.
    assert (Hms0 : tshape mask = [B; H; M; N]) by (by rewrite <- Hmk).
    assert (Hml0 : length (tdata mask) = (B * H * M * N)%nat).
    { rewrite <- Hmk. cbn [tdata]. by rewrite !length_fmap, length_coordinates. }
    assert (Hmb : Forall is_bit (tdata mask)).
    { rewrite <- Hmk. cbn [tdata]. apply Forall_fmap, Forall_forall. intros v _. cbn.
      destruct v as [[|]|]; by (left + right). }
    clear Hmk. rewrite Hms0 in Hs.
    cbn [pad_shape length Nat.sub replicate app] in Hs. injection Hs as <- <- <- <-.
    apply mask_block_sum_Ok in Hsums as (HQB & HKVB & _); [|done..].
    assert (HQ : QB = Z.of_nat (Z.to_nat QB)) by lia.
    assert (HK : KVB = Z.of_nat (Z.to_nat KVB)) by lia.
    assert (HQpos : (0 < Z.to_nat QB)%nat) by lia.
    assert (HKpos : (0 < Z.to_nat KVB)%nat) by lia.
    assert (HM : M = (Z.to_nat (Z.of_nat M / QB) * Z.to_nat QB)%nat).
    { pose proof (Z.div_pos (Z.of_nat M) QB ltac:(lia) HQB).
      pose proof (Z_div_exact_full_2 (Z.of_nat M) QB ltac:(lia) Hqm).
      apply Nat2Z.inj. rewrite Nat2Z.inj_mul, !Z2Nat.id by lia. lia. }
    assert (HN : N = (Z.to_nat (Z.of_nat N / KVB) * Z.to_nat KVB)%nat).
    { pose proof (Z.div_pos (Z.of_nat N) KVB ltac:(lia) HKVB).
      pose proof (Z_div_exact_full_2 (Z.of_nat N) KVB ltac:(lia) Hkm).
      apply Nat2Z.inj. rewrite Nat2Z.inj_mul, !Z2Nat.id by lia. lia. }
    remember (Z.to_nat (Z.of_nat M / QB)) as R eqn:HR.
    remember (Z.to_nat (Z.of_nat N / KVB)) as C eqn:HC.
    remember (Z.to_nat QB) as Qb eqn:HQb.
    remember (Z.to_nat KVB) as KVb eqn:HKVb.
    exists R, C, Qb, KVb. split; [done|]. split; [done|]. split; [done|]. split; [done|].
    assert (Hml : length (tdata mask) = (B * H * (R * Qb) * (C * KVb))%nat)
      by congruence.
    assert (Hms : tshape mask = [B; H; (R * Qb)%nat; (C * KVb)%nat]) by congruence.
    assert (H63' : Z.of_nat (Qb * KVb) < 2 ^ 63) by (rewrite Nat2Z.inj_mul; lia).
    destruct (mask_tiles_wf B H R C Qb KVb (tdata mask) Hml Hmb) as [Hcount Htiles].
    pose proof (classify_tiles fn B H R C Qb KVb mask Hdt Hms Hml Hmb HQpos HKpos H63')
      as Hclass.
    rewrite <- HQ, <- HK, Hblocks0 in Hclass.
    match type of Hclass with
    | Ok (?a, Some ?b) = Ok (?a', Some ?b') =>
        assert (Hf : a = a') by congruence; assert (Hp : b = b') by congruence
    end.
    clear Hclass.
    split; [done|]. split.
    + intros i tile Htile. rewrite Hf, Hp. cbn [tdata].
      rewrite !list_lookup_fmap, Htile. cbn [fmap option_fmap option_map].
      do 2 eexists. split; [done|]. split; [done|].
      eapply Forall_lookup_1 in Htiles as [Hlen Hbits]; [|exact Htile].
      apply (tile_class (Qb * KVb) tile Hlen Hbits). nia.
    + intros HR31 HC31.
      destruct (create_sparse_wf (to Int8 (tensor_test (λ s : Z, s =? QB * KVB) sums))
                  (Some (to Int8 (tensor_and (tensor_test (λ s : Z, 0 <? s) sums)
                                    (tensor_test (λ s : Z, s <? QB * KVB) sums))))
                  (Some fn) 128 128 B H R C)
        as (bm' & Hbm' & _ & _ & _ & Hsf & Hsp & _); try done.
      * by rewrite Hf.
      * by rewrite Hf; cbn [tdata]; rewrite length_fmap.
      * rewrite Hf. cbn [tdata]. apply Forall_fmap, Forall_forall. intros t _. cbn.
        destruct (_ =? _); by (left + right).
      * rewrite Hp. cbn [tshape tdata]. rewrite length_fmap. split_and?; try done.
        apply Forall_fmap, Forall_forall. intros t _. cbn.
        destruct (_ && _); by (left + right).
      * unfold _DEFAULT_SPARSE_BLOCK_SIZE in Hbm. cbn [classify] in Hbm.
        rewrite Hbm in Hbm'.
        injection Hbm' as <-. cbn [BlockMask.full_kv_num_blocks
          BlockMask.partial_kv_num_blocks] in Hsf, Hsp. by split.
Qed.

(** A predicate taking its indices as a star parameter goes down the
    mask-predicate branch: over 2 x 2 elements in one tile of 2 x 2, the
    causal mask [1 0; 1 1] makes that tile PARTIAL. *)
Lemma create_block_mask_dispatch_star :
  ∃ bm, create_block_mask causal_star 1 1 2 2 2 2 = Ok bm
    ∧ tdata (BlockMask.full_kv_num_blocks bm) = [0]
    ∧ tdata (BlockMask.partial_kv_num_blocks bm) = [1]
    ∧ binds causal_star 4 = true
    ∧ BlockMask.mask_fn bm = Some causal_star
    ∧ tshape (BlockMask.partial_kv_num_blocks bm) = tshape (BlockMask.full_kv_num_blocks bm)
    ∧ tshape (BlockMask.partial_kv_indices bm) = tshape (BlockMask.full_kv_indices bm)
    ∧ tshape (BlockMask.partial_q_num_blocks bm) = tshape (BlockMask.full_q_num_blocks bm)
    ∧ tshape (BlockMask.partial_q_indices bm) = tshape (BlockMask.full_q_indices bm)
    ∧ ∃ mask full partial,
        _create_mask_from_mask_fn causal_star 1 1 2 2 = Ok mask
        ∧ _convert_mask_to_block_mask mask 2 2 (Some causal_star) = Ok (full, Some partial)
        ∧ create_sparse_block_from_block_mask_inner full
          = Ok (BlockMask.full_kv_num_blocks bm, BlockMask.full_kv_indices bm,
                BlockMask.full_q_num_blocks bm, BlockMask.full_q_indices bm)
        ∧ create_sparse_block_from_block_mask_inner partial
          = Ok (BlockMask.partial_kv_num_blocks bm, BlockMask.partial_kv_indices bm,
                BlockMask.partial_q_num_blocks bm, BlockMask.partial_q_indices bm)
        ∧ (2 * 2 < 2 ^ 63 →
           ∃ R C Qb KVb : nat,
             2%nat = (R * Qb)%nat ∧ 2%nat = (C * KVb)%nat
             ∧ 2 = Z.of_nat Qb ∧ 2 = Z.of_nat KVb
             ∧ length (mask_tiles 1 1 R C Qb KVb (tdata mask)) = (1 * 1 * R * C)%nat
             ∧ (∀ i tile, mask_tiles 1 1 R C Qb KVb (tdata mask) !! i = Some tile →
                  ∃ f p, tdata full !! i = Some f ∧ tdata partial !! i = Some p
                    ∧ (f = 1 ↔ all_true tile)
                    ∧ (p = 1 ↔ ¬ all_true tile ∧ ¬ all_false tile)
                    ∧ (f = 0 ∧ p = 0 ↔ all_false tile))
             ∧ (Z.of_nat R < 2 ^ 31 → Z.of_nat C < 2 ^ 31 →
                sum_all (BlockMask.full_kv_num_blocks bm) = count_tiles full
                ∧ sum_all (BlockMask.partial_kv_num_blocks bm) = count_tiles partial)).
Proof.
  eexists. split; [reflexivity|]. split; [reflexivity|]. split; [reflexivity|].
  pose proof (create_block_mask_dispatch causal_star 1 1 2 2 2 2 _ eq_refl) as Hd.
  cbn [Nat.eqb required_parameters] in Hd. exact Hd.
Defined.
